(** * vb_core example drivers: synthetic data generation and noise injection

    A shallow embedding of [examples/biexp_example.py] and
    [examples/hybrid_example_asl.py].

    Both scripts are straight-line drivers around external collaborators
    (NumPy, SciPy, TensorFlow, vaby, nibabel, matplotlib).  The embedding
    keeps what the scripts themselves do:

    - Python scalars of type [float] are IEEE binary64 numbers; they are
      Rocq's primitive floats, so [*], [+] and [/] round exactly as in
      CPython.
    - The NumPy global generator, the heap of array objects and the
      sequence of calls made to collaborators are threaded through an
      explicit state-and-exception monad [M].
    - Collaborators whose code is not part of the repository are fields
      of a record of oracles; every theorem holds for all of them.
    - The sinusoidal field of the ASL driver needs [sin]; there the
      arithmetic is carried out over the reals extended with the IEEE
      special values NaN and the two infinities (module [Np]). *)

From Stdlib Require Import ZArith List Ascii String Bool Reals Lra Lia Floats.
From stdpp Require Import base option list gmap strings.
Import ListNotations.

Local Open Scope string_scope.

(** ** Python runtime: exceptions and results *)

Module Py.

Inductive exn : Type :=
| ZeroDivisionError
| OverflowError
| ValueError (msg : string)
| KeyError (key : string)
| IndexError
| NameError (name : string)
| FileNotFoundError (path : string)
| ImportError (module_name : string)
| CollaboratorError (who : string).

Inductive result (A : Type) : Type :=
| Ok (a : A)
| Raise (e : exn).

Arguments Ok {A} a.
Arguments Raise {A} e.

(** Truth value of [opts.rseed]: argparse leaves it [None] when the flag is
    absent, and an [int] is falsy exactly when it is zero. *)
Definition truthy_int (v : option Z) : bool :=
  match v with
  | None => false
  | Some s => negb (s =? 0)%Z
  end.

(** [x ** 2] on a float: C [pow], which raises [OverflowError] when a
    finite operand gives an infinite result and silently underflows. *)
Definition float_pow2 (x : float) : result float :=
  let r := (x * x)%float in
  if is_infinity r && negb (is_infinity x) then Raise OverflowError else Ok r.

(** [1 / y] with [y] a float: true division, [ZeroDivisionError] when the
    divisor compares equal to zero (either sign). *)
Definition truediv_1 (y : float) : result float :=
  if (y =? 0)%float then Raise ZeroDivisionError else Ok (1 / y)%float.

(** [float(t)] for a loop index. *)
Definition float_of_nat (t : nat) : float :=
  PrimFloat.of_uint63 (Uint63.of_Z (Z.of_nat t)).

(** Slices [l[::2]] and [l[1::2]]. *)
Fixpoint slice_even {A} (l : list A) : list A :=
  match l with
  | [] => []
  | x :: rest => x :: match rest with [] => [] | _ :: rest' => slice_even rest' end
  end.

Definition slice_odd {A} (l : list A) : list A :=
  match l with [] => [] | _ :: rest => slice_even rest end.

(** Values stored in the option dictionaries handed to vaby. *)
Inductive pyval : Type :=
| VBool (b : bool)
| VInt (n : Z)
| VFloat (x : float)
| VStr (s : string)
| VStdout
| VFloats (items : list float)
| VDicts (items : list (list (string * string)))
| VOverrides (items : list (string * list (string * string))).

(** [d.update(e)]: keys of [e] win. *)
Definition dict_update (d e : gmap string pyval) : gmap string pyval := e ∪ d.

End Py.

Export Py.

(** ** NumPy: the global generator and one-dimensional arrays *)

Module NumPy.

(** The legacy global [RandomState].  Its algorithm (MT19937 plus the
    polar Box-Muller transform) is NumPy's, not the repository's; the
    drivers only rely on the interface below. *)
Class Generator : Type := {
  rng_state : Type;
  (** state installed by [np.random.seed(s)] *)
  rng_of_seed : Z → rng_state;
  (** one standard-normal draw *)
  rng_gauss : rng_state → float * rng_state
}.

Definition seed_in_range (s : Z) : bool := (0 <=? s)%Z && (s <? 2 ^ 32)%Z.

(** [n] successive standard-normal draws. *)
Fixpoint gauss_draws `{Generator} (n : nat) (st : rng_state) : list float * rng_state :=
  match n with
  | O => ([], st)
  | S n' =>
      let '(z, st1) := rng_gauss st in
      let '(zs, st2) := gauss_draws n' st1 in
      (z :: zs, st2)
  end.

(** [np.random.normal(loc, scale, [n])] on a given generator state: a
    [scale] with the sign bit set (and not NaN) is refused, and each
    sample is [loc + scale * gauss()]. *)
Definition normal_from `{Generator} (loc scale : float) (n : Z) (st : rng_state)
  : result (list float) * rng_state :=
  if get_sign scale then (Raise (ValueError "scale < 0"), st)
  else if (n <? 0)%Z then (Raise (ValueError "negative dimensions are not allowed"), st)
  else
    let '(zs, st') := gauss_draws (Z.to_nat n) st in
    (Ok (map (λ z, loc + scale * z)%float zs), st').

(** [a + b] for one-dimensional arrays, with broadcasting of length one. *)
Definition add (a b : list float) : result (list float) :=
  if (length a =? length b)%nat then Ok (zip_with PrimFloat.add a b)
  else match a, b with
       | [x], _ => Ok (map (λ y, x + y)%float b)
       | _, [y] => Ok (map (λ x, x + y)%float a)
       | _, _ => Raise (ValueError "operands could not be broadcast together")
       end.

(** [a += b]: the result must have the shape of [a]. *)
Definition iadd (a b : list float) : result (list float) :=
  if (length a =? length b)%nat then Ok (zip_with PrimFloat.add a b)
  else match b with
       | [y] => Ok (map (λ x, x + y)%float a)
       | _ => Raise (ValueError "non-broadcastable output operand")
       end.

End NumPy.

(** ** The process: generator state, heap of arrays, observable calls *)

Module Proc.

Import NumPy.

(** Array-like objects.  [x += y] updates an [Ndarray] in place; a
    TensorFlow [Tensor] is immutable and the statement rebinds the name
    to a fresh object. *)
Inductive pyobj : Type :=
| Ndarray (data : list float)
| Tensor (data : list float).

Definition obj_data (o : pyobj) : list float :=
  match o with Ndarray d | Tensor d => d end.

(** Objects are addressed by their position in the heap. *)
Abbreviation addr := nat (only parsing).

(** What the process has done so far, in order. *)
Inductive event : Type :=
| Called (callee : string)
| Printed (a r : list float) (noise : float).

Section WithGenerator.

Context `{G : Generator}.

Record world : Type := World {
  np_rng : rng_state;
  tf_seed : option Z;
  heap : list pyobj;
  trace : list event
}.

(** A fresh process: the global generator holds whatever the operating
    system's entropy source gave it at import time. *)
Definition boot (entropy : rng_state) : world :=
  World entropy None [] [].

Definition M (A : Type) : Type := world → result A * world.

#[export] Instance M_ret : MRet M := λ A a w, (Ok a, w).

#[export] Instance M_bind : MBind M := λ A B k m w,
  match m w with
  | (Ok a, w') => k a w'
  | (Raise e, w') => (Raise e, w')
  end.

Definition raise {A} (e : exn) : M A := λ w, (Raise e, w).

Definition lift {A} (r : result A) : M A := λ w, (r, w).

Definition emit (ev : event) : M unit := λ w,
  (Ok (), World (np_rng w) (tf_seed w) (heap w) (trace w ++ [ev])).

(** A call to a collaborator: it is recorded, then returns or raises. *)
Definition call {A} (callee : string) (r : result A) : M A :=
  emit (Called callee);; lift r.

Definition alloc (o : pyobj) : M addr := λ w,
  (Ok (length (heap w)), World (np_rng w) (tf_seed w) (heap w ++ [o]) (trace w)).

Definition load (a : addr) : M pyobj := λ w,
  match heap w !! a with
  | Some o => (Ok o, w)
  | None => (Raise (CollaboratorError "dangling reference"), w)
  end.

Definition store (a : addr) (o : pyobj) : M unit := λ w,
  (Ok (), World (np_rng w) (tf_seed w) (<[a := o]> (heap w)) (trace w)).

(** [np.random.seed(s)] *)
Definition np_random_seed (s : Z) : M unit := λ w,
  let w1 := World (np_rng w) (tf_seed w) (heap w) (trace w ++ [Called "np.random.seed"]) in
  if seed_in_range s
  then (Ok (), World (rng_of_seed s) (tf_seed w1) (heap w1) (trace w1))
  else (Raise (ValueError "Seed must be between 0 and 2**32 - 1"), w1).

(** [tf.random.set_seed(s)] *)
Definition tf_random_set_seed (s : Z) : M unit := λ w,
  (Ok (), World (np_rng w) (Some s) (heap w) (trace w ++ [Called "tf.random.set_seed"])).

(** [np.random.normal(loc, scale, [n])] on the global generator. *)
Definition np_random_normal (loc scale : float) (n : Z) : M (list float) := λ w,
  let '(r, st) := normal_from loc scale n (np_rng w) in
  (r, World st (tf_seed w) (heap w) (trace w ++ [Called "np.random.normal"])).

(** Lines 28-30 of [biexp_example.py], 45-47 of [hybrid_example_asl.py]:
<<
    if opts.rseed:
        np.random.seed(opts.rseed)
        tf.random.set_seed(opts.rseed)
>> *)
Definition seed_generators (rseed : option Z) : M unit :=
  if truthy_int rseed then
    match rseed with
    | Some s => np_random_seed s;; tf_random_set_seed s
    | None => mret ()
    end
  else mret ().

(** The two statements every driver shares (biexp 35-36, hybrid 121-122):
<<
    NOISE_VAR_TRUTH = NOISE_STD_TRUTH**2
    NOISE_PREC_TRUTH = 1/NOISE_VAR_TRUTH
>> *)
Definition noise_precision (NOISE_STD_TRUTH : float) : result float :=
  match float_pow2 NOISE_STD_TRUTH with
  | Ok NOISE_VAR_TRUTH => truediv_1 NOISE_VAR_TRUTH
  | Raise e => Raise e
  end.

End WithGenerator.

Arguments world G : clear implicits.
Arguments M G A : clear implicits.

End Proc.

(** ** [examples/biexp_example.py] *)

Module Biexp.

Import NumPy Proc.

(** The parsed command line ([cli.parse_args()], lines 12-26). *)
Record Opts : Type := {
  method : string;
  amp1 : float;
  rate1 : float;
  amp2 : float;
  rate2 : float;
  dt : float;
  nt : Z;
  size : Z;
  noise : float;
  rseed : option Z;
  debug : bool;
  fabber : bool;
  plot : bool
}.

(** [0.1] as Python reads it: the binary64 number nearest to one tenth. *)
Definition one_tenth : float := 0x1.999999999999ap-4%float.

Definition default_opts : Opts := {|
  method := "avb";
  amp1 := 42; rate1 := 1; amp2 := 42; rate2 := one_tenth;
  dt := one_tenth; nt := 100; size := 100;
  noise := 5; rseed := None;
  debug := false; fabber := false; plot := false
|}.

Inductive plot_cmd : Type :=
| Figure (n : Z)
| Title (text : string)
| Plot (x y : list float) (fmt label : string)
| Legend
| Show.

(** What [vaby.run] hands back as [state]. *)
Definition run_state : Type := gmap string (list (list float)).

(** Code the script calls but does not contain. *)
Record Collaborators : Type := {
  (** [vaby.get_model_class("biexp")(None, dt=dt)] *)
  biexp_model : float → result unit;
  (** [temp_model.evaluate(params, t).numpy()] *)
  biexp_evaluate : float → list float → list float → result (list float);
  (** [vaby.run(data, "biexp", **options)] *)
  vaby_run : list float → string → gmap string pyval → result (float * run_state);
  (** [import m] inside a branch *)
  import_module : string → result unit;
  (** [nib.Nifti1Image(data.reshape((1, 1, 1, nt)), np.identity(4)).to_filename(path)] *)
  nifti_save : list float → Z → string → result unit;
  (** [os.system(cmd % dt)]: the exit status of the shell *)
  os_system : string → float → Z;
  (** [nib.load(path).get_fdata().reshape([nt])] *)
  nifti_load : string → Z → result (list float);
  (** a call into [matplotlib.pyplot] *)
  pyplot : plot_cmd → result unit
}.

Section Driver.

Context `{G : Generator} (C : Collaborators).

(** Names bound by lines 43-46. *)
Record Vars : Type := {
  t : addr;
  DATA_CLEAN : addr;
  DATA_NOISY : addr
}.

(** Line 44: [t = np.array([float(t)*opts.dt for t in range(opts.nt)])] *)
Definition time_grid (dt : float) (nt : Z) : list float :=
  map (λ t, float_of_nat t * dt)%float (seq 0 (Z.to_nat nt)).

(** Line 46: [DATA_CLEAN + np.random.normal(0, NOISE_STD_TRUTH, [opts.nt])],
    the noise injector. *)
Definition inject_noise (clean : list float) (NOISE_STD_TRUTH : float) (nt : Z)
  : M G (list float) :=
  noise ← np_random_normal 0 NOISE_STD_TRUTH nt;
  lift (NumPy.add clean noise).

(** Lines 28-46. *)
Definition simulate (opts : Opts) : M G Vars :=
  seed_generators (rseed opts);;
  let PARAMS_TRUTH := [amp1 opts; rate1 opts; amp2 opts; rate2 opts] in
  let NOISE_STD_TRUTH := noise opts in
  NOISE_PREC_TRUTH ← lift (noise_precision NOISE_STD_TRUTH);
  emit (Printed (slice_even PARAMS_TRUTH) (slice_odd PARAMS_TRUTH) NOISE_STD_TRUTH);;
  call "vaby.get_model_class" (biexp_model C (dt opts));;
  t ← alloc (Ndarray (time_grid (dt opts) (nt opts)));
  t_now ← load t;
  clean ← call "evaluate" (biexp_evaluate C (dt opts) PARAMS_TRUTH (obj_data t_now));
  DATA_CLEAN ← alloc (Ndarray clean);
  clean_now ← load DATA_CLEAN;
  noisy ← inject_noise (obj_data clean_now) NOISE_STD_TRUTH (nt opts);
  DATA_NOISY ← alloc (Ndarray noisy);
  mret {| t := t; DATA_CLEAN := DATA_CLEAN; DATA_NOISY := DATA_NOISY |}.

(** Lines 48-72. *)
Definition options (opts : Opts) : gmap string pyval :=
  let options : gmap string pyval := list_to_map [
    ("method", VStr (method opts));
    ("dt", VFloat (dt opts));
    ("save_mean", VBool true);
    ("save_model_fit", VBool true);
    ("save_input_data", VBool true);
    ("save_total_pv", VBool true);
    ("save_native", VBool true);
    ("save_model", VBool true);
    ("output", VStr "biexp_example_out");
    ("debug", VBool (debug opts));
    ("log_stream", VStdout)
  ] in
  if decide (method opts = "svb") then
    dict_update options (list_to_map [
      ("epochs", VInt 300);
      ("learning_rate", VFloat one_tenth);
      ("sample_size", VInt 5);
      ("batch_size", VInt 10)
    ])
  else if decide (method opts = "avb") then
    dict_update options (list_to_map [("max_iterations", VInt 200)])
  else options.

(** Line 74. *)
Definition infer (opts : Opts) (v : Vars) : M G (float * run_state) :=
  noisy ← load (DATA_NOISY v);
  call "vaby.run" (vaby_run C (obj_data noisy) "biexp" (options opts)).

Definition fabber_cmd : string :=
  "fabber_exp --data=data_noisy --print-free-energy --save-model-fit --output=biexp_example_fabber_out --dt=%.3f --model=exp --num-exps=2 --method=vb --max-iterations=50 --noise=white --overwrite --debug".

(** Lines 76-83: the reference-tool comparison.  Returns the value bound
    to [fabber_modelfit], if the branch ran. *)
Definition fabber_comparison (opts : Opts) (v : Vars) : M G (option (list float)) :=
  if fabber opts then
    call "import os" (import_module C "os");;
    call "import nibabel" (import_module C "nibabel");;
    noisy ← load (DATA_NOISY v);
    call "nii.to_filename" (nifti_save C (obj_data noisy) (nt opts) "data_noisy.nii.gz");;
    call "os.system" (Ok (os_system C fabber_cmd (dt opts)));;
    fabber_modelfit ← call "nib.load"
      (nifti_load C "exp_example_fabber_out/modelfit.nii.gz" (nt opts));
    mret (Some fabber_modelfit)
  else mret None.

(** [state["modelfit"][0]] *)
Definition modelfit0 (state : run_state) : result (list float) :=
  match state !! "modelfit" with
  | None => Raise (KeyError "modelfit")
  | Some rows =>
      match rows with
      | [] => Raise IndexError
      | row :: _ => Ok row
      end
  end.

Definition plt (cmd : plot_cmd) : M G unit := call "pyplot" (pyplot C cmd).

(** Lines 85-95: plotting. *)
Definition show_plots (opts : Opts) (v : Vars) (state : run_state)
  (fabber_modelfit : option (list float)) : M G unit :=
  if plot opts then
    call "import matplotlib" (import_module C "matplotlib");;
    plt (Figure 1);;
    plt (Title "Example inference of biexponential");;
    t_now ← load (t v);
    clean ← load (DATA_CLEAN v);
    plt (Plot (obj_data t_now) (obj_data clean) "b-" "Ground truth");;
    noisy ← load (DATA_NOISY v);
    plt (Plot (obj_data t_now) (obj_data noisy) "kx" "Noisy samples");;
    fit ← lift (modelfit0 state);
    plt (Plot (obj_data t_now) fit "g--" "Model fit");;
    (if fabber opts then
       match fabber_modelfit with
       | Some f => plt (Plot (obj_data t_now) f "r--" "Fabber model fit")
       | None => raise (NameError "fabber_modelfit")
       end
     else mret ());;
    plt Legend;;
    plt Show
  else mret ().

(** The whole script. *)
Definition main (opts : Opts) : M G Vars :=
  v ← simulate opts;
  '(runtime, state) ← infer opts v;
  fabber_modelfit ← fabber_comparison opts v;
  show_plots opts v state fabber_modelfit;;
  mret v.

End Driver.

End Biexp.

(** ** NumPy arithmetic over the reals with IEEE special values

    [np.sin] has no binary64 counterpart here, so the arrays of the
    spatial modulator hold real numbers; division by zero yields NaN or
    an infinity as NumPy's does (with a warning, not an exception), and
    the special values propagate as in IEEE 754.  Rounding and the sign
    of zero are not represented. *)

Module Np.

#[export] Instance Rle_decision : RelDecision Rle := Rle_dec.
#[export] Instance Rlt_decision : RelDecision Rlt := Rlt_dec.
#[export] Instance Req_decision : EqDecision R := Req_dec_T.

Inductive val : Type :=
| Fin (x : R)
| PosInf
| NegInf
| Nan.

Definition add (a b : val) : val :=
  match a, b with
  | Nan, _ | _, Nan => Nan
  | PosInf, NegInf | NegInf, PosInf => Nan
  | PosInf, _ | _, PosInf => PosInf
  | NegInf, _ | _, NegInf => NegInf
  | Fin x, Fin y => Fin (x + y)
  end.

Definition neg (a : val) : val :=
  match a with
  | Fin x => Fin (- x)
  | PosInf => NegInf
  | NegInf => PosInf
  | Nan => Nan
  end.

(** An infinity times a finite number. *)
Definition scale_inf (inf : val) (x : R) : val :=
  if decide (x = 0)%R then Nan
  else if decide (0 < x)%R then inf else neg inf.

Definition mul (a b : val) : val :=
  match a, b with
  | Nan, _ | _, Nan => Nan
  | Fin x, Fin y => Fin (x * y)
  | Fin x, inf => scale_inf inf x
  | inf, Fin y => scale_inf inf y
  | PosInf, PosInf | NegInf, NegInf => PosInf
  | PosInf, NegInf | NegInf, PosInf => NegInf
  end.

(** [x / m] for finite operands. *)
Definition div (x m : R) : val :=
  if decide (m = 0)%R then
    if decide (x = 0)%R then Nan
    else if decide (0 < x)%R then PosInf else NegInf
  else Fin (x / m).

(** [a.max()] of the flattened array; an empty array has no maximum. *)
Definition max (flat : list R) : result R :=
  match flat with
  | [] => Raise (ValueError "zero-size array to reduction operation maximum which has no identity")
  | x :: rest => Ok (fold_left Rmax rest x)
  end.

(** [np.arange(d)] *)
Definition arange (d : nat) : list R := map INR (seq 0 d).

(** [seq[i]] with Python's wrap-around of negative indices. *)
Definition item {A} (l : list A) (i : Z) : option A :=
  let n := Z.of_nat (length l) in
  if (i <? 0)%Z then
    if (i + n <? 0)%Z then None else l !! Z.to_nat (i + n)
  else l !! Z.to_nat i.

End Np.

(** ** [scipy.interpolate.interpn], linear method, three dimensions

    SciPy is not part of the repository.  The definitions follow its
    [interpn] and [RegularGridInterpolator]: the bounds test (the default
    [bounds_error=True]), [_find_indices] and [_evaluate_linear]. *)

Module SciPy.

Import Np.

Definition point : Type := R * R * R.

Definition array3 (A : Type) : Type := list (list (list A)).

Definition coord (axis : nat) (p : point) : R :=
  let '(x, y, z) := p in
  match axis with 0%nat => x | 1%nat => y | _ => z end.

(** [np.searchsorted(grid, x)]: the number of leading entries below [x]. *)
Fixpoint searchsorted (grid : list R) (x : R) : nat :=
  match grid with
  | [] => 0
  | g :: rest => if decide (g < x)%R then S (searchsorted rest x) else 0
  end.

(** [grid[0] <= p] and [p <= grid[-1]] *)
Definition within (grid : list R) (x : R) : bool :=
  match item grid 0, item grid (-1) with
  | Some lo, Some hi => bool_decide (lo <= x)%R && bool_decide (x <= hi)%R
  | _, _ => false
  end.

Definition out_of_bounds (axis : nat) : exn :=
  ValueError ("One of the requested xi is out of bounds in dimension "
              ++ match axis with 0%nat => "0" | 1%nat => "1" | _ => "2" end).

(** The bounds test, one dimension after the other over all points. *)
Fixpoint check_bounds (axis : nat) (grids : list (list R)) (xi : list point) : result unit :=
  match grids with
  | [] => Ok ()
  | grid :: rest =>
      match grid with
      | [] => Raise IndexError
      | _ :: _ =>
          if forallb (λ p, within grid (coord axis p)) xi
          then check_bounds (S axis) rest xi
          else Raise (out_of_bounds axis)
      end
  end.

(** [_find_indices] on one axis: lower cell index and normalised distance. *)
Definition find_index (grid : list R) (x : R) : Z * R :=
  let size := Z.of_nat (length grid) in
  let i := (Z.of_nat (searchsorted grid x) - 1)%Z in
  let i := if (i <? 0)%Z then 0%Z else i in
  let i := if (size - 2 <? i)%Z then (size - 2)%Z else i in
  let lo := default 0%R (item grid i) in
  let hi := default 0%R (item grid (i + 1)) in
  let denom := (hi - lo)%R in
  (i, if decide (denom = 0)%R then 0%R else ((x - lo) / denom)%R).

Definition item3 {A} (values : array3 A) (i j k : Z) : option A :=
  plane ← item values i; row ← item plane j; item row k.

(** One vertex of the cell: its offset along each axis picks the index
    and the weight. *)
Definition corner (values : array3 val) (c0 c1 c2 : Z * R * bool) : option val :=
  let pick (c : Z * R * bool) : Z * R :=
    let '(i, y, upper) := c in
    if upper then ((i + 1)%Z, y) else (i, (1 - y)%R) in
  let '(i0, w0) := pick c0 in
  let '(i1, w1) := pick c1 in
  let '(i2, w2) := pick c2 in
  v ← item3 values i0 i1 i2;
  Some (mul v (Fin (1 * w0 * w1 * w2))).

(** [itertools.product] of lower and upper vertex along the three axes. *)
Definition hypercube : list (bool * bool * bool) :=
  [ (false, false, false); (false, false, true);
    (false, true, false); (false, true, true);
    (true, false, false); (true, false, true);
    (true, true, false); (true, true, true) ].

Fixpoint sequence_option {A} (l : list (option A)) : option (list A) :=
  match l with
  | [] => Some []
  | None :: _ => None
  | Some x :: rest =>
      match sequence_option rest with
      | Some xs => Some (x :: xs)
      | None => None
      end
  end.

(** [_evaluate_linear] at one point: the weighted sum over the eight
    vertices of the enclosing cell. *)
Definition evaluate_linear (grids : list R * list R * list R) (values : array3 val)
  (p : point) : result val :=
  let '(g0, g1, g2) := grids in
  let '(x, y, z) := p in
  let '(i0, y0) := find_index g0 x in
  let '(i1, y1) := find_index g1 y in
  let '(i2, y2) := find_index g2 z in
  let terms :=
    map (λ '(b0, b1, b2), corner values (i0, y0, b0) (i1, y1, b1) (i2, y2, b2))
        hypercube in
  match sequence_option terms with
  | Some ts => Ok (fold_left add ts (Fin 0))
  | None => Raise IndexError
  end.

Fixpoint map_result {A B} (f : A → result B) (l : list A) : result (list B) :=
  match l with
  | [] => Ok []
  | x :: rest =>
      match f x with
      | Raise e => Raise e
      | Ok y =>
          match map_result f rest with
          | Raise e => Raise e
          | Ok ys => Ok (y :: ys)
          end
      end
  end.

(** [interpn(points=[g0, g1, g2], values=values, xi=xi)] *)
Definition interpn (grids : list R * list R * list R) (values : array3 val)
  (xi : list point) : result (list val) :=
  let '(g0, g1, g2) := grids in
  match check_bounds 0 [g0; g1; g2] xi with
  | Raise e => Raise e
  | Ok _ => map_result (evaluate_linear grids values) xi
  end.

End SciPy.

(** ** [examples/hybrid_example_asl.py] *)

Module Hybrid.

Import NumPy Proc Np SciPy.

(** The parsed command line (lines 19-43).  The five physiological
    ground-truth values feed the real-valued arithmetic of the spatial
    modulator and are the real numbers their floats denote. *)
Record Opts : Type := {
  method : string;
  wm_cbf : R;
  gm_cbf : R;
  gm_cbf_var : R;
  wm_att : R;
  gm_att : R;
  plds : string;
  repeats : Z;
  cort_inner : string;
  cort_outer : string;
  cort_inflated : string;
  projector : string;
  wm_pvs : string;
  mask : string;
  noise : float;
  spatial : bool;
  epochs : Z;
  sample_size : Z;
  learning_rate : float;
  iterations : Z;
  rseed : option Z;
  debug : bool;
  plot : bool
}.

(** What the script reads off [vaby.DataModel]. *)
Record DataModel : Type := {
  (** [data_model.data_space.shape] *)
  data_space_shape : nat * nat * nat;
  (** [data_model.model_space.parts[i].size] *)
  parts_size : list nat
}.

(** A [toblerone] surface. *)
Record Surface : Type := {
  points : list point;
  tris : list (Z * Z * Z)
}.

Inductive pv_cmd : Type :=
| Plotter (rows cols : Z)
| Subplot (row col : Z)
| AddText (text : string) (font_size : Z)
| AddMeshEstimated (mesh : list point) (faces : list (Z * Z * Z * Z)) (scalars : list float)
| AddMeshTruth (mesh : list point) (faces : list (Z * Z * Z * Z)) (scalars : list val)
| AddAxes
| PlotterShow.

(** Code the script calls but does not contain. *)
Record Collaborators : Type := {
  (** the builtin [float(s)] on a string *)
  py_float : string → result float;
  (** [vaby.DataModel(path, **options)] *)
  data_model_new : string → gmap string pyval → result DataModel;
  (** [import m] in the middle of the script *)
  import_module : string → result unit;
  (** [Surface(path, name)] *)
  surface_new : string → string → result Surface;
  (** [surface.transform(data_model.model_space.parts[0].projector.spc.world2vox)] *)
  surface_transform : Surface → DataModel → result Surface;
  (** [AslRestModel(data_model, **options)] *)
  asl_model_new : DataModel → gmap string pyval → result unit;
  (** [asl_model.tpts()] *)
  asl_tpts : DataModel → result (list float);
  (** [x.astype(np.float32)] on one element *)
  astype_float32 : val → val;
  (** [asl_model.evaluate([cbf, att], tpts)] *)
  asl_evaluate : list (list val) → list (list val) → list float → result (list float);
  (** [data_model.model_to_data(data, pv_scale=True)] *)
  model_to_data : DataModel → list float → result pyobj;
  (** [data_model.data_space.save_data(data_vol, name)] *)
  save_data : list float → string → result unit;
  (** [vaby.run(path, "aslrest", **options)] *)
  vaby_run : string → string → gmap string pyval → result unit;
  (** [data_model.save_model_data(data.numpy(), name, output, ...)] *)
  save_model_data : list float → string → string → result unit;
  (** [data_model.model_space.parts[0].save_data(ctx_cbf, name, output)] *)
  save_cortex_data : list val → string → string → result unit;
  (** [nib.load(path).darrays[0].data] *)
  gifti_load : string → result (list float);
  (** a call into [pyvista] *)
  pyvista : pv_cmd → result unit
}.

(** *** The spatial modulator (lines 89-108, 115-116) *)

(** Line 90: [scale = 2] *)
Definition scale : R := 2.

(** Lines 89-93:
<<
    inds = np.indices(data_model.data_space.shape)
    sine = (np.sin(inds[1] / scale) + np.sin(inds[0] / scale) + np.sin(inds[2] / scale))
>> *)
Definition sine_sum (shape : nat * nat * nat) : array3 R :=
  let '(d0, d1, d2) := shape in
  map (λ i, map (λ j, map (λ k,
    (sin (INR j / scale) + sin (INR i / scale) + sin (INR k / scale))%R)
    (seq 0 d2)) (seq 0 d1)) (seq 0 d0).

Definition flatten3 {A} (a : array3 A) : list A := concat (concat a).

Definition map3 {A B} (f : A → B) (a : array3 A) : array3 B :=
  map (map (map f)) a.

(** Line 94: [sine = sine / sine.max()] *)
Definition normalise (sine : array3 R) : result (array3 val) :=
  match Np.max (flatten3 sine) with
  | Raise e => Raise e
  | Ok m => Ok (map3 (λ x, Np.div x m) sine)
  end.

(** Line 103: [[ np.arange(d) for d in data_model.data_space.shape ]] *)
Definition grid_points (shape : nat * nat * nat) : list R * list R * list R :=
  let '(d0, d1, d2) := shape in (arange d0, arange d1, arange d2).

(** Line 107: [ctx_cbf = opts.gm_cbf + (opts.gm_cbf_var * ctx_sine)] *)
Definition modulate (gm_cbf gm_cbf_var : R) (ctx_sine : list val) : list val :=
  map (λ s, add (Fin gm_cbf) (mul (Fin gm_cbf_var) s)) ctx_sine.

(** [c * np.ones(n)] and [c * np.ones_like(a)] *)
Definition times_ones (c : R) (n : nat) : list val :=
  replicate n (mul (Fin c) (Fin 1)).

(** Lines 115-116:
    [np.concatenate([ctx, wm])[..., np.newaxis].astype(np.float32)] *)
Definition composite (cast : val → val) (ctx wm : list val) : list (list val) :=
  map (λ v, [cast v]) (ctx ++ wm).

(** Lines 89-107 without the collaborators: the cortical CBF for a volume
    shape and the voxel coordinates of the cortical vertices. *)
Definition cortical_cbf (shape : nat * nat * nat) (xi : list point)
  (gm_cbf gm_cbf_var : R) : result (list val) :=
  match normalise (sine_sum shape) with
  | Raise e => Raise e
  | Ok sine =>
      match interpn (grid_points shape) sine xi with
      | Raise e => Raise e
      | Ok ctx_sine => Ok (modulate gm_cbf gm_cbf_var ctx_sine)
      end
  end.

(** *** The script *)

(** [s.split(",")] *)
Fixpoint split_comma (acc s : string) : list string :=
  match s with
  | EmptyString => [acc]
  | String c rest =>
      if Ascii.eqb c ","%char then acc :: split_comma "" rest
      else split_comma (acc ++ String c "") rest
  end.

(** [o[name]] for a list of parts. *)
Definition part_size (dm : DataModel) (i : Z) : result nat :=
  match item (parts_size dm) i with
  | Some n => Ok n
  | None => Raise IndexError
  end.

Section Driver.

Context `{G : Generator} (C : Collaborators).

(** Names bound by lines 49-101. *)
Record Setup : Type := {
  options : gmap string pyval;
  data_model : DataModel;
  sine : array3 val;
  inflated : Surface
}.

(** Names bound by lines 102-117. *)
Record Truth : Type := {
  given : Setup;
  ctx_cbf : list val;
  cbf : list (list val);
  att : list (list val);
  data : addr
}.

(** Names bound by lines 120-126. *)
Record Vars : Type := {
  truth : Truth;
  data_vol : addr
}.

(** Lines 50-81. *)
Definition base_options (opts : Opts) (plds : list float) : gmap string pyval :=
  list_to_map [
    ("method", VStr (method opts));
    ("mask", VStr (mask opts));
    ("plds", VFloats plds);
    ("repeats", VInt (repeats opts));
    ("casl", VBool true);
    ("save_mean", VBool true);
    ("save_model_fit", VBool true);
    ("save_input_data", VBool true);
    ("save_total_pv", VBool true);
    ("save_native", VBool true);
    ("save_model", VBool true);
    ("model_structures", VDicts [
       [("name", "L"); ("type", "CorticalSurface"); ("white", cort_inner opts);
        ("pial", cort_outer opts); ("projector", projector opts)];
       [("name", "WM"); ("type", "PartialVolumes"); ("vol_data", wm_pvs opts);
        ("mask", mask opts)] ]);
    ("debug", VBool (debug opts));
    ("save_log", VBool true);
    ("log_stream", VStdout)
  ].

(** Line 126: [data_vol += noise].  Returns the object the name
    [data_vol] is bound to afterwards. *)
Definition augmented_add (target : addr) (noise : list float) : M G addr :=
  o ← load target;
  match o with
  | Ndarray d =>
      r ← lift (NumPy.iadd d noise);
      store target (Ndarray r);;
      mret target
  | Tensor d =>
      r ← lift (NumPy.add d noise);
      alloc (Tensor r)
  end.

(** Lines 120-126: the noise injector. *)
Definition inject_noise (dm : DataModel) (data : addr) (noise_std_truth : float)
  : M G addr :=
  noise_prec_truth ← lift (noise_precision noise_std_truth);
  clean ← load data;
  vol ← call "data_model.model_to_data" (model_to_data C dm (obj_data clean));
  data_vol ← alloc vol;
  shape ← load data_vol;
  noise ← np_random_normal 0 noise_std_truth (Z.of_nat (length (obj_data shape)));
  augmented_add data_vol noise.

(** Lines 45-101: the data model, the normalised field and the
    cortical vertex coordinates. *)
Definition setup (opts : Opts) : M G Setup :=
  seed_generators (rseed opts);;
  plds ← lift (map_result (py_float C) (split_comma "" (plds opts)));
  let options := base_options opts plds in
  data_model ← call "vaby.DataModel" (data_model_new C (wm_pvs opts) options);
  sine ← lift (normalise (sine_sum (data_space_shape data_model)));
  call "import toblerone" (import_module C "toblerone.classes");;
  inflated ← call "Surface" (surface_new C (cort_inflated opts) "inflated");
  inflated ← call "Surface.transform" (surface_transform C inflated data_model);
  mret {| options := options; data_model := data_model; sine := sine;
          inflated := inflated |}.

(** Lines 102-117: the ground-truth parameters and the clean signal. *)
Definition ground_truth (opts : Opts) : M G Truth :=
  s ← setup opts;
  ctx_sine ← call "scipy.interpolate.interpn"
    (interpn (grid_points (data_space_shape (data_model s))) (sine s)
       (points (inflated s)));
  let ctx_cbf := modulate (gm_cbf opts) (gm_cbf_var opts) ctx_sine in
  let ctx_att := times_ones (gm_att opts) (length ctx_cbf) in
  call "AslRestModel" (asl_model_new C (data_model s) (options s));;
  tpts ← call "asl_model.tpts" (asl_tpts C (data_model s));
  wm_size ← lift (part_size (data_model s) 1);
  let cbf := composite (astype_float32 C) ctx_cbf (times_ones (wm_cbf opts) wm_size) in
  let att := composite (astype_float32 C) ctx_att (times_ones (wm_att opts) wm_size) in
  clean ← call "asl_model.evaluate" (asl_evaluate C cbf att tpts);
  data ← alloc (Tensor clean);
  mret {| given := s; ctx_cbf := ctx_cbf; cbf := cbf; att := att; data := data |}.

(** Lines 45-127. *)
Definition simulate (opts : Opts) : M G Vars :=
  g ← ground_truth opts;
  data_vol ← inject_noise (data_model (given g)) (data g) (noise opts);
  noisy ← load data_vol;
  call "data_space.save_data"
    (save_data C (obj_data noisy) "hybrid_example_asl_data_noisy");;
  mret {| truth := g; data_vol := data_vol |}.

(** Lines 130-150. *)
Definition run_options (opts : Opts) (options : gmap string pyval) (plds : nat)
  : gmap string pyval :=
  let options :=
    if decide (method opts = "svb") then
      dict_update options (list_to_map [
        ("epochs", VInt (epochs opts));
        ("learning_rate", VFloat (learning_rate opts));
        ("batch_size", VInt (Z.of_nat plds));
        ("sample_size", VInt (sample_size opts))
      ])
    else if decide (method opts = "avb") then
      dict_update options (list_to_map [("max_iterations", VInt (iterations opts))])
    else options in
  if spatial opts then
    <["output" := VStr ("hybrid_asl_example_" ++ method opts ++ "_spatial_out")]>
      (<["param_overrides" := VOverrides [("ftiss", [("prior_type", "M")])]]> options)
  else
    <["output" := VStr ("hybrid_asl_example_" ++ method opts ++ "_nonspatial_out")]> options.

Definition output_dir (opts : Opts) : string :=
  if spatial opts then "hybrid_asl_example_" ++ method opts ++ "_spatial_out"
  else "hybrid_asl_example_" ++ method opts ++ "_nonspatial_out".

Definition pv (cmd : pv_cmd) : M G unit := call "pyvista" (pyvista C cmd).

(** Lines 152-158: inference and the ground-truth files. *)
Definition infer (opts : Opts) (v : Vars) : M G unit :=
  let n_plds := length (split_comma "" (plds opts)) in
  call "vaby.run"
    (vaby_run C "hybrid_example_asl_data_noisy.nii.gz" "aslrest"
       (run_options opts (options (given (truth v))) n_plds));;
  clean ← load (data (truth v));
  call "data_model.save_model_data"
    (save_model_data C (obj_data clean) "hybrid_example_asl_data_clean" (output_dir opts));;
  call "parts[0].save_data"
    (save_cortex_data C (ctx_cbf (truth v)) "true_ftiss" (output_dir opts)).

(** Lines 161-179: plotting. *)
Definition show_plots (opts : Opts) (v : Vars) : M G unit :=
  if plot opts then
    let inflated := inflated (given (truth v)) in
    let faces := map (λ '(a, b, c), (3%Z, a, b, c)) (tris inflated) in
    pv (Plotter 1 2);;
    pv (Subplot 0 0);;
    pv (AddText "Estimated CBF" 10);;
    cbf_output ← call "nib.load"
      (gifti_load C (output_dir opts ++ "/mean_ftiss_L.func.gii"));
    pv (AddMeshEstimated (points inflated) faces cbf_output);;
    pv AddAxes;;
    pv (Subplot 0 1);;
    pv (AddText "True CBF" 10);;
    pv (AddMeshTruth (points inflated) faces (ctx_cbf (truth v)));;
    pv AddAxes;;
    pv PlotterShow
  else mret ().

(** The whole script. *)
Definition main (opts : Opts) : M G Vars :=
  v ← simulate opts;
  infer opts v;;
  show_plots opts v;;
  mret v.

End Driver.

End Hybrid.

(** ** Small instances on which the drivers can be run *)

Module Sample.

Import NumPy Proc SciPy.

(** A generator with two outcomes, both finite. *)
Definition two_valued : Generator := {|
  rng_state := Z;
  rng_of_seed s := s;
  rng_gauss st := (if Z.even st then 1.5%float else (-0.5)%float, (3 * st + 1)%Z)
|}.

(** A fresh process whose generator starts in state [e]. *)
Definition fresh (e : Z) : world two_valued := @boot two_valued e.

(** A process in generator state [e] that holds [objects] and has made
    the calls [calls]. *)
Definition world_at (e : Z) (objects : list pyobj) (calls : list string)
  : world two_valued :=
  @World two_valued e None objects (map Called calls).

(** A linear stand-in for the biexponential forward model. *)
Definition linear_model (params t : list float) : result (list float) :=
  match params with
  | [a1; r1; a2; r2] => Ok (map (λ x, a1 + a2 - (r1 + r2) * x)%float t)
  | _ => Raise (ValueError "four parameters expected")
  end.

(** Collaborators of the biexponential driver that all succeed, except
    that [nib.load] finds only the files listed in [present]. *)
Definition biexp (present : list string) : Biexp.Collaborators := {|
  Biexp.biexp_model _ := Ok ();
  Biexp.biexp_evaluate _ := linear_model;
  Biexp.vaby_run d _ _ := Ok (0%float, {[ "modelfit" := [d] ]});
  Biexp.import_module _ := Ok ();
  Biexp.nifti_save _ _ _ := Ok ();
  Biexp.os_system _ _ := 1%Z;
  Biexp.nifti_load path _ :=
    if bool_decide (path ∈ present) then Ok [] else Raise (FileNotFoundError path);
  Biexp.pyplot _ := Ok ()
|}.

Definition biexp_opts (noise : float) (rseed : option Z) (fabber : bool) : Biexp.Opts := {|
  Biexp.method := "avb";
  Biexp.amp1 := 42; Biexp.rate1 := 1; Biexp.amp2 := 42; Biexp.rate2 := 0.5;
  Biexp.dt := 0.5; Biexp.nt := 4; Biexp.size := 100;
  Biexp.noise := noise; Biexp.rseed := rseed;
  Biexp.debug := false; Biexp.fabber := fabber; Biexp.plot := false
|}.

(** Collaborators of the ASL driver that all succeed, for a given volume
    shape, cortical vertex coordinates and kind of acquisition-space
    object. *)
Definition hybrid (shape : nat * nat * nat) (vertices : list point)
  (wrap : list float → pyobj) : Hybrid.Collaborators := {|
  Hybrid.py_float _ := Ok 1%float;
  Hybrid.data_model_new _ _ :=
    Ok {| Hybrid.data_space_shape := shape; Hybrid.parts_size := [length vertices; 2%nat] |};
  Hybrid.import_module _ := Ok ();
  Hybrid.surface_new _ _ := Ok {| Hybrid.points := vertices; Hybrid.tris := [] |};
  Hybrid.surface_transform s _ := Ok s;
  Hybrid.asl_model_new _ _ := Ok ();
  Hybrid.asl_tpts _ := Ok [1%float];
  Hybrid.astype_float32 v := v;
  Hybrid.asl_evaluate _ _ _ := Ok [10%float; 20%float];
  Hybrid.model_to_data _ d := Ok (wrap (map (λ x, x / 2)%float d));
  Hybrid.save_data _ _ := Ok ();
  Hybrid.vaby_run _ _ _ := Ok ();
  Hybrid.save_model_data _ _ _ := Ok ();
  Hybrid.save_cortex_data _ _ _ := Ok ();
  Hybrid.gifti_load path := Raise (FileNotFoundError path);
  Hybrid.pyvista _ := Ok ()
|}.

(** A data model of two by one by one voxels. *)
Definition volume : Hybrid.DataModel :=
  {| Hybrid.data_space_shape := (2, 1, 1)%nat; Hybrid.parts_size := [1; 2]%nat |}.

Definition hybrid_opts (noise : float) (plot : bool) : Hybrid.Opts := {|
  Hybrid.method := "svb";
  Hybrid.wm_cbf := 20; Hybrid.gm_cbf := 60; Hybrid.gm_cbf_var := 60;
  Hybrid.wm_att := 1.6; Hybrid.gm_att := 1.3;
  Hybrid.plds := "0.75, 1.0";
  Hybrid.repeats := 1;
  Hybrid.cort_inner := "inner.surf.gii";
  Hybrid.cort_outer := "outer.surf.gii";
  Hybrid.cort_inflated := "inflated.surf.gii";
  Hybrid.projector := "hemi.h5";
  Hybrid.wm_pvs := "wm_pv.nii.gz";
  Hybrid.mask := "mask.nii.gz";
  Hybrid.noise := noise;
  Hybrid.spatial := false;
  Hybrid.epochs := 300; Hybrid.sample_size := 20;
  Hybrid.learning_rate := 0.5; Hybrid.iterations := 50;
  Hybrid.rseed := None; Hybrid.debug := false; Hybrid.plot := plot
|}.

(** The same options with [--noise 5] and [--rseed s]. *)
Definition seeded_hybrid_opts (s : Z) : Hybrid.Opts := {|
  Hybrid.method := "svb";
  Hybrid.wm_cbf := 20; Hybrid.gm_cbf := 60; Hybrid.gm_cbf_var := 60;
  Hybrid.wm_att := 1.6; Hybrid.gm_att := 1.3;
  Hybrid.plds := "0.75, 1.0";
  Hybrid.repeats := 1;
  Hybrid.cort_inner := "inner.surf.gii";
  Hybrid.cort_outer := "outer.surf.gii";
  Hybrid.cort_inflated := "inflated.surf.gii";
  Hybrid.projector := "hemi.h5";
  Hybrid.wm_pvs := "wm_pv.nii.gz";
  Hybrid.mask := "mask.nii.gz";
  Hybrid.noise := 5;
  Hybrid.spatial := false;
  Hybrid.epochs := 300; Hybrid.sample_size := 20;
  Hybrid.learning_rate := 0.5; Hybrid.iterations := 50;
  Hybrid.rseed := Some s; Hybrid.debug := false; Hybrid.plot := false
|}.

(** Collaborators of the biexponential driver that all succeed, with a
    [vaby.run] whose state holds the rows [fit] under ["modelfit"], or
    no such entry. *)
Definition biexp_with_state (fit : option (list (list float))) : Biexp.Collaborators := {|
  Biexp.biexp_model _ := Ok ();
  Biexp.biexp_evaluate _ := linear_model;
  Biexp.vaby_run _ _ _ :=
    Ok (0%float, match fit with Some rows => {[ "modelfit" := rows ]} | None => ∅ end);
  Biexp.import_module _ := Ok ();
  Biexp.nifti_save _ _ _ := Ok ();
  Biexp.os_system _ _ := 0%Z;
  Biexp.nifti_load _ _ := Ok [];
  Biexp.pyplot _ := Ok ()
|}.

(** [biexp_opts 5 None false] with another [--nt]. *)
Definition biexp_opts_nt (nt : Z) : Biexp.Opts := {|
  Biexp.method := "avb";
  Biexp.amp1 := 42; Biexp.rate1 := 1; Biexp.amp2 := 42; Biexp.rate2 := 0.5;
  Biexp.dt := 0.5; Biexp.nt := nt; Biexp.size := 100;
  Biexp.noise := 5; Biexp.rseed := None;
  Biexp.debug := false; Biexp.fabber := false; Biexp.plot := false
|}.

(** [biexp_opts noise None false] with [--plot]. *)
Definition plotting_biexp_opts (noise : float) : Biexp.Opts := {|
  Biexp.method := "avb";
  Biexp.amp1 := 42; Biexp.rate1 := 1; Biexp.amp2 := 42; Biexp.rate2 := 0.5;
  Biexp.dt := 0.5; Biexp.nt := 4; Biexp.size := 100;
  Biexp.noise := noise; Biexp.rseed := None;
  Biexp.debug := false; Biexp.fabber := false; Biexp.plot := true
|}.

End Sample.

(** ** Vocabulary of the statements *)

Module Spec.

Import NumPy Proc SciPy.

Section WithGenerator.

Context `{G : Generator}.

(** The world after one more recorded event. *)
Definition logged (w : world G) (ev : event) : world G :=
  World (np_rng w) (tf_seed w) (heap w) (trace w ++ [ev]).

(** What [DATA_NOISY] holds at the end of a run of the biexponential
    simulation, if it got that far. *)
Definition noisy (run : result Biexp.Vars * world G) : option (list float) :=
  match run with
  | (Ok v, w) => obj_data <$> heap w !! Biexp.DATA_NOISY v
  | (Raise _, _) => None
  end.

(** A step that leaves every object of the heap as it was. *)
Definition keeps_heap {A} (m : M G A) : Prop :=
  ∀ w r w', m w = (r, w') → heap w' = heap w.

End WithGenerator.

(** Every draw of the generator is a finite number. *)
Definition finite_draws (G : Generator) : Prop :=
  ∀ st : rng_state, is_nan (rng_gauss st).1 = false ∧ is_infinity (rng_gauss st).1 = false.

(** Equality of samples up to the sign of zero: [-0.0 + 0.0] is [0.0]. *)
Definition same_sample (clean noisy : float) : Prop :=
  noisy = clean ∨ (clean = (-0)%float ∧ noisy = 0%float).

(** The grid of a volume of shape [(d0, d1, d2)] spans [0, d - 1] on
    every axis; a point is outside when one coordinate leaves it. *)
Definition outside (shape : nat * nat * nat) (p : point) : Prop :=
  let '(d0, d1, d2) := shape in
  let '(x, y, z) := p in
  (x < 0 ∨ INR d0 - 1 < x ∨ y < 0 ∨ INR d1 - 1 < y ∨ z < 0 ∨ INR d2 - 1 < z)%R.

Definition inside (shape : nat * nat * nat) (p : point) : Prop :=
  let '(d0, d1, d2) := shape in
  let '(x, y, z) := p in
  (0 <= x <= INR d0 - 1 ∧ 0 <= y <= INR d1 - 1 ∧ 0 <= z <= INR d2 - 1)%R.

(** A volume with at least one voxel. *)
Definition nonempty (shape : nat * nat * nat) : Prop :=
  let '(d0, d1, d2) := shape in (1 ≤ d0 ∧ 1 ≤ d1 ∧ 1 ≤ d2)%nat.

(** A volume on which the sinusoid field is not constant. *)
Definition nondegenerate (shape : nat * nat * nat) : Prop :=
  let '(d0, d1, d2) := shape in
  nonempty shape ∧ (2 ≤ d0 ∨ 2 ≤ d1 ∨ 2 ≤ d2)%nat.

(** An array with the extents of a volume shape. *)
Definition shaped {A} (shape : nat * nat * nat) (a : array3 A) : Prop :=
  let '(d0, d1, d2) := shape in
  length a = d0 ∧
  Forall (λ plane, length plane = d1 ∧ Forall (λ row, length row = d2) plane) a.

(** The value [sine[i, j, k]] before normalisation. *)
Definition wave (i j k : nat) : R :=
  (sin (INR j / Hybrid.scale) + sin (INR i / Hybrid.scale) + sin (INR k / Hybrid.scale))%R.

(** All entries of an array are one and the same value. *)
Definition constant {A} (a : array3 A) : Prop :=
  ∃ c, Hybrid.flatten3 a ≠ [] ∧ Forall (λ x, x = c) (Hybrid.flatten3 a).

(** The coordinates of the voxel [(i, j, k)]. *)
Definition voxel (n : nat * nat * nat) : point :=
  let '(i, j, k) := n in (INR i, INR j, INR k).

(** The weight of the lower or of the upper end of a cell, for a point
    at normalised distance [y] from the lower end. *)
Definition weight (y : R) (upper : bool) : R := if upper then y else (1 - y)%R.

(** The weight and the field value of one of the eight vertices of the
    cell whose lowest vertex has the indices [(i0, i1, i2)]. *)
Definition weights (y0 y1 y2 : R) (c : bool * bool * bool) : R :=
  let '(b0, b1, b2) := c in (1 * weight y0 b0 * weight y1 b1 * weight y2 b2)%R.

Definition vertex (raw : array3 R) (i0 i1 i2 : Z) (c : bool * bool * bool) : R :=
  let '(b0, b1, b2) := c in
  default 0%R (item3 raw (if b0 then i0 + 1 else i0)%Z (if b1 then i1 + 1 else i1)%Z
                         (if b2 then i2 + 1 else i2)%Z).




(** The same collaborators with another shell behind [os.system]. *)
Definition with_exit_status (C : Biexp.Collaborators) (status : string → float → Z)
  : Biexp.Collaborators := {|
  Biexp.biexp_model := Biexp.biexp_model C;
  Biexp.biexp_evaluate := Biexp.biexp_evaluate C;
  Biexp.vaby_run := Biexp.vaby_run C;
  Biexp.import_module := Biexp.import_module C;
  Biexp.nifti_save := Biexp.nifti_save C;
  Biexp.os_system := status;
  Biexp.nifti_load := Biexp.nifti_load C;
  Biexp.pyplot := Biexp.pyplot C
|}.

(** The same command line with another [--size]. *)
Definition with_size (opts : Biexp.Opts) (size : Z) : Biexp.Opts := {|
  Biexp.method := Biexp.method opts;
  Biexp.amp1 := Biexp.amp1 opts; Biexp.rate1 := Biexp.rate1 opts;
  Biexp.amp2 := Biexp.amp2 opts; Biexp.rate2 := Biexp.rate2 opts;
  Biexp.dt := Biexp.dt opts; Biexp.nt := Biexp.nt opts; Biexp.size := size;
  Biexp.noise := Biexp.noise opts; Biexp.rseed := Biexp.rseed opts;
  Biexp.debug := Biexp.debug opts; Biexp.fabber := Biexp.fabber opts;
  Biexp.plot := Biexp.plot opts
|}.

(** Some call into a collaborator of the biexponential driver raises [e]. *)
Inductive collaborator_raises (C : Biexp.Collaborators) (e : exn) : Prop :=
| raises_model dt : Biexp.biexp_model C dt = Raise e → collaborator_raises C e
| raises_evaluate dt params t :
    Biexp.biexp_evaluate C dt params t = Raise e → collaborator_raises C e
| raises_run data model options :
    Biexp.vaby_run C data model options = Raise e → collaborator_raises C e
| raises_import m : Biexp.import_module C m = Raise e → collaborator_raises C e
| raises_save data nt path : Biexp.nifti_save C data nt path = Raise e → collaborator_raises C e
| raises_nifti_load path nt : Biexp.nifti_load C path nt = Raise e → collaborator_raises C e
| raises_pyplot cmd : Biexp.pyplot C cmd = Raise e → collaborator_raises C e.

(** The outcome is a [NameError]. *)
Definition name_error {A} (r : result A) : bool :=
  match r with Raise (NameError _) => true | _ => false end.

(** An exception other than [NameError]. *)
Definition no_name_error (e : exn) : Prop := ∀ x, e ≠ NameError x.

Section Outcomes.

Context `{G : Generator}.

(** Every exception a step can end with satisfies [P]. *)
Definition raises_only {A} (P : exn → Prop) (m : M G A) : Prop :=
  ∀ w e w', m w = (Raise e, w') → P e.

(** Every value a step can return satisfies [Q]. *)
Definition returns {A} (Q : A → Prop) (m : M G A) : Prop :=
  ∀ w a w', m w = (Ok a, w') → Q a.

(** Whatever a step does and however it ends, it only adds events to the
    trace, and every call among them is to one of [allowed]. *)
Definition calls_within {A} (allowed : list string) (m : M G A) : Prop :=
  ∀ w r w', m w = (r, w') →
    ∃ evs, trace w' = (trace w ++ evs)%list ∧ ∀ c, Called c ∈ evs → c ∈ allowed.

End Outcomes.

End Spec.

(** * Properties *)

(** ** Stepping through the monad *)

Section Steps.

Import NumPy Proc.

Context `{G : Generator}.

Lemma bind_ok {A B} (m : M G A) (k : A → M G B) w a w' :
  m w = (Ok a, w') → (m ≫= k) w = k a w'.
Proof. intros H. unfold mbind, M_bind. by rewrite H. Qed.

Lemma bind_raise {A B} (m : M G A) (k : A → M G B) w e w' :
  m w = (Raise e, w') → (m ≫= k) w = (Raise e, w').
Proof. intros H. unfold mbind, M_bind. by rewrite H. Qed.

Lemma bind_inv {A B} (m : M G A) (k : A → M G B) w r w'' :
  (m ≫= k) w = (r, w'') →
  (∃ a w', m w = (Ok a, w') ∧ k a w' = (r, w'')) ∨
  (∃ e, m w = (Raise e, w'') ∧ r = Raise e).
Proof.
  unfold mbind, M_bind. destruct (m w) as [[a|e] w'] eqn:E; intros H.
  - left. eauto.
  - right. exists e. by inversion H.
Qed.

Lemma bind_ok_inv {A B} (m : M G A) (k : A → M G B) w b w'' :
  (m ≫= k) w = (Ok b, w'') →
  ∃ a w', m w = (Ok a, w') ∧ k a w' = (Ok b, w'').
Proof.
  intros H. destruct (bind_inv _ _ _ _ _ H) as [?|(e & _ & ?)]; [done|discriminate].
Qed.

End Steps.

(** ** Binary64 facts used below *)

Section Binary64.

Import Proc.

Lemma eqb_zero_inv (x : float) :
  (x =? 0)%float = true → x = 0%float ∨ x = (-0)%float.
Proof.
  rewrite FloatAxioms.eqb_spec.
  change (Prim2SF 0) with (S754_zero false). intros H.
  rewrite <- (SF2Prim_Prim2SF x).
  destruct (Prim2SF x) as [[|]|[|]| |[|] m e]; try discriminate; auto.
Qed.

Lemma zero_times_finite (z : float) :
  is_nan z = false → is_infinity z = false → (0 + 0 * z)%float = 0%float.
Proof.
  unfold is_nan, is_infinity.
  rewrite !FloatAxioms.eqb_spec, abs_spec. intros Hnan Hinf.
  apply Prim2SF_inj. rewrite add_spec, mul_spec.
  change (Prim2SF 0) with (S754_zero false).
  change (Prim2SF infinity) with (S754_infinity false) in Hinf.
  destruct (Prim2SF z) as [[|]|[|]| |[|] m e]; try discriminate; reflexivity.
Qed.

Lemma plus_zero (x : float) :
  (x + 0)%float = x ∨ (x = (-0)%float ∧ (x + 0)%float = 0%float).
Proof.
  destruct (Prim2SF x) as [[|]|[|]| |[|] m e] eqn:E.
  all: try (left; apply Prim2SF_inj; rewrite add_spec, E; reflexivity).
  right. split.
  - rewrite <- (SF2Prim_Prim2SF x), E. reflexivity.
  - apply Prim2SF_inj. rewrite add_spec, E. reflexivity.
Qed.

Lemma square_zero (x : float) : (x =? 0)%float = true → (x * x)%float = 0%float.
Proof. intros H. destruct (eqb_zero_inv x H) as [->| ->]; reflexivity. Qed.

Lemma precision_division_by_zero (x : float) :
  noise_precision x = Raise ZeroDivisionError ↔ (x * x =? 0)%float = true.
Proof.
  unfold noise_precision, float_pow2, truediv_1. split.
  - destruct (is_infinity (x * x) && negb (is_infinity x)); [discriminate|].
    destruct (x * x =? 0)%float; [done|discriminate].
  - intros H. destruct (eqb_zero_inv _ H) as [E|E]; rewrite E; reflexivity.
Qed.

End Binary64.

Section TimeGrid.
Import Proc.

Lemma float_mul_comm (x y : float) : (x * y)%float = (y * x)%float.
Proof.
  apply Prim2SF_inj. rewrite !mul_spec. unfold SF64mul, SFmul.
  destruct (Prim2SF x) as [sx|sx| |sx mx ex], (Prim2SF y) as [sy|sy| |sy my ey];
    try reflexivity; rewrite ?(xorb_comm sx sy); try reflexivity.
  by rewrite (Pos.mul_comm mx my), (Z.add_comm ex ey).
Qed.

Lemma lookup_map {A B} (f : A → B) (l : list A) (i : nat) :
  map f l !! i = f <$> (l !! i).
Proof. revert i; induction l as [|a l IH]; intros [|i]; simpl; auto. Qed.

Lemma time_grid_lookup (dt : float) (nt : Z) (t : nat) :
  (Z.of_nat t < nt)%Z →
  Biexp.time_grid dt nt !! t = Some (dt * float_of_nat t)%float.
Proof.
  intros H. unfold Biexp.time_grid.
  rewrite lookup_map, lookup_seq_lt by lia. simpl. by rewrite float_mul_comm.
Qed.

Lemma time_grid_length (dt : float) (nt : Z) :
  length (Biexp.time_grid dt nt) = Z.to_nat nt.
Proof. unfold Biexp.time_grid. by rewrite length_map, length_seq. Qed.

(** C9: with dt = 0.1 and nt = 100 the time grid has 100 entries and its
    t-th entry, for t from 0 to 99, is the float product 0.1 * t. *)
Theorem time_grid_uniform (t : nat) :
  (t < 100)%nat →
  length (Biexp.time_grid Biexp.one_tenth 100) = 100%nat ∧
  Biexp.time_grid Biexp.one_tenth 100 !! t
    = Some (Biexp.one_tenth * float_of_nat t)%float.
Proof.
  intros H. split.
  - by rewrite time_grid_length.
  - apply time_grid_lookup. lia.
Qed.

Lemma time_grid_uniform_at_3 :
  length (Biexp.time_grid Biexp.one_tenth 100) = 100%nat ∧
  Biexp.time_grid Biexp.one_tenth 100 !! 3%nat = Some 0x1.3333333333334p-2%float.
Proof. apply (time_grid_uniform 3). lia. Defined.

End TimeGrid.

(** ** What the primitive steps do to the world *)

Section Primitives.

Import NumPy Proc Spec.

Context `{G : Generator}.

Lemma call_eq {A} (callee : string) (r : result A) (w : world G) :
  call callee r w = (r, logged w (Called callee)).
Proof. reflexivity. Qed.

Lemma call_inv {A} (callee : string) (r : result A) (w : world G) r' w' :
  call callee r w = (r', w') → r' = r ∧ w' = logged w (Called callee).
Proof. rewrite call_eq. by inversion 1. Qed.

Lemma lift_inv {A} (r : result A) (w : world G) r' w' :
  lift r w = (r', w') → r' = r ∧ w' = w.
Proof. unfold lift. by inversion 1. Qed.

Lemma load_inv (a : addr) (w : world G) o w' :
  load a w = (Ok o, w') → heap w !! a = Some o ∧ w' = w.
Proof. unfold load. destruct (heap w !! a); by inversion 1. Qed.

Lemma seed_generators_zero (w : world G) : seed_generators (Some 0%Z) w = (Ok (), w).
Proof. reflexivity. Qed.

(** A seed that is applied erases what the generator held before. *)
Lemma seed_generators_applied (s : Z) (e1 e2 : rng_state) :
  s ≠ 0%Z → seed_in_range s = true →
  seed_generators (Some s) (boot e1) = seed_generators (Some s) (boot e2).
Proof.
  intros Hs Hr. unfold seed_generators, truthy_int.
  destruct (Z.eqb_spec s 0) as [|_]; [done|]. simpl.
  unfold mbind, M_bind, np_random_seed, boot. simpl.
  by rewrite Hr.
Qed.

Lemma seed_generators_heap (rseed : option Z) (w : world G) r w' :
  seed_generators rseed w = (r, w') → heap w' = heap w.
Proof.
  unfold seed_generators. destruct (truthy_int rseed), rseed as [s|];
    try (inversion 1; done).
  unfold mbind, M_bind, np_random_seed, tf_random_set_seed.
  destruct (seed_in_range s); simpl; inversion 1; done.
Qed.

End Primitives.

(** ** Reproducibility of the noise *)

Section Reproducibility.

Import NumPy Proc.

Context `{G : Generator}.

(** With a non-zero seed the whole simulation, generator state included,
    is the same whatever the generator held at start-up. *)
Lemma biexp_seeded_runs_agree (C : Biexp.Collaborators) (opts : Biexp.Opts)
  (s : Z) (e1 e2 : rng_state) :
  Biexp.rseed opts = Some s → s ≠ 0%Z → seed_in_range s = true →
  Biexp.simulate C opts (boot e1) = Biexp.simulate C opts (boot e2).
Proof.
  intros Hseed Hs Hr. unfold Biexp.simulate. rewrite Hseed.
  unfold mbind at 1 3, M_bind at 1 3.
  by rewrite (seed_generators_applied s e1 e2 Hs Hr).
Qed.

Lemma hybrid_seeded_runs_agree (C : Hybrid.Collaborators) (opts : Hybrid.Opts)
  (s : Z) (e1 e2 : rng_state) :
  Hybrid.rseed opts = Some s → s ≠ 0%Z → seed_in_range s = true →
  Hybrid.simulate C opts (boot e1) = Hybrid.simulate C opts (boot e2).
Proof.
  intros Hseed Hs Hr. unfold Hybrid.simulate, Hybrid.ground_truth, Hybrid.setup.
  rewrite Hseed.
  unfold mbind, M_bind.
  by rewrite (seed_generators_applied s e1 e2 Hs Hr).
Qed.

End Reproducibility.

Section SeedZero.

Import NumPy Proc Spec.

(** C1: a claim the code breaks for seed 0.  [if opts.rseed:] is false
    for the seed 0, so the generator is left as the operating system
    initialised it, and two runs with [--rseed 0] that start from
    different generator states produce different noisy traces. *)
Theorem seed_zero_is_not_applied :
  (∀ (G : Generator) (w : world G), seed_generators (Some 0%Z) w = (Ok (), w)) ∧
  noisy (Biexp.simulate (G := Sample.two_valued) (Sample.biexp [])
           (Sample.biexp_opts 5 (Some 0%Z) false) (Sample.fresh 1))
    = Some [81.5; 90.75; 80; 89.25]%float ∧
  noisy (Biexp.simulate (G := Sample.two_valued) (Sample.biexp [])
           (Sample.biexp_opts 5 (Some 0%Z) false) (Sample.fresh 2))
    = Some [91.5; 80.75; 90; 79.25]%float.
Proof.
  split; [intros; apply seed_generators_zero|].
  split; vm_compute; reflexivity.
Qed.

End SeedZero.

(** ** Division by the squared noise level *)

Section ZeroNoise.

Import NumPy Proc Spec.

Context `{G : Generator}.

Lemma precision_of_zero (std : float) :
  (std =? 0)%float = true → noise_precision std = Raise ZeroDivisionError.
Proof.
  intros H. apply precision_division_by_zero. by rewrite (square_zero std H).
Qed.

Lemma biexp_zero_noise (C : Biexp.Collaborators) (opts : Biexp.Opts) (w w1 : world G) :
  (Biexp.noise opts =? 0)%float = true →
  seed_generators (Biexp.rseed opts) w = (Ok (), w1) →
  Biexp.simulate C opts w = (Raise ZeroDivisionError, w1).
Proof.
  intros Hz Hs. unfold Biexp.simulate.
  rewrite (bind_ok _ _ _ _ _ Hs).
  apply bind_raise. by rewrite (precision_of_zero _ Hz).
Qed.

Lemma hybrid_injector_zero_noise (C : Hybrid.Collaborators) (dm : Hybrid.DataModel)
  (data : addr) (std : float) (w : world G) :
  (std =? 0)%float = true →
  Hybrid.inject_noise C dm data std w = (Raise ZeroDivisionError, w).
Proof.
  intros Hz. unfold Hybrid.inject_noise.
  apply bind_raise. by rewrite (precision_of_zero _ Hz).
Qed.

Lemma hybrid_zero_noise (C : Hybrid.Collaborators) (opts : Hybrid.Opts)
  (w w1 : world G) (g : Hybrid.Truth) :
  (Hybrid.noise opts =? 0)%float = true →
  Hybrid.ground_truth C opts w = (Ok g, w1) →
  Hybrid.simulate C opts w = (Raise ZeroDivisionError, w1).
Proof.
  intros Hz Hg. unfold Hybrid.simulate.
  rewrite (bind_ok _ _ _ _ _ Hg).
  apply bind_raise. by apply hybrid_injector_zero_noise.
Qed.

End ZeroNoise.

(** ** Reading a successful run backwards *)

Section Inversion.

Import NumPy Proc Spec.

Context `{G : Generator}.

Lemma call_ok_inv {A} (callee : string) (r : result A) (w : world G) a w' :
  call callee r w = (Ok a, w') → r = Ok a ∧ w' = logged w (Called callee).
Proof. intros H. apply call_inv in H as [-> ->]. done. Qed.

Lemma lift_ok_inv {A} (r : result A) (w : world G) a w' :
  lift r w = (Ok a, w') → r = Ok a ∧ w' = w.
Proof. intros H. apply lift_inv in H as [-> ->]. done. Qed.

Lemma alloc_inv (o : pyobj) (w : world G) a w' :
  alloc o w = (Ok a, w') →
  a = length (heap w) ∧
  w' = World (np_rng w) (tf_seed w) (heap w ++ [o]) (trace w).
Proof. unfold alloc. by inversion 1. Qed.

Lemma emit_inv (ev : event) (w : world G) u w' :
  emit ev w = (Ok u, w') → w' = logged w ev.
Proof. unfold emit. by inversion 1. Qed.

Lemma mret_inv {A} (a : A) (w : world G) a' w' :
  (mret a : M G A) w = (Ok a', w') → a' = a ∧ w' = w.
Proof. unfold mret, M_ret. by inversion 1. Qed.

Lemma np_random_normal_inv (loc scale : float) (n : Z) (w : world G) noise w' :
  np_random_normal loc scale n w = (Ok noise, w') →
  ∃ st, normal_from loc scale n (np_rng w) = (Ok noise, st) ∧
        w' = World st (tf_seed w) (heap w) (trace w ++ [Called "np.random.normal"]).
Proof.
  unfold np_random_normal. destruct (normal_from loc scale n (np_rng w)) as [r st].
  inversion 1; subst. eauto.
Qed.

End Inversion.

Ltac inv_prim H :=
  first
    [ apply mret_inv in H as [? ?]
    | apply call_ok_inv in H as [? ?]
    | apply lift_ok_inv in H as [? ?]
    | apply load_inv in H as [? ?]
    | apply alloc_inv in H as [? ?]
    | apply emit_inv in H
    | apply np_random_normal_inv in H as (? & ? & ?)
    | idtac ].

Ltac inv_bind H :=
  let a := fresh "a" in
  let w := fresh "w" in
  let S := fresh "Hstep" in
  apply bind_ok_inv in H as (a & w & S & H); inv_prim S.

Section HybridInversion.

Import NumPy Proc Spec SciPy.

Context `{G : Generator} (C : Hybrid.Collaborators).

Lemma gauss_draws_length (n : nat) (st : rng_state) :
  length (gauss_draws n st).1 = n.
Proof.
  revert st. induction n as [|k IH]; intros st; simpl; [done|].
  destruct (rng_gauss st) as [z st1]. specialize (IH st1).
  destruct (gauss_draws k st1) as [zs st2]. simpl in *. by rewrite IH.
Qed.

Lemma normal_from_length (loc scale : float) (n : Z) (st st' : rng_state) noise :
  normal_from loc scale n st = (Ok noise, st') → length noise = Z.to_nat n.
Proof.
  unfold normal_from. destruct (get_sign scale); [discriminate|].
  destruct (n <? 0)%Z; [discriminate|].
  pose proof (gauss_draws_length (Z.to_nat n) st) as L.
  destruct (gauss_draws (Z.to_nat n) st) as [zs st2]. inversion 1; subst.
  by rewrite length_map.
Qed.

Lemma setup_inv (opts : Hybrid.Opts) (w w1 : world G) (s : Hybrid.Setup) :
  Hybrid.setup C opts w = (Ok s, w1) →
  Hybrid.normalise (Hybrid.sine_sum (Hybrid.data_space_shape (Hybrid.data_model s)))
    = Ok (Hybrid.sine s) ∧
  heap w1 = heap w.
Proof.
  unfold Hybrid.setup. intros H.
  inv_bind H. apply seed_generators_heap in Hstep.
  repeat inv_bind H. inv_prim H. simplify_eq/=. auto.
Qed.

Lemma ground_truth_inv (opts : Hybrid.Opts) (w w1 : world G) (g : Hybrid.Truth) :
  Hybrid.ground_truth C opts w = (Ok g, w1) →
  ∃ w0 ctx_sine wm_size tpts clean,
    Hybrid.setup C opts w = (Ok (Hybrid.given g), w0) ∧
    interpn (Hybrid.grid_points (Hybrid.data_space_shape (Hybrid.data_model (Hybrid.given g))))
      (Hybrid.sine (Hybrid.given g)) (Hybrid.points (Hybrid.inflated (Hybrid.given g)))
      = Ok ctx_sine ∧
    Hybrid.ctx_cbf g = Hybrid.modulate (Hybrid.gm_cbf opts) (Hybrid.gm_cbf_var opts) ctx_sine ∧
    Hybrid.part_size (Hybrid.data_model (Hybrid.given g)) 1 = Ok wm_size ∧
    Hybrid.cbf g = Hybrid.composite (Hybrid.astype_float32 C) (Hybrid.ctx_cbf g)
                     (Hybrid.times_ones (Hybrid.wm_cbf opts) wm_size) ∧
    Hybrid.asl_evaluate C (Hybrid.cbf g) (Hybrid.att g) tpts = Ok clean ∧
    Hybrid.data g = length (heap w0) ∧
    heap w1 = (heap w0 ++ [Tensor clean])%list ∧
    trace w1 = (trace w0 ++ [Called "scipy.interpolate.interpn"; Called "AslRestModel";
                             Called "asl_model.tpts"; Called "asl_model.evaluate"])%list.
Proof.
  unfold Hybrid.ground_truth. intros H.
  repeat inv_bind H. inv_prim H. simplify_eq/=.
  eexists _, _, _, _, _. repeat split; eauto.
  by rewrite <- !app_assoc.
Qed.

End HybridInversion.

(** ** Interpolation on the voxel grid *)

Section Interpolation.

Import Np SciPy Spec.

Lemma arange_length (d : nat) : length (arange d) = d.
Proof. unfold arange. by rewrite length_map, length_seq. Qed.

Lemma arange_lookup (d i : nat) : (i < d)%nat → arange d !! i = Some (INR i).
Proof. intros H. unfold arange. by rewrite lookup_map, lookup_seq_lt. Qed.

Lemma item_Some {A} (l : list A) (i : Z) :
  (- Z.of_nat (length l) ≤ i < Z.of_nat (length l))%Z → is_Some (item l i).
Proof.
  intros H. unfold item.
  destruct (Z.ltb_spec i 0); [destruct (Z.ltb_spec (i + Z.of_nat (length l)) 0); [lia|]|];
    apply lookup_lt_is_Some; lia.
Qed.

Lemma item_first (d : nat) : (1 ≤ d)%nat → item (arange d) 0 = Some 0%R.
Proof. intros H. unfold item. simpl. by rewrite arange_lookup. Qed.

Lemma item_last (d : nat) : (1 ≤ d)%nat → item (arange d) (-1) = Some (INR d - 1)%R.
Proof.
  intros H. unfold item. rewrite arange_length. simpl.
  destruct (Z.ltb_spec (-1 + Z.of_nat d) 0); [lia|].
  rewrite arange_lookup by lia. f_equal.
  replace (Z.to_nat (-1 + Z.of_nat d)) with (d - 1)%nat by lia.
  rewrite minus_INR by lia. simpl. lra.
Qed.

Lemma within_arange (d : nat) (x : R) :
  (1 ≤ d)%nat → within (arange d) x = true ↔ (0 <= x <= INR d - 1)%R.
Proof.
  intros H. unfold within. rewrite item_first, item_last by done.
  rewrite andb_true_iff, !bool_decide_eq_true. tauto.
Qed.

(** The cell index is a valid position, also where it is -1. *)
Lemma find_index_range (d : nat) (x : R) :
  (1 ≤ d)%nat →
  let i := (find_index (arange d) x).1 in
  (- Z.of_nat d ≤ i < Z.of_nat d)%Z ∧ (- Z.of_nat d ≤ i + 1 < Z.of_nat d)%Z.
Proof.
  intros H. unfold find_index. rewrite arange_length. simpl.
  set (s := (Z.of_nat (searchsorted (arange d) x) - 1)%Z).
  destruct (Z.ltb_spec s 0).
  - destruct (Z.ltb_spec (Z.of_nat d - 2) 0); simpl; lia.
  - destruct (Z.ltb_spec (Z.of_nat d - 2) s); simpl; lia.
Qed.

Lemma item_elem_of {A} (l : list A) (i : Z) (x : A) : item l i = Some x → x ∈ l.
Proof.
  unfold item. destruct (_ <? _)%Z; [destruct (_ <? _)%Z; [done|]|];
    apply list_elem_of_lookup_2.
Qed.

Lemma item3_Some {A} (shape : nat * nat * nat) (a : array3 A) (i j k : Z) :
  shaped shape a →
  let '(d0, d1, d2) := shape in
  (- Z.of_nat d0 ≤ i < Z.of_nat d0)%Z →
  (- Z.of_nat d1 ≤ j < Z.of_nat d1)%Z →
  (- Z.of_nat d2 ≤ k < Z.of_nat d2)%Z →
  is_Some (item3 a i j k).
Proof.
  destruct shape as [[d0 d1] d2]. intros [L0 F] Hi Hj Hk. unfold item3.
  destruct (item_Some a i) as [plane Ep]; [lia|]. rewrite Ep. simpl.
  apply item_elem_of in Ep as Hp. rewrite Forall_forall in F.
  destruct (F plane Hp) as [L1 F1].
  destruct (item_Some plane j) as [row Er]; [lia|]. rewrite Er. simpl.
  apply item_elem_of in Er as Hr. rewrite Forall_forall in F1.
  apply item_Some. rewrite (F1 row Hr). lia.
Qed.

Lemma sequence_option_Some {A B} (f : A → option B) (l : list A) :
  (∀ x, x ∈ l → is_Some (f x)) → is_Some (sequence_option (map f l)).
Proof.
  induction l as [|a l IH]; intros H; simpl; [by eexists|].
  destruct (H a) as [b ->]; [left|].
  destruct IH as [bs ->]; [intros; apply H; by right|]. by eexists.
Qed.

Lemma evaluate_linear_total (shape : nat * nat * nat) (values : array3 val) (p : point) :
  nonempty shape → shaped shape values →
  ∃ v, evaluate_linear (Hybrid.grid_points shape) values p = Ok v.
Proof.
  destruct shape as [[d0 d1] d2], p as [[x y] z]. intros (H0 & H1 & H2) Hs.
  unfold evaluate_linear, Hybrid.grid_points.
  pose proof (find_index_range d0 x H0) as R0.
  pose proof (find_index_range d1 y H1) as R1.
  pose proof (find_index_range d2 z H2) as R2.
  destruct (find_index (arange d0) x) as [i0 y0].
  destruct (find_index (arange d1) y) as [i1 y1].
  destruct (find_index (arange d2) z) as [i2 y2]. simpl in R0, R1, R2.
  match goal with |- context [sequence_option (map ?f ?l)] =>
    destruct (sequence_option_Some f l) as [ts ->]; [|by eexists] end.
  intros [[b0 b1] b2] _. unfold corner.
  destruct (item3_Some (d0, d1, d2) values
              (if b0 then i0 + 1 else i0)%Z (if b1 then i1 + 1 else i1)%Z
              (if b2 then i2 + 1 else i2)%Z Hs) as [v Ev].
  { destruct b0; lia. } { destruct b1; lia. } { destruct b2; lia. }
  destruct b0, b1, b2; simpl in *; rewrite Ev; by eexists.
Qed.

Lemma map_result_Ok {A B} (f : A → result B) (l : list A) :
  (∀ x, x ∈ l → ∃ y, f x = Ok y) → ∃ ys, map_result f l = Ok ys.
Proof.
  induction l as [|a l IH]; intros H; simpl; [by eexists|].
  destruct (H a) as [b ->]; [left|].
  destruct IH as [bs ->]; [intros; apply H; by right|]. by eexists.
Qed.

Lemma map_result_inv {A B} (f : A → result B) (l : list A) (ys : list B) :
  map_result f l = Ok ys →
  length ys = length l ∧
  ∀ i x, l !! i = Some x → ∃ y, f x = Ok y ∧ ys !! i = Some y.
Proof.
  revert ys. induction l as [|a l IH]; intros ys; simpl.
  - inversion 1. split; [done|]. intros i x. by rewrite lookup_nil.
  - destruct (f a) as [b|e] eqn:Ea; [|discriminate].
    destruct (map_result f l) as [bs|e]; [|discriminate].
    inversion 1; subst. destruct (IH bs eq_refl) as [L Hl]. split; [simpl; lia|].
    intros [|i] x; simpl; [inversion 1; subst; eauto|]. apply Hl.
Qed.

End Interpolation.

Section Bounds.

Import Np SciPy Spec.

Lemma check_bounds_inside (shape : nat * nat * nat) (xi : list point) :
  nonempty shape → Forall (inside shape) xi →
  let '(g0, g1, g2) := Hybrid.grid_points shape in
  check_bounds 0 [g0; g1; g2] xi = Ok ().
Proof.
  destruct shape as [[d0 d1] d2]. intros (H0 & H1 & H2) Hin. simpl.
  assert (∀ d, (1 ≤ d)%nat → ∃ g gs, arange d = g :: gs) as Hcons.
  { intros [|d] ?; [lia|]. unfold arange. simpl. eauto. }
  assert (∀ axis d, (1 ≤ d)%nat →
            (∀ p, p ∈ xi → 0 <= coord axis p <= INR d - 1)%R →
            forallb (λ p, within (arange d) (coord axis p)) xi = true) as Hall.
  { intros axis d Hd Hp. apply forallb_forall. intros p Hp'.
    apply within_arange; [done|]. apply Hp. by apply list_elem_of_In. }
  rewrite Forall_forall in Hin.
  destruct (Hcons d0 H0) as (a0 & r0 & E0). rewrite E0, <- E0.
  rewrite (Hall 0%nat d0 H0) by (intros [[x y] z] Hp; apply (Hin _ Hp)).
  destruct (Hcons d1 H1) as (a1 & r1 & E1). rewrite E1, <- E1.
  rewrite (Hall 1%nat d1 H1) by (intros [[x y] z] Hp; apply (Hin _ Hp)).
  destruct (Hcons d2 H2) as (a2 & r2 & E2). rewrite E2, <- E2.
  rewrite (Hall 2%nat d2 H2) by (intros [[x y] z] Hp; apply (Hin _ Hp)).
  done.
Qed.

Lemma check_bounds_outside (shape : nat * nat * nat) (xi : list point) (p : point) :
  nonempty shape → p ∈ xi → outside shape p →
  let '(g0, g1, g2) := Hybrid.grid_points shape in
  ∃ axis, (axis < 3)%nat ∧ check_bounds 0 [g0; g1; g2] xi = Raise (out_of_bounds axis).
Proof.
  destruct shape as [[d0 d1] d2], p as [[x y] z]. intros (H0 & H1 & H2) Hp Hout. simpl.
  assert (∀ d, (1 ≤ d)%nat → ∃ g gs, arange d = g :: gs) as Hcons.
  { intros [|d] ?; [lia|]. unfold arange. simpl. eauto. }
  assert (∀ axis d, (1 ≤ d)%nat →
            (coord axis (x, y, z) < 0 ∨ INR d - 1 < coord axis (x, y, z))%R →
            forallb (λ p, within (arange d) (coord axis p)) xi = false) as Hfail.
  { intros axis d Hd Hc. apply not_true_is_false. intros Hall.
    rewrite forallb_forall in Hall. apply list_elem_of_In in Hp.
    specialize (Hall _ Hp). apply within_arange in Hall; [|done]. lra. }
  destruct (Hcons d0 H0) as (a0 & r0 & E0). rewrite E0, <- E0.
  destruct (forallb _ xi) eqn:F0.
  2: { exists 0%nat. split; [lia|done]. }
  destruct (Hcons d1 H1) as (a1 & r1 & E1). rewrite E1, <- E1.
  destruct (forallb (λ p, within (arange d1) _) xi) eqn:F1.
  2: { exists 1%nat. split; [lia|done]. }
  destruct (Hcons d2 H2) as (a2 & r2 & E2). rewrite E2, <- E2.
  destruct (forallb (λ p, within (arange d2) _) xi) eqn:F2.
  2: { exists 2%nat. split; [lia|done]. }
  exfalso. simpl in Hout.
  destruct Hout as [Hc|[Hc|[Hc|[Hc|[Hc|Hc]]]]].
  - rewrite (Hfail 0%nat d0 H0) in F0; [done|simpl; lra].
  - rewrite (Hfail 0%nat d0 H0) in F0; [done|simpl; lra].
  - rewrite (Hfail 1%nat d1 H1) in F1; [done|simpl; lra].
  - rewrite (Hfail 1%nat d1 H1) in F1; [done|simpl; lra].
  - rewrite (Hfail 2%nat d2 H2) in F2; [done|simpl; lra].
  - rewrite (Hfail 2%nat d2 H2) in F2; [done|simpl; lra].
Qed.

(** Out of bounds: [interpn] raises, whatever the field holds. *)
Lemma interpn_outside (shape : nat * nat * nat) (values : array3 val)
  (xi : list point) (p : point) :
  nonempty shape → p ∈ xi → outside shape p →
  ∃ axis, (axis < 3)%nat ∧
    interpn (Hybrid.grid_points shape) values xi = Raise (out_of_bounds axis).
Proof.
  intros Hn Hp Ho. pose proof (check_bounds_outside shape xi p Hn Hp Ho) as H.
  unfold interpn. destruct (Hybrid.grid_points shape) as [[g0 g1] g2].
  destruct H as (axis & Ha & ->). eauto.
Qed.

(** In bounds: [interpn] returns one value per point. *)
Lemma interpn_inside (shape : nat * nat * nat) (values : array3 val) (xi : list point) :
  nonempty shape → shaped shape values → Forall (inside shape) xi →
  ∃ ctx_sine, interpn (Hybrid.grid_points shape) values xi = Ok ctx_sine.
Proof.
  intros Hn Hs Hin. pose proof (check_bounds_inside shape xi Hn Hin) as H.
  unfold interpn. destruct (Hybrid.grid_points shape) as [[g0 g1] g2] eqn:Eg.
  rewrite H. apply map_result_Ok. intros p _. rewrite <- Eg.
  by apply evaluate_linear_total.
Qed.

Lemma interpn_inv (grids : list R * list R * list R) (values : array3 val)
  (xi : list point) (ctx_sine : list val) :
  interpn grids values xi = Ok ctx_sine →
  length ctx_sine = length xi ∧
  ∀ i p, xi !! i = Some p →
    ∃ s, evaluate_linear grids values p = Ok s ∧ ctx_sine !! i = Some s.
Proof.
  unfold interpn. destruct grids as [[g0 g1] g2].
  destruct (check_bounds 0 [g0; g1; g2] xi); [|discriminate].
  apply map_result_inv.
Qed.

End Bounds.

(** ** The sinusoid field and its normalisation *)

Section Field.

Import Np SciPy Spec.

Local Open Scope R_scope.

Lemma item_nat {A} (l : list A) (i : nat) : item l (Z.of_nat i) = l !! i.
Proof.
  unfold item. destruct (Z.ltb_spec (Z.of_nat i) 0); [lia|]. by rewrite Nat2Z.id.
Qed.

Lemma sine_sum_item (d0 d1 d2 i j k : nat) :
  (i < d0)%nat → (j < d1)%nat → (k < d2)%nat →
  item3 (Hybrid.sine_sum (d0, d1, d2)) (Z.of_nat i) (Z.of_nat j) (Z.of_nat k)
    = Some (wave i j k).
Proof.
  intros Hi Hj Hk. unfold item3, Hybrid.sine_sum.
  rewrite item_nat, lookup_map, lookup_seq_lt by done. simpl.
  rewrite item_nat, lookup_map, lookup_seq_lt by done. simpl.
  rewrite item_nat, lookup_map, lookup_seq_lt by done. done.
Qed.

Lemma sine_sum_elements (d0 d1 d2 : nat) (x : R) :
  In x (Hybrid.flatten3 (Hybrid.sine_sum (d0, d1, d2))) ↔
  ∃ i j k, (i < d0)%nat ∧ (j < d1)%nat ∧ (k < d2)%nat ∧ x = wave i j k.
Proof.
  unfold Hybrid.flatten3, Hybrid.sine_sum. split.
  - intros H. apply in_concat in H as (row & Hrow & Hx).
    apply in_concat in Hrow as (plane & Hplane & Hrow).
    apply in_map_iff in Hplane as (i & <- & Hi).
    apply in_map_iff in Hrow as (j & <- & Hj).
    apply in_map_iff in Hx as (k & <- & Hk).
    apply in_seq in Hi, Hj, Hk. exists i, j, k. repeat split; lia.
  - intros (i & j & k & Hi & Hj & Hk & ->).
    apply in_concat. eexists. split.
    + apply in_concat. eexists. split.
      * apply in_map_iff. exists i. split; [reflexivity|]. apply in_seq. lia.
      * apply in_map_iff. exists j. split; [reflexivity|]. apply in_seq. lia.
    + apply in_map_iff. exists k. split; [reflexivity|]. apply in_seq. lia.
Qed.

Lemma sine_sum_shaped (shape : nat * nat * nat) : shaped shape (Hybrid.sine_sum shape).
Proof.
  destruct shape as [[d0 d1] d2]. unfold shaped, Hybrid.sine_sum.
  rewrite length_map, length_seq. split; [done|].
  apply Forall_forall. intros plane Hp. apply list_elem_of_In, in_map_iff in Hp as (i & <- & _).
  rewrite length_map, length_seq. split; [done|].
  apply Forall_forall. intros row Hr. apply list_elem_of_In, in_map_iff in Hr as (j & <- & _).
  by rewrite length_map, length_seq.
Qed.

Lemma map3_shaped {A B} (f : A → B) (shape : nat * nat * nat) (a : array3 A) :
  shaped shape a → shaped shape (Hybrid.map3 f a).
Proof.
  destruct shape as [[d0 d1] d2]. unfold shaped, Hybrid.map3. intros [L F].
  rewrite length_map. split; [done|].
  rewrite Forall_forall in F. apply Forall_forall. intros plane Hp.
  apply list_elem_of_In, in_map_iff in Hp as (pl & <- & Hp).
  apply list_elem_of_In in Hp. destruct (F pl Hp) as [L1 F1].
  rewrite length_map. split; [done|].
  rewrite Forall_forall in F1. apply Forall_forall. intros row Hr.
  apply list_elem_of_In, in_map_iff in Hr as (r & <- & Hr).
  apply list_elem_of_In in Hr. by rewrite length_map, (F1 r Hr).
Qed.

Lemma flatten3_map3 {A B} (f : A → B) (a : array3 A) :
  Hybrid.flatten3 (Hybrid.map3 f a) = map f (Hybrid.flatten3 a).
Proof.
  unfold Hybrid.flatten3, Hybrid.map3. by rewrite !concat_map.
Qed.

(** *** The maximum *)

Lemma fold_Rmax_ge (l : list R) (x0 : R) :
  x0 <= fold_left Rmax l x0 ∧ ∀ y, In y l → y <= fold_left Rmax l x0.
Proof.
  revert x0. induction l as [|a l IH]; intros x0; simpl.
  - split; [lra|tauto].
  - destruct (IH (Rmax x0 a)) as [H1 H2]. split.
    + pose proof (Rmax_l x0 a). lra.
    + intros y [<-|Hy]; [|by apply H2]. pose proof (Rmax_r x0 a). lra.
Qed.

Lemma fold_Rmax_in (l : list R) (x0 : R) :
  fold_left Rmax l x0 = x0 ∨ In (fold_left Rmax l x0) l.
Proof.
  revert x0. induction l as [|a l IH]; intros x0; simpl; [by left|].
  destruct (IH (Rmax x0 a)) as [E|Hin]; [|by right; right].
  rewrite E. unfold Rmax. destruct (Rle_dec x0 a); [right|]; by left.
Qed.

Lemma max_spec (flat : list R) (m : R) :
  Np.max flat = Ok m → In m flat ∧ ∀ y, In y flat → y <= m.
Proof.
  destruct flat as [|x rest]; simpl; [discriminate|]. inversion 1; subst.
  destruct (fold_Rmax_ge rest x) as [H1 H2]. split.
  - destruct (fold_Rmax_in rest x) as [->|Hin]; [by left|by right].
  - intros y [<-|Hy]; [done|by apply H2].
Qed.

Lemma max_nonempty (flat : list R) (x : R) : In x flat → ∃ m, Np.max flat = Ok m.
Proof. destruct flat; [done|]. simpl. eauto. Qed.

Lemma normalise_inv (a : array3 R) (sine : array3 val) :
  Hybrid.normalise a = Ok sine →
  ∃ m, Np.max (Hybrid.flatten3 a) = Ok m ∧ sine = Hybrid.map3 (λ x, div x m) a.
Proof.
  unfold Hybrid.normalise. destruct (Np.max (Hybrid.flatten3 a)); [|discriminate].
  inversion 1. eauto.
Qed.

Lemma wave_origin : wave 0 0 0 = 0.
Proof. unfold wave. simpl. replace (0 / Hybrid.scale) with 0 by (unfold Hybrid.scale; lra). rewrite sin_0. lra. Qed.

Lemma nonempty_origin (shape : nat * nat * nat) :
  nonempty shape → In 0 (Hybrid.flatten3 (Hybrid.sine_sum shape)).
Proof.
  destruct shape as [[d0 d1] d2]. intros (H0 & H1 & H2).
  apply sine_sum_elements. exists 0%nat, 0%nat, 0%nat.
  rewrite wave_origin. repeat split; lia.
Qed.

Lemma normalise_nonempty (shape : nat * nat * nat) :
  nonempty shape →
  ∃ m, Np.max (Hybrid.flatten3 (Hybrid.sine_sum shape)) = Ok m ∧ 0 <= m ∧
       Hybrid.normalise (Hybrid.sine_sum shape)
         = Ok (Hybrid.map3 (λ x, div x m) (Hybrid.sine_sum shape)).
Proof.
  intros Hn. pose proof (nonempty_origin shape Hn) as H0.
  destruct (max_nonempty _ _ H0) as [m Em]. exists m.
  destruct (max_spec _ _ Em) as [_ Hge]. unfold Hybrid.normalise. rewrite Em. auto.
Qed.

(** A successful normalisation means the volume has a voxel. *)
Lemma normalise_Ok_nonempty (shape : nat * nat * nat) (sine : array3 val) :
  Hybrid.normalise (Hybrid.sine_sum shape) = Ok sine →
  nonempty shape ∧ shaped shape sine.
Proof.
  intros H. apply normalise_inv in H as (m & Em & ->). split.
  - destruct (max_spec _ _ Em) as [Hin _]. destruct shape as [[d0 d1] d2].
    apply sine_sum_elements in Hin as (i & j & k & ? & ? & ? & _). simpl. lia.
  - apply map3_shaped, sine_sum_shaped.
Qed.

End Field.

(** ** Where the sinusoids are positive and negative *)

Section Trigonometry.

Local Open Scope R_scope.

Lemma PI_bounds : 3.14 < PI < 3.15.
Proof.
  pose proof (PI_2_3_7_ineq 1) as H.
  unfold sum_f_R0, tg_alt, PI_2_3_7_tg, Ratan_seq in H. simpl in H.
  replace (1 + 1 + 1) with 3 in H by ring.
  replace (3 + 1 + 1) with 5 in H by ring.
  replace (5 + 1 + 1) with 7 in H by ring.
  lra.
Qed.

Lemma sin_half_pos : 0 < sin (1 / 2).
Proof. pose proof PI_bounds. apply sin_gt_0; lra. Qed.

Lemma sin_shift (x : R) : sin x = sin (x - 2 * PI).
Proof.
  rewrite <- (sin_period (x - 2 * PI) 1). f_equal. simpl. lra.
Qed.

Lemma cos_shift_up (x : R) : cos x = cos (x + 2 * PI).
Proof.
  rewrite <- (cos_period x 1). f_equal. simpl. lra.
Qed.

(** Along an axis of at most 23 voxels no sinusoid value reaches the
    size of the one at index 22, which is [sin 11], just above -1. *)
Lemma sin_below_index_22 (t : R) :
  0 <= t <= 3 ∨ 4 <= t <= 15 ∨ 16 <= t <= 22 →
  sin (t / 2) + sin 11 < 0.
Proof.
  pose proof PI_bounds as HPI. intros Ht. rewrite form3.
  set (a := (t / 2 - 11) / 2). set (b := (t / 2 + 11) / 2).
  destruct Ht as [Ht|[Ht|Ht]].
  - assert (0 < cos a) as Ha.
    { rewrite cos_shift_up. apply cos_gt_0; unfold a; lra. }
    assert (sin b < 0) as Hb by (apply sin_lt_0; unfold b; lra).
    nra.
  - assert (cos a < 0) as Ha.
    { rewrite <- cos_neg. apply cos_lt_0; unfold a; lra. }
    assert (0 < sin b) as Hb.
    { rewrite sin_shift. apply sin_gt_0; unfold b; lra. }
    nra.
  - assert (0 < cos a) as Ha by (apply cos_gt_0; unfold a; lra).
    assert (sin b < 0) as Hb.
    { rewrite sin_shift. apply sin_lt_0; unfold b; lra. }
    nra.
Qed.

Lemma sin_index_below_22 (i : nat) :
  (i ≤ 22)%nat → sin (INR i / 2) + sin 11 < 0.
Proof.
  intros Hi. apply sin_below_index_22.
  assert (i ≤ 3 ∨ 4 ≤ i ≤ 15 ∨ 16 ≤ i ≤ 22)%nat as [H|[[H1 H2]|[H1 H2]]] by lia.
  - left. split; [apply pos_INR|]. apply le_INR in H. simpl in H. lra.
  - right; left. apply le_INR in H1, H2. simpl in H1, H2. lra.
  - right; right. apply le_INR in H1, H2. simpl in H1, H2. lra.
Qed.

End Trigonometry.

(** ** Range of the normalised field *)

Section Range.

Import Np SciPy Spec.

Local Open Scope R_scope.

Lemma div_positive (x m : R) : 0 < m → div x m = Fin (x / m).
Proof. intros H. unfold div. destruct (decide (m = 0)); [lra|done]. Qed.

Lemma div_le_one (x m : R) : 0 < m → x <= m → x / m <= 1.
Proof.
  intros Hm Hx. assert (0 < / m) by (by apply Rinv_0_lt_compat).
  assert (m * / m = 1) by (field; lra). unfold Rdiv. nra.
Qed.

Lemma div_lt_minus_one (x m : R) : 0 < m → x + m < 0 → x / m < -1.
Proof.
  intros Hm Hx. assert (0 < / m) by (by apply Rinv_0_lt_compat).
  assert (m * / m = 1) by (field; lra). unfold Rdiv. nra.
Qed.

Lemma map3_ext_in {A B} (f g : A → B) (a : array3 A) :
  (∀ x, f x = g x) → Hybrid.map3 f a = Hybrid.map3 g a.
Proof.
  intros H. unfold Hybrid.map3.
  apply map_ext. intros plane. apply map_ext. intros row. by apply map_ext.
Qed.

Lemma item_map {A B} (f : A → B) (l : list A) (i : Z) :
  item (map f l) i = f <$> item l i.
Proof.
  unfold item. rewrite length_map.
  destruct (_ <? _)%Z; [destruct (_ <? _)%Z; [done|]|]; apply lookup_map.
Qed.

Lemma item3_map3 {A B} (f : A → B) (a : array3 A) (i j k : Z) :
  item3 (Hybrid.map3 f a) i j k = f <$> item3 a i j k.
Proof.
  unfold item3, Hybrid.map3. rewrite item_map.
  destruct (item a i) as [plane|]; simpl; [|done]. rewrite item_map.
  destruct (item plane j) as [row|]; simpl; [|done]. apply item_map.
Qed.

Lemma nondegenerate_sin_half (shape : nat * nat * nat) :
  nondegenerate shape → In (sin (1 / 2)) (Hybrid.flatten3 (Hybrid.sine_sum shape)).
Proof.
  destruct shape as [[d0 d1] d2]. intros [(H0 & H1 & H2) Hd].
  apply sine_sum_elements.
  assert (0 / Hybrid.scale = 0) as Z0 by (unfold Hybrid.scale; lra).
  assert (INR 1 / Hybrid.scale = 1 / 2) as Z1 by (unfold Hybrid.scale; simpl; lra).
  destruct Hd as [Hd|[Hd|Hd]].
  - exists 1%nat, 0%nat, 0%nat. repeat split; try lia.
    unfold wave. change (INR 0) with 0. rewrite Z0, Z1, sin_0. lra.
  - exists 0%nat, 1%nat, 0%nat. repeat split; try lia.
    unfold wave. change (INR 0) with 0. rewrite Z0, Z1, sin_0. lra.
  - exists 0%nat, 0%nat, 1%nat. repeat split; try lia.
    unfold wave. change (INR 0) with 0. rewrite Z0, Z1, sin_0. lra.
Qed.

(** On a non-degenerate volume the maximum is positive and the division
    is an ordinary one. *)
Lemma normalise_nondegenerate (shape : nat * nat * nat) :
  nondegenerate shape →
  ∃ m, Np.max (Hybrid.flatten3 (Hybrid.sine_sum shape)) = Ok m ∧ 0 < m ∧
       Hybrid.normalise (Hybrid.sine_sum shape)
         = Ok (Hybrid.map3 (λ x, Fin (x / m)) (Hybrid.sine_sum shape)).
Proof.
  intros Hd. pose proof (nondegenerate_sin_half shape Hd) as Hin.
  destruct (max_nonempty _ _ Hin) as [m Em]. exists m.
  destruct (max_spec _ _ Em) as [_ Hge]. specialize (Hge _ Hin).
  pose proof sin_half_pos. assert (0 < m) as Hm by lra.
  repeat split; [done..|].
  unfold Hybrid.normalise. rewrite Em. f_equal.
  apply map3_ext_in. intros x. by apply div_positive.
Qed.

(** C3, as the code has it: on every non-degenerate volume shape the
    field is the sum of one sinusoid per axis with scale 2, it is divided
    by its maximum (not by its maximum absolute value), and every value
    of the result is a finite number that is at most 1, the bound being
    attained.  Nothing is promised from below. *)
Theorem normalised_field_at_most_one (shape : nat * nat * nat) :
  nondegenerate shape →
  ∃ m sine,
    Np.max (Hybrid.flatten3 (Hybrid.sine_sum shape)) = Ok m ∧ 0 < m ∧
    Hybrid.normalise (Hybrid.sine_sum shape) = Ok sine ∧
    sine = Hybrid.map3 (λ x, Fin (x / m)) (Hybrid.sine_sum shape) ∧
    (∀ i j k : nat,
       let '(d0, d1, d2) := shape in
       (i < d0)%nat → (j < d1)%nat → (k < d2)%nat →
       item3 (Hybrid.sine_sum shape) (Z.of_nat i) (Z.of_nat j) (Z.of_nat k)
         = Some (sin (INR j / 2) + sin (INR i / 2) + sin (INR k / 2))) ∧
    Forall (λ v, ∃ x, v = Fin x ∧ x <= 1) (Hybrid.flatten3 sine) ∧
    Fin 1 ∈ Hybrid.flatten3 sine.
Proof.
  intros Hd. destruct (normalise_nondegenerate shape Hd) as (m & Em & Hm & En).
  exists m, (Hybrid.map3 (λ x, Fin (x / m)) (Hybrid.sine_sum shape)).
  repeat split; [done..| | |].
  - intros i j k. destruct shape as [[d0 d1] d2]. apply sine_sum_item.
  - rewrite flatten3_map3. apply Forall_forall. intros v Hv.
    apply list_elem_of_In, in_map_iff in Hv as (x & <- & Hx).
    exists (x / m). split; [done|].
    destruct (max_spec _ _ Em) as [_ Hge]. specialize (Hge _ Hx).
    by apply div_le_one.
  - rewrite flatten3_map3. apply list_elem_of_In, in_map_iff.
    exists m. split; [f_equal; field; lra|]. by destruct (max_spec _ _ Em).
Qed.

Lemma normalised_field_at_most_one_2_1_1 :
  ∃ m sine,
    Np.max (Hybrid.flatten3 (Hybrid.sine_sum (2, 1, 1)%nat)) = Ok m ∧ 0 < m ∧
    Hybrid.normalise (Hybrid.sine_sum (2, 1, 1)%nat) = Ok sine ∧
    sine = Hybrid.map3 (λ x, Fin (x / m)) (Hybrid.sine_sum (2, 1, 1)%nat) ∧
    (∀ i j k : nat,
       (i < 2)%nat → (j < 1)%nat → (k < 1)%nat →
       item3 (Hybrid.sine_sum (2, 1, 1)%nat) (Z.of_nat i) (Z.of_nat j) (Z.of_nat k)
         = Some (sin (INR j / 2) + sin (INR i / 2) + sin (INR k / 2))) ∧
    Forall (λ v, ∃ x, v = Fin x ∧ x <= 1) (Hybrid.flatten3 sine) ∧
    Fin 1 ∈ Hybrid.flatten3 sine.
Proof.
  apply (normalised_field_at_most_one (2, 1, 1)%nat). simpl. lia.
Defined.

(** C3 as stated fails: on a 23 x 1 x 1 volume the entry at index 22
    of the normalised field lies below -1. *)
Lemma normalised_field_below_minus_one :
  ∃ sine x,
    Hybrid.normalise (Hybrid.sine_sum (23, 1, 1)%nat) = Ok sine ∧
    item3 sine 22 0 0 = Some (Fin x) ∧ x < -1.
Proof.
  destruct (normalise_nondegenerate (23, 1, 1)%nat) as (m & Em & Hm & En).
  { simpl. lia. }
  exists (Hybrid.map3 (λ x, Fin (x / m)) (Hybrid.sine_sum (23, 1, 1)%nat)), (sin 11 / m).
  split; [exact En|]. split.
  - rewrite item3_map3.
    change (item3 ?a 22 0 0) with (item3 a (Z.of_nat 22) (Z.of_nat 0) (Z.of_nat 0)).
    rewrite (sine_sum_item 23 1 1 22 0 0) by lia. simpl. do 2 f_equal.
    unfold wave, Hybrid.scale.
    replace (INR 22 / 2) with 11 by (simpl; lra).
    replace (INR 0 / 2) with 0 by (simpl; lra). rewrite sin_0. lra.
  - destruct (max_spec _ _ Em) as [Hin _].
    apply sine_sum_elements in Hin as (i & j & k & Hi & Hj & Hk & Ew).
    assert (j = 0 ∧ k = 0)%nat as [-> ->] by lia.
    assert (m = sin (INR i / 2)) as ->.
    { rewrite Ew. unfold wave, Hybrid.scale.
      replace (INR 0 / 2) with 0 by (simpl; lra). rewrite sin_0. lra. }
    pose proof (sin_index_below_22 i ltac:(lia)) as Hs.
    apply div_lt_minus_one; lra.
Qed.

End Range.

(** ** The constant field *)

Section Degenerate.

Import Np SciPy Spec.

Local Open Scope R_scope.

Lemma constant_shape (shape : nat * nat * nat) :
  nonempty shape → constant (Hybrid.sine_sum shape) → shape = (1, 1, 1)%nat.
Proof.
  intros Hn (c & _ & Hc).
  destruct (decide (shape = (1, 1, 1)%nat)) as [|Hne]; [done|exfalso].
  assert (nondegenerate shape) as Hd.
  { destruct shape as [[d0 d1] d2]. split; [done|]. simpl in Hn.
    destruct (decide (d0 = 1%nat)), (decide (d1 = 1%nat)), (decide (d2 = 1%nat));
      try lia. by subst. }
  rewrite Forall_forall in Hc.
  pose proof (Hc _ (proj2 (list_elem_of_In _ _) (nonempty_origin shape Hn))) as E0.
  pose proof (Hc _ (proj2 (list_elem_of_In _ _) (nondegenerate_sin_half shape Hd))) as E1.
  pose proof sin_half_pos. lra.
Qed.

Lemma sine_sum_single : Hybrid.sine_sum (1, 1, 1)%nat = [[[0]]].
Proof.
  unfold Hybrid.sine_sum. simpl. do 3 f_equal.
  replace (0 / Hybrid.scale) with 0 by (unfold Hybrid.scale; lra). rewrite sin_0. lra.
Qed.

Lemma normalise_single : Hybrid.normalise (Hybrid.sine_sum (1, 1, 1)%nat) = Ok [[[Nan]]].
Proof.
  rewrite sine_sum_single. unfold Hybrid.normalise. simpl. unfold div.
  destruct (decide (0 = 0)); [done|lra].
Qed.

Lemma single_constant : constant (Hybrid.sine_sum (1, 1, 1)%nat).
Proof. rewrite sine_sum_single. exists 0. split; [done|]. by repeat constructor. Qed.

Lemma item3_single {A} (x v : A) (i j k : Z) : item3 [[[x]]] i j k = Some v → v = x.
Proof.
  unfold item3. intros H.
  destruct (item [[[x]]] i) as [plane|] eqn:E0; [|done]. simpl in H.
  apply item_elem_of, list_elem_of_singleton in E0 as ->.
  destruct (item [[x]] j) as [row|] eqn:E1; [|done]. simpl in H.
  apply item_elem_of, list_elem_of_singleton in E1 as ->.
  by apply item_elem_of, list_elem_of_singleton in H.
Qed.

Lemma sequence_option_inv {A} (l : list (option A)) (ts : list A) :
  sequence_option l = Some ts → l = map Some ts.
Proof.
  revert ts. induction l as [|[a|] l IH]; intros ts; simpl; [by inversion 1| |done].
  destruct (sequence_option l) as [xs|]; [|done]. inversion 1; subst.
  simpl. f_equal. by apply IH.
Qed.

Lemma fold_add_nan (ts : list val) : fold_left add ts Nan = Nan.
Proof. induction ts as [|t ts IH]; simpl; [done|]. by destruct t. Qed.

(** Interpolating a field that holds only NaN gives NaN. *)
Lemma evaluate_linear_nan (grids : list R * list R * list R) (p : point) (s : val) :
  evaluate_linear grids [[[Nan]]] p = Ok s → s = Nan.
Proof.
  destruct grids as [[g0 g1] g2], p as [[x y] z]. unfold evaluate_linear.
  destruct (find_index g0 x) as [i0 y0], (find_index g1 y) as [i1 y1],
    (find_index g2 z) as [i2 y2].
  destruct (sequence_option _) as [ts|] eqn:E; [|discriminate].
  inversion 1; subst. apply sequence_option_inv in E.
  destruct ts as [|t ts]; [discriminate|]. simpl in E. injection E as E _.
  unfold corner in E. simpl in E.
  destruct (item3 [[[Nan]]] i0 i1 i2) as [v|] eqn:Ev; [|discriminate].
  apply item3_single in Ev as ->. simpl in E. injection E as <-.
  simpl. apply fold_add_nan.
Qed.

Lemma cortical_cbf_single (xi : list point) (base amp : R) (ctx : list val) :
  Hybrid.cortical_cbf (1, 1, 1)%nat xi base amp = Ok ctx →
  ctx = replicate (length xi) Nan.
Proof.
  unfold Hybrid.cortical_cbf. rewrite normalise_single.
  destruct (interpn _ _ xi) as [ctx_sine|] eqn:E; [|discriminate].
  inversion 1; subst. apply interpn_inv in E as [L Hs].
  symmetry. apply replicate_as_Forall. unfold Hybrid.modulate.
  rewrite length_map. split; [done|].
  apply Forall_forall. intros v Hv.
  apply list_elem_of_In, in_map_iff in Hv as (s & <- & Hin).
  apply list_elem_of_In, list_elem_of_lookup in Hin as [i Hi].
  destruct (lookup_lt_is_Some_2 xi i) as [p Hp].
  { rewrite <- L. by eapply lookup_lt_Some. }
  destruct (Hs i p Hp) as (s' & Es & Ei). rewrite Hi in Ei. injection Ei as <-.
  apply evaluate_linear_nan in Es as ->. done.
Qed.

Lemma cortical_cbf_total (shape : nat * nat * nat) (xi : list point) (base amp : R) :
  nonempty shape → Forall (inside shape) xi →
  ∃ ctx, Hybrid.cortical_cbf shape xi base amp = Ok ctx.
Proof.
  intros Hn Hin. unfold Hybrid.cortical_cbf.
  destruct (normalise_nonempty shape Hn) as (m & _ & _ & ->).
  destruct (interpn_inside shape (Hybrid.map3 (λ x, div x m) (Hybrid.sine_sum shape)) xi)
    as [ctx_sine ->]; [done| |done|by eexists].
  apply map3_shaped, sine_sum_shaped.
Qed.

(** C6, as the code has it: the sinusoid field is constant only on a
    1 x 1 x 1 volume, where it is zero; normalisation then divides zero
    by zero, the normalised field is NaN, and every cortical entry of
    the composite vector is (the float32 cast of) NaN instead of the
    base value. *)
Theorem constant_field_gives_nan (shape : nat * nat * nat) (xi : list point)
  (base amp : R) (cast : val → val) (wm : list val) :
  nonempty shape → constant (Hybrid.sine_sum shape) → Forall (inside shape) xi →
  shape = (1, 1, 1)%nat ∧
  Hybrid.normalise (Hybrid.sine_sum shape) = Ok [[[Nan]]] ∧
  Hybrid.cortical_cbf shape xi base amp = Ok (replicate (length xi) Nan) ∧
  Hybrid.composite cast (replicate (length xi) Nan) wm
    = (replicate (length xi) [cast Nan] ++ map (λ v, [cast v]) wm)%list.
Proof.
  intros Hn Hc Hin. pose proof (constant_shape shape Hn Hc) as ->.
  split; [done|]. split; [apply normalise_single|]. split.
  - destruct (cortical_cbf_total _ xi base amp Hn Hin) as [ctx E].
    by rewrite E, (cortical_cbf_single _ _ _ _ E).
  - unfold Hybrid.composite. rewrite map_app. f_equal.
    induction (length xi) as [|n IH]; simpl; [done|by rewrite IH].
Qed.

Lemma constant_field_gives_nan_at_origin :
  (1, 1, 1)%nat = (1, 1, 1)%nat ∧
  Hybrid.normalise (Hybrid.sine_sum (1, 1, 1)%nat) = Ok [[[Nan]]] ∧
  Hybrid.cortical_cbf (1, 1, 1)%nat [(0, 0, 0)] 60 60 = Ok [Nan] ∧
  Hybrid.composite (λ v, v) [Nan] [Fin 20] = [[Nan]; [Fin 20]].
Proof.
  apply (constant_field_gives_nan (1, 1, 1)%nat [(0, 0, 0)] 60 60 (λ v, v) [Fin 20]).
  - simpl. lia.
  - apply single_constant.
  - repeat constructor; simpl; lra.
Defined.

(** C6 as stated fails: on the one volume with a constant field the
    cortical entry is NaN, not the base value 60. *)
Lemma constant_field_misses_base :
  constant (Hybrid.sine_sum (1, 1, 1)%nat) ∧
  Hybrid.cortical_cbf (1, 1, 1)%nat [(0, 0, 0)] 60 60 = Ok [Nan] ∧
  Hybrid.composite (λ v, v) [Nan] [] = [[Nan]].
Proof.
  split; [apply single_constant|]. split; [|done].
  destruct (cortical_cbf_total (1, 1, 1)%nat [(0, 0, 0)] 60 60) as [ctx E].
  { simpl. lia. } { repeat constructor; simpl; lra. }
  by rewrite E, (cortical_cbf_single _ _ _ _ E).
Qed.

End Degenerate.

(** ** Running the sample collaborators *)

Section SampleRuns.

Import NumPy Proc Np SciPy Spec.

Lemma sample_setup (shape : nat * nat * nat) (vertices : list point)
  (wrap : list float → pyobj) (noise : float) (plot : bool) (e : Z) :
  nonempty shape →
  ∃ s,
    Hybrid.setup (Sample.hybrid shape vertices wrap)
      (Sample.hybrid_opts noise plot) (Sample.fresh e)
      = (Ok s, Sample.world_at e []
                 ["vaby.DataModel"; "import toblerone"; "Surface"; "Surface.transform"]) ∧
    Hybrid.data_model s
      = {| Hybrid.data_space_shape := shape;
           Hybrid.parts_size := [length vertices; 2%nat] |} ∧
    Hybrid.points (Hybrid.inflated s) = vertices.
Proof.
  intros Hn. destruct (normalise_nonempty shape Hn) as (m & _ & _ & En).
  unfold Hybrid.setup, mbind, M_bind, call, emit, lift, mret, M_ret. simpl.
  unfold mbind, M_bind. simpl. rewrite En. simpl.
  eexists. split; [reflexivity|]. done.
Qed.

Lemma sample_ground_truth (shape : nat * nat * nat) (vertices : list point)
  (wrap : list float → pyobj) (noise : float) (plot : bool) (e : Z) :
  nonempty shape → Forall (inside shape) vertices →
  ∃ g,
    Hybrid.ground_truth (Sample.hybrid shape vertices wrap)
      (Sample.hybrid_opts noise plot) (Sample.fresh e)
      = (Ok g, Sample.world_at e [Tensor [10; 20]%float]
                 ["vaby.DataModel"; "import toblerone"; "Surface"; "Surface.transform";
                  "scipy.interpolate.interpn"; "AslRestModel"; "asl_model.tpts";
                  "asl_model.evaluate"]) ∧
    Hybrid.data_model (Hybrid.given g)
      = {| Hybrid.data_space_shape := shape;
           Hybrid.parts_size := [length vertices; 2%nat] |} ∧
    Hybrid.points (Hybrid.inflated (Hybrid.given g)) = vertices ∧
    Hybrid.data g = 0%nat.
Proof.
  intros Hn Hin.
  destruct (sample_setup shape vertices wrap noise plot e Hn) as (s & Es & Edm & Ev).
  pose proof (setup_inv _ _ _ _ _ Es) as [En Hh].
  rewrite Edm in En. simpl in En.
  destruct (normalise_Ok_nonempty _ _ En) as [_ Hs].
  destruct (interpn_inside _ (Hybrid.sine s) vertices Hn Hs Hin) as [ctx_sine Ei].
  unfold Hybrid.ground_truth. rewrite (bind_ok _ _ _ _ _ Es).
  rewrite Edm, Ev. simpl. rewrite Ei.
  unfold mbind, M_bind, call, emit, lift, alloc, mret, M_ret. simpl.
  unfold mbind, M_bind. simpl.
  eexists. split; [reflexivity|]. simpl. by rewrite Edm.
Qed.

End SampleRuns.

(** ** The ASL driver: bounds and the composite parameter vector *)

Section HybridDriver.

Import NumPy Proc Np SciPy Spec.

Context `{G : Generator} (C : Hybrid.Collaborators).

(** C7: when a cortical vertex lies outside the bounding box of the
    volume, [interpn] raises its out-of-bounds [ValueError] instead of
    returning a value, nothing in the script catches it, and the run
    stops there: the call to [interpn] is the last thing it did. *)
Theorem out_of_bounds_aborts (opts : Hybrid.Opts) (w w0 : world G)
  (s : Hybrid.Setup) (p : point) :
  Hybrid.setup C opts w = (Ok s, w0) →
  p ∈ Hybrid.points (Hybrid.inflated s) →
  outside (Hybrid.data_space_shape (Hybrid.data_model s)) p →
  ∃ axis, (axis < 3)%nat ∧
    interpn (Hybrid.grid_points (Hybrid.data_space_shape (Hybrid.data_model s)))
      (Hybrid.sine s) (Hybrid.points (Hybrid.inflated s))
      = Raise (out_of_bounds axis) ∧
    Hybrid.main C opts w
      = (Raise (out_of_bounds axis), logged w0 (Called "scipy.interpolate.interpn")).
Proof.
  intros Es Hp Ho. pose proof (setup_inv _ _ _ _ _ Es) as [En _].
  destruct (normalise_Ok_nonempty _ _ En) as [Hn _].
  destruct (interpn_outside _ (Hybrid.sine s) _ p Hn Hp Ho) as (axis & Ha & Ei).
  exists axis. split; [done|]. split; [done|].
  unfold Hybrid.main, Hybrid.simulate. do 2 apply bind_raise.
  unfold Hybrid.ground_truth. rewrite (bind_ok _ _ _ _ _ Es).
  apply bind_raise. by rewrite call_eq, Ei.
Qed.

(** C5: the cortical value at every vertex is the base value plus the
    variation amplitude times the normalised field interpolated at the
    vertex; the composite vector is the (float32, one-column) cortical
    vector followed by the white-matter vector, and has one entry per
    cortical vertex plus one per white-matter node.  The cortical values
    exist whenever the volume has a voxel and the vertices are inside
    it. *)
Theorem composite_parameter_vector (opts : Hybrid.Opts) (w w1 : world G)
  (g : Hybrid.Truth) :
  Hybrid.ground_truth C opts w = (Ok g, w1) →
  let s := Hybrid.given g in
  let shape := Hybrid.data_space_shape (Hybrid.data_model s) in
  let xi := Hybrid.points (Hybrid.inflated s) in
  let cast := Hybrid.astype_float32 C in
  ∃ wm_size,
    Hybrid.normalise (Hybrid.sine_sum shape) = Ok (Hybrid.sine s) ∧
    Hybrid.cortical_cbf shape xi (Hybrid.gm_cbf opts) (Hybrid.gm_cbf_var opts)
      = Ok (Hybrid.ctx_cbf g) ∧
    length (Hybrid.ctx_cbf g) = length xi ∧
    (∀ i p, xi !! i = Some p →
       ∃ f, evaluate_linear (Hybrid.grid_points shape) (Hybrid.sine s) p = Ok f ∧
            Hybrid.ctx_cbf g !! i
              = Some (add (Fin (Hybrid.gm_cbf opts)) (mul (Fin (Hybrid.gm_cbf_var opts)) f))) ∧
    Hybrid.part_size (Hybrid.data_model s) 1 = Ok wm_size ∧
    Hybrid.cbf g
      = (map (λ v, [cast v]) (Hybrid.ctx_cbf g)
         ++ map (λ v, [cast v]) (Hybrid.times_ones (Hybrid.wm_cbf opts) wm_size))%list ∧
    length (Hybrid.cbf g) = (length xi + wm_size)%nat ∧
    (∀ shape' xi' base amp,
       nonempty shape' → Forall (inside shape') xi' →
       ∃ ctx, Hybrid.cortical_cbf shape' xi' base amp = Ok ctx).
Proof.
  intros Hg. simpl.
  apply ground_truth_inv in Hg
    as (w0 & ctx_sine & wm_size & tpts & clean & Es & Ei & Ec & Ep & Eb & _).
  pose proof (setup_inv _ _ _ _ _ Es) as [En _].
  pose proof (interpn_inv _ _ _ _ Ei) as [L Hl].
  assert (length (Hybrid.ctx_cbf g) = length (Hybrid.points (Hybrid.inflated (Hybrid.given g))))
    as Lc by (by rewrite Ec; unfold Hybrid.modulate; rewrite length_map).
  exists wm_size. repeat split; try done.
  - unfold Hybrid.cortical_cbf. by rewrite En, Ei, Ec.
  - intros i p Hp. destruct (Hl i p Hp) as (f & Ef & Hf). exists f. split; [done|].
    rewrite Ec. unfold Hybrid.modulate. by rewrite lookup_map, Hf.
  - rewrite Eb. unfold Hybrid.composite. by rewrite map_app.
  - rewrite Eb. unfold Hybrid.composite, Hybrid.times_ones.
    by rewrite length_map, length_app, length_replicate, Lc.
  - intros shape' xi' base amp. apply cortical_cbf_total.
Qed.

End HybridDriver.

Section HybridDriverSamples.

Import NumPy Proc Np SciPy Spec.

Local Open Scope R_scope.

Lemma out_of_bounds_aborts_sample :
  ∃ axis w,
    (axis < 3)%nat ∧
    Hybrid.main (Sample.hybrid (2, 1, 1)%nat [(5, 0, 0)] Ndarray)
      (Sample.hybrid_opts 5 false) (Sample.fresh 0)
      = (Raise (out_of_bounds axis), w).
Proof.
  destruct (sample_setup (2, 1, 1)%nat [(5, 0, 0)] Ndarray 5%float false 0)
    as (s & Es & Edm & Ev); [simpl; lia|].
  destruct (out_of_bounds_aborts _ _ _ _ s (5, 0, 0) Es) as (axis & Ha & _ & Em).
  - rewrite Ev. by left.
  - rewrite Edm. simpl. lra.
  - eauto.
Defined.

Lemma composite_parameter_vector_sample :
  ∃ g, length (Hybrid.ctx_cbf g) = 2%nat ∧ length (Hybrid.cbf g) = 4%nat ∧
       Hybrid.cortical_cbf (2, 1, 1)%nat [(0, 0, 0); (1, 0, 0)] 60 60
         = Ok (Hybrid.ctx_cbf g).
Proof.
  destruct (sample_ground_truth (2, 1, 1)%nat [(0, 0, 0); (1, 0, 0)] Ndarray 5%float false 0)
    as (g & Eg & Edm & Ev & _); [simpl; lia|repeat constructor; simpl; lra|].
  destruct (composite_parameter_vector _ _ _ _ g Eg)
    as (wm_size & _ & Ec & Lc & _ & Ep & _ & Lb & _).
  rewrite Edm, Ev in *. simpl in *.
  exists g. split; [done|]. split; [|done].
  rewrite Lb. by injection Ep as <-.
Defined.

End HybridDriverSamples.

(** ** Noise level zero *)

Section NoiseLevelZero.

Import NumPy Proc Np SciPy Spec.

Context `{G : Generator}.

Lemma seed_generators_trace (rseed : option Z) (w : world G) r w' :
  seed_generators rseed w = (r, w') →
  ∀ ev, ev ∈ trace w' →
    ev ∈ trace w ∨ ev = Called "np.random.seed" ∨ ev = Called "tf.random.set_seed".
Proof.
  unfold seed_generators. destruct (truthy_int rseed), rseed as [s|];
    try (inversion 1; subst; tauto).
  unfold mbind, M_bind, np_random_seed, tf_random_set_seed.
  destruct (seed_in_range s); simpl; inversion 1; subst; simpl; intros ev;
    rewrite ?elem_of_app, ?list_elem_of_singleton; tauto.
Qed.

Lemma ground_truth_last_call (C : Hybrid.Collaborators) (opts : Hybrid.Opts)
  (w w1 : world G) (g : Hybrid.Truth) :
  Hybrid.ground_truth C opts w = (Ok g, w1) →
  last (trace w1) = Some (Called "asl_model.evaluate").
Proof.
  intros H. apply ground_truth_inv in H as (w0 & ? & ? & ? & ? & _ & _ & _ & _ & _ & _ & _ & _ & ->).
  by rewrite last_app.
Qed.

(** C10, as the code has it: both drivers divide 1 by the squared noise
    level without a guard.  With noise level zero the biexponential
    driver raises [ZeroDivisionError] right after seeding, before it
    prints, creates an array or evaluates the model; the ASL driver
    raises it only after the clean model signal has been evaluated, and
    before the acquisition-space volume is built or noise is drawn.  The
    division raises exactly when the binary64 square of the noise level
    is zero. *)
Theorem unguarded_precision_division
  (Cb : Biexp.Collaborators) (Ch : Hybrid.Collaborators)
  (ob : Biexp.Opts) (oh : Hybrid.Opts) (wb wb1 wh wh1 : world G) (g : Hybrid.Truth) :
  (Biexp.noise ob =? 0)%float = true →
  (Hybrid.noise oh =? 0)%float = true →
  seed_generators (Biexp.rseed ob) wb = (Ok (), wb1) →
  Hybrid.ground_truth Ch oh wh = (Ok g, wh1) →
  Biexp.main Cb ob wb = (Raise ZeroDivisionError, wb1) ∧
  heap wb1 = heap wb ∧
  (∀ ev, ev ∈ trace wb1 →
     ev ∈ trace wb ∨ ev = Called "np.random.seed" ∨ ev = Called "tf.random.set_seed") ∧
  Hybrid.main Ch oh wh = (Raise ZeroDivisionError, wh1) ∧
  last (trace wh1) = Some (Called "asl_model.evaluate") ∧
  (∀ std, noise_precision std = Raise ZeroDivisionError ↔ (std * std =? 0)%float = true).
Proof.
  intros Hb Hh Hs Hg. repeat split.
  - unfold Biexp.main. apply bind_raise. by apply biexp_zero_noise.
  - by eapply seed_generators_heap.
  - by eapply seed_generators_trace.
  - unfold Hybrid.main. apply bind_raise. by eapply hybrid_zero_noise.
  - by eapply ground_truth_last_call.
  - apply precision_division_by_zero.
  - apply precision_division_by_zero.
Qed.

(** C2, as the code has it: the noise-injection expression of the
    biexponential driver, given noise level zero, a clean trace of [nt]
    samples and a generator with finite draws, returns the clean samples
    (a clean [-0.0] comes back as [0.0]); but neither driver gets that
    far with noise level zero: the biexponential driver stops with
    [ZeroDivisionError] after seeding, and so does the ASL driver's
    injection step. *)
Theorem zero_noise_step_and_drivers
  (Cb : Biexp.Collaborators) (Ch : Hybrid.Collaborators) (ob : Biexp.Opts)
  (clean : list float) (nt : Z) (w wb1 : world G) :
  finite_draws G →
  (0 ≤ nt)%Z → length clean = Z.to_nat nt →
  (Biexp.noise ob =? 0)%float = true →
  seed_generators (Biexp.rseed ob) w = (Ok (), wb1) →
  (∃ noisy w', Biexp.inject_noise clean 0 nt w = (Ok noisy, w') ∧
               Forall2 same_sample clean noisy) ∧
  Biexp.main Cb ob w = (Raise ZeroDivisionError, wb1) ∧
  (∀ std dm data wh,
     (std =? 0)%float = true →
     Hybrid.inject_noise Ch dm data std wh = (Raise ZeroDivisionError, wh)).
Proof.
  intros Hfin Hnt Hlen Hstd Hs. split; [|split].
  - assert (∀ n st, Forall (λ x, x = 0%float)
              (map (λ z, 0 + 0 * z)%float (gauss_draws n st).1)) as Hzero.
    { induction n as [|n IH]; intros st; simpl; [constructor|].
      destruct (Hfin st) as [Hnan Hinf]. destruct (rng_gauss st) as [z st1]. simpl in *.
      specialize (IH st1). destruct (gauss_draws n st1) as [zs st2]. simpl in *.
      constructor; [|done]. by apply zero_times_finite. }
    unfold Biexp.inject_noise, mbind, M_bind, np_random_normal, normal_from, lift, NumPy.add.
    change (get_sign 0) with false. cbv iota.
    destruct (Z.ltb_spec nt 0) as [|_]; [lia|].
    pose proof (gauss_draws_length (Z.to_nat nt) (np_rng w)) as L.
    specialize (Hzero (Z.to_nat nt) (np_rng w)).
    destruct (gauss_draws (Z.to_nat nt) (np_rng w)) as [zs st]. simpl in *.
    rewrite length_map, L, Hlen, Nat.eqb_refl.
    eexists _, _. split; [reflexivity|].
    rewrite <- Hlen in L. clear -L Hzero. revert zs L Hzero.
    induction clean as [|c clean IH]; intros [|z zs] L Hzero; simpl in *; try lia.
    { constructor. }
    inversion Hzero as [|? ? Hz0 Hrest]; subst. rewrite Hz0. constructor.
    + destruct (plus_zero c) as [E|[E1 E2]]; [by left|by right].
    + apply IH; [lia|done].
  - unfold Biexp.main. apply bind_raise. by apply biexp_zero_noise.
  - intros std dm data wh Hz. by apply hybrid_injector_zero_noise.
Qed.

End NoiseLevelZero.

Section NoiseLevelZeroSamples.

Import NumPy Proc Np SciPy Spec.

Local Open Scope R_scope.

Lemma two_valued_finite : finite_draws Sample.two_valued.
Proof. intros st. simpl. destruct (Z.even st); split; reflexivity. Qed.

Lemma unguarded_precision_division_sample :
  ∃ w,
    Biexp.main (Sample.biexp []) (Sample.biexp_opts 0 None false) (Sample.fresh 0)
      = (Raise ZeroDivisionError, Sample.fresh 0) ∧
    Hybrid.main (Sample.hybrid (2, 1, 1)%nat [(0, 0, 0)] Ndarray)
      (Sample.hybrid_opts 0 false) (Sample.fresh 0)
      = (Raise ZeroDivisionError, w) ∧
    last (trace w) = Some (Called "asl_model.evaluate").
Proof.
  destruct (sample_ground_truth (2, 1, 1)%nat [(0, 0, 0)] Ndarray 0%float false 0)
    as (g & Eg & _); [simpl; lia|repeat constructor; simpl; lra|].
  destruct (unguarded_precision_division (Sample.biexp [])
              (Sample.hybrid (2, 1, 1)%nat [(0, 0, 0)] Ndarray)
              (Sample.biexp_opts 0 None false) (Sample.hybrid_opts 0 false)
              (Sample.fresh 0) (Sample.fresh 0) _ _ g eq_refl eq_refl eq_refl Eg)
    as (Hb & _ & _ & Hh & Hl & _).
  eauto.
Defined.

(** C10 as stated fails twice: the ASL driver has already evaluated the
    clean signal when the division raises, and a positive noise level
    whose square underflows, here 2^-600, raises as well. *)
Lemma asl_driver_evaluates_before_dividing :
  ∃ g w,
    Hybrid.ground_truth (Sample.hybrid (2, 1, 1)%nat [(0, 0, 0)] Ndarray)
      (Sample.hybrid_opts 0 false) (Sample.fresh 0) = (Ok g, w) ∧
    Hybrid.main (Sample.hybrid (2, 1, 1)%nat [(0, 0, 0)] Ndarray)
      (Sample.hybrid_opts 0 false) (Sample.fresh 0)
      = (Raise ZeroDivisionError, w) ∧
    Called "asl_model.evaluate" ∈ trace w ∧
    (0 <? 0x1p-600)%float = true ∧
    noise_precision 0x1p-600%float = Raise ZeroDivisionError.
Proof.
  destruct (sample_ground_truth (2, 1, 1)%nat [(0, 0, 0)] Ndarray 0%float false 0)
    as (g & Eg & _); [simpl; lia|repeat constructor; simpl; lra|].
  eexists g, _. split; [exact Eg|]. split; [|split; [|split]].
  - unfold Hybrid.main. apply bind_raise. by eapply hybrid_zero_noise.
  - unfold Sample.world_at. simpl. set_solver.
  - reflexivity.
  - reflexivity.
Qed.

Lemma zero_noise_step_and_drivers_sample :
  (∃ noisy w', Biexp.inject_noise [84; 83.25]%float 0 2 (Sample.fresh 0) = (Ok noisy, w') ∧
               Forall2 same_sample [84; 83.25]%float noisy) ∧
  Biexp.main (Sample.biexp []) (Sample.biexp_opts 0 None false) (Sample.fresh 0)
    = (Raise ZeroDivisionError, Sample.fresh 0).
Proof.
  destruct (zero_noise_step_and_drivers (G := Sample.two_valued) (Sample.biexp [])
              (Sample.hybrid (2, 1, 1)%nat [(0, 0, 0)] Ndarray)
              (Sample.biexp_opts 0 None false) [84; 83.25]%float 2
              (Sample.fresh 0) (Sample.fresh 0)
              two_valued_finite ltac:(lia) eq_refl eq_refl eq_refl)
    as (Hstep & Hmain & _).
  split; assumption.
Defined.

(** C2 as stated fails: with noise level zero the biexponential driver
    returns no noisy trace at all, it raises [ZeroDivisionError] before
    the clean trace exists; the ASL driver's injection step does the
    same. *)
Lemma zero_noise_raises :
  Biexp.main (Sample.biexp []) (Sample.biexp_opts 0 None false) (Sample.fresh 0)
    = (Raise ZeroDivisionError, Sample.fresh 0) ∧
  Hybrid.inject_noise (Sample.hybrid (2, 1, 1)%nat [(0, 0, 0)] Ndarray)
      {| Hybrid.data_space_shape := (2, 1, 1)%nat; Hybrid.parts_size := [1; 2]%nat |}
      0%nat 0%float (Sample.world_at 0 [Tensor [10; 20]%float] [])
    = (Raise ZeroDivisionError, Sample.world_at 0 [Tensor [10; 20]%float] []).
Proof. split; reflexivity. Qed.

End NoiseLevelZeroSamples.

(** ** What noise injection does to the arrays *)

Section Frame.

Import NumPy Proc Np SciPy Spec.

Context `{G : Generator}.

Lemma keeps_bind {A B} (m : M G A) (k : A → M G B) :
  keeps_heap m → (∀ a, keeps_heap (k a)) → keeps_heap (m ≫= k).
Proof.
  intros Hm Hk w r w' H. apply bind_inv in H as [(a & w1 & H1 & H2)|(e & H1 & _)].
  - rewrite (Hk a _ _ _ H2). by eapply Hm.
  - by eapply Hm.
Qed.

Lemma keeps_call {A} (callee : string) (r : result A) : keeps_heap (call (G := G) callee r).
Proof. intros w r' w' H. by apply call_inv in H as [_ ->]. Qed.

Lemma keeps_lift {A} (r : result A) : keeps_heap (lift (G := G) r).
Proof. intros w r' w' H. by apply lift_inv in H as [_ ->]. Qed.

Lemma keeps_load (a : addr) : keeps_heap (load (G := G) a).
Proof. intros w r w'. unfold load. destruct (heap w !! a); by inversion 1. Qed.

Lemma keeps_mret {A} (a : A) : keeps_heap (mret a : M G A).
Proof. intros w r w'. unfold mret, M_ret. by inversion 1. Qed.

Lemma keeps_raise {A} (e : exn) : keeps_heap (raise e : M G A).
Proof. intros w r w'. unfold raise. by inversion 1. Qed.

End Frame.

Ltac keeps_heap :=
  repeat first
    [ apply keeps_call | apply keeps_lift | apply keeps_load
    | apply keeps_mret | apply keeps_raise
    | apply keeps_bind; [|intros ?]
    | match goal with
      | |- Spec.keeps_heap (if ?b then _ else _) => destruct b
      | |- Spec.keeps_heap (match ?x with _ => _ end) => destruct x
      end ].

Section BiexpFrame.

Import NumPy Proc Np SciPy Spec.

Context `{G : Generator} (C : Biexp.Collaborators).

Lemma biexp_infer_keeps (opts : Biexp.Opts) (v : Biexp.Vars) :
  keeps_heap (Biexp.infer C opts v).
Proof. unfold Biexp.infer. keeps_heap. Qed.

Lemma biexp_fabber_keeps (opts : Biexp.Opts) (v : Biexp.Vars) :
  keeps_heap (Biexp.fabber_comparison C opts v).
Proof. unfold Biexp.fabber_comparison. keeps_heap. Qed.

Lemma biexp_plots_keep (opts : Biexp.Opts) (v : Biexp.Vars) (state : Biexp.run_state)
  (fit : option (list float)) :
  keeps_heap (Biexp.show_plots C opts v state fit).
Proof. unfold Biexp.show_plots, Biexp.plt. keeps_heap. Qed.

Lemma add_length (a b r : list float) :
  NumPy.add a b = Ok r →
  length r = length a ∨ (length a = 1%nat ∧ length r = length b).
Proof.
  unfold NumPy.add. destruct (Nat.eqb_spec (length a) (length b)) as [E|_].
  - inversion 1. left. rewrite length_zip_with. lia.
  - destruct a as [|x [|y a]], b as [|u [|v b]]; inversion 1; subst;
      simpl; rewrite ?length_map; first [by left | by right].
Qed.

(** Lines 43-46 read backwards: three new arrays, in this order. *)
Lemma biexp_simulate_inv (opts : Biexp.Opts) (w w1 : world G) (v : Biexp.Vars) :
  Biexp.simulate C opts w = (Ok v, w1) →
  ∃ clean noise noisy,
    Biexp.biexp_evaluate C (Biexp.dt opts)
      [Biexp.amp1 opts; Biexp.rate1 opts; Biexp.amp2 opts; Biexp.rate2 opts]
      (Biexp.time_grid (Biexp.dt opts) (Biexp.nt opts)) = Ok clean ∧
    length noise = Z.to_nat (Biexp.nt opts) ∧
    NumPy.add clean noise = Ok noisy ∧
    Biexp.t v = length (heap w) ∧
    Biexp.DATA_CLEAN v = S (length (heap w)) ∧
    Biexp.DATA_NOISY v = S (S (length (heap w))) ∧
    heap w1 = (heap w ++ [Ndarray (Biexp.time_grid (Biexp.dt opts) (Biexp.nt opts));
                          Ndarray clean; Ndarray noisy])%list.
Proof.
  unfold Biexp.simulate, Biexp.inject_noise. intros H.
  inv_bind H. apply seed_generators_heap in Hstep.
  repeat inv_bind H. inv_prim H. simplify_eq/=.
  repeat match goal with
         | H : (_ ≫= _) _ = (Ok _, _) |- _ => inv_bind H
         end.
  repeat match goal with
         | H : (_ ++ [_])%list !! _ = Some _ |- _ =>
             rewrite list_lookup_middle in H by done
         | H : lift _ _ = (Ok _, _) |- _ => apply lift_ok_inv in H as [? ?]
         end.
  simplify_eq/=.
  match goal with H : normal_from _ _ _ _ = _ |- _ => apply normal_from_length in H end.
  eexists _, _, _. repeat split; try eassumption.
  - by rewrite Hstep.
  - rewrite length_app, Hstep. simpl. lia.
  - rewrite !length_app, Hstep. simpl. lia.
  - by rewrite Hstep, <- !app_assoc.
Qed.

(** The whole biexponential script leaves the three arrays as the
    simulation made them. *)
Lemma biexp_main_inv (opts : Biexp.Opts) (w w' : world G) (v : Biexp.Vars) :
  Biexp.main C opts w = (Ok v, w') →
  ∃ w1, Biexp.simulate C opts w = (Ok v, w1) ∧ heap w' = heap w1.
Proof.
  unfold Biexp.main. intros H.
  apply bind_ok_inv in H as (v1 & w1 & Hsim & H).
  apply bind_ok_inv in H as ([rt st] & w2 & Hinf & H).
  apply bind_ok_inv in H as (fit & w3 & Hfab & H).
  apply bind_ok_inv in H as (u & w4 & Hplot & H).
  apply mret_inv in H as [-> ->].
  exists w1. split; [done|].
  rewrite (biexp_plots_keep _ _ _ _ _ _ _ Hplot), (biexp_fabber_keeps _ _ _ _ _ Hfab).
  by rewrite (biexp_infer_keeps _ _ _ _ _ Hinf).
Qed.

End BiexpFrame.

Section HybridFrame.

Import NumPy Proc Np SciPy Spec.

Context `{G : Generator} (C : Hybrid.Collaborators).

Lemma iadd_same_length (a b r : list float) :
  length b = length a → NumPy.iadd a b = Ok r → r = zip_with PrimFloat.add a b.
Proof. intros L. unfold NumPy.iadd. rewrite L, Nat.eqb_refl. by inversion 1. Qed.

Lemma add_same_length (a b r : list float) :
  length b = length a → NumPy.add a b = Ok r → r = zip_with PrimFloat.add a b.
Proof. intros L. unfold NumPy.add. rewrite L, Nat.eqb_refl. by inversion 1. Qed.

(** Lines 125-126 read backwards. *)
Lemma hybrid_inject_noise_inv (dm : Hybrid.DataModel) (data : addr) (std : float)
  (w w' : world G) (a : addr) :
  Hybrid.inject_noise C dm data std w = (Ok a, w') →
  ∃ clean vol noise,
    heap w !! data = Some clean ∧
    Hybrid.model_to_data C dm (obj_data clean) = Ok vol ∧
    length noise = length (obj_data vol) ∧
    match vol with
    | Ndarray d =>
        a = length (heap w) ∧
        heap w' = (heap w ++ [Ndarray (zip_with PrimFloat.add d noise)])%list
    | Tensor d =>
        a = S (length (heap w)) ∧
        heap w' = (heap w ++ [Tensor d; Tensor (zip_with PrimFloat.add d noise)])%list
    end.
Proof.
  unfold Hybrid.inject_noise, Hybrid.augmented_add. intros H.
  repeat inv_bind H. simplify_eq/=.
  repeat match goal with
         | H : (_ ++ [_])%list !! _ = Some _ |- _ =>
             rewrite list_lookup_middle in H by done
         end.
  simplify_eq/=.
  match goal with H : normal_from _ _ _ _ = _ |- _ =>
    apply normal_from_length in H; rewrite Nat2Z.id in H end.
  match goal with
  | Hc : heap w !! data = Some ?clean, Hm : Hybrid.model_to_data _ _ _ = Ok ?vol,
    Hn : length ?noise = length (obj_data ?vol) |- _ =>
      exists clean, vol, noise; destruct vol as [d|d]
  end.
  - repeat inv_bind H. inv_prim H. simplify_eq/=.
    match goal with H : NumPy.iadd _ _ = _ |- _ =>
      apply iadd_same_length in H; [subst|done] end.
    split_and!; try done.
    by rewrite insert_app_r_alt, Nat.sub_diag.
  - repeat inv_bind H. inv_prim H. simplify_eq/=.
    match goal with H : NumPy.add _ _ = _ |- _ =>
      apply add_same_length in H; [subst|done] end.
    split_and!; try done.
    + rewrite length_app. simpl. lia.
    + by rewrite <- app_assoc.
Qed.

End HybridFrame.

Section NoiseFrame.

Import NumPy Proc Np SciPy Spec.

Context `{G : Generator}.

(** C8, as the code has it.  The biexponential driver builds the noisy
    trace as a new array: [DATA_CLEAN] still holds what the model
    returned when the script ends, and the noisy array has the length of
    the clean one (or of the noise, when a one-sample clean trace is
    broadcast).  The ASL driver updates [data_vol] with [+=]: the result
    has the length of the clean volume and the model-space signal [data]
    is untouched, but when [data_vol] is a NumPy array the clean volume
    itself is overwritten with the noisy values; only an immutable
    tensor survives next to a new noisy one. *)
Theorem noise_injection_frame
  (Cb : Biexp.Collaborators) (Ch : Hybrid.Collaborators)
  (ob : Biexp.Opts) (wb wb' : world G) (v : Biexp.Vars)
  (dm : Hybrid.DataModel) (data : addr) (std : float) (wh wh' : world G) (a : addr) :
  Biexp.main Cb ob wb = (Ok v, wb') →
  Hybrid.inject_noise Ch dm data std wh = (Ok a, wh') →
  (∃ clean noisy,
     Biexp.biexp_evaluate Cb (Biexp.dt ob)
       [Biexp.amp1 ob; Biexp.rate1 ob; Biexp.amp2 ob; Biexp.rate2 ob]
       (Biexp.time_grid (Biexp.dt ob) (Biexp.nt ob)) = Ok clean ∧
     heap wb' !! Biexp.DATA_CLEAN v = Some (Ndarray clean) ∧
     heap wb' !! Biexp.DATA_NOISY v = Some (Ndarray noisy) ∧
     Biexp.DATA_NOISY v = S (Biexp.DATA_CLEAN v) ∧
     (length noisy = length clean ∨
      (length clean = 1%nat ∧ length noisy = Z.to_nat (Biexp.nt ob)))) ∧
  (∃ clean vol noise,
     heap wh !! data = Some clean ∧ heap wh' !! data = Some clean ∧
     Hybrid.model_to_data Ch dm (obj_data clean) = Ok vol ∧
     length (zip_with PrimFloat.add (obj_data vol) noise) = length (obj_data vol) ∧
     match vol with
     | Ndarray d =>
         a = length (heap wh) ∧
         heap wh' !! a = Some (Ndarray (zip_with PrimFloat.add d noise))
     | Tensor d =>
         a = S (length (heap wh)) ∧
         heap wh' !! length (heap wh) = Some (Tensor d) ∧
         heap wh' !! a = Some (Tensor (zip_with PrimFloat.add d noise))
     end).
Proof.
  intros Hb Hh. split.
  - apply biexp_main_inv in Hb as (w1 & Hsim & ->).
    apply biexp_simulate_inv in Hsim
      as (clean & noise & noisy & Ee & Ln & Ea & _ & Ec & En & ->).
    exists clean, noisy. rewrite Ec, En. repeat split; [done| | |].
    + rewrite lookup_app_r by lia.
      by replace (S (length (heap wb)) - length (heap wb))%nat with 1%nat by lia.
    + rewrite lookup_app_r by lia.
      by replace (S (S (length (heap wb))) - length (heap wb))%nat with 2%nat by lia.
    + rewrite <- Ln. by apply add_length.
  - apply hybrid_inject_noise_inv in Hh as (clean & vol & noise & Hd & Em & Ln & Hv).
    exists clean, vol, noise.
    assert (length (zip_with PrimFloat.add (obj_data vol) noise) = length (obj_data vol))
      as Lz by (rewrite length_zip_with; lia).
    destruct vol as [d|d]; destruct Hv as [-> ->]; repeat split; try done.
    + by apply lookup_app_l_Some.
    + by rewrite list_lookup_middle.
    + by apply lookup_app_l_Some.
    + by rewrite lookup_app_r, Nat.sub_diag by lia.
    + rewrite lookup_app_r by lia.
      by replace (S (length (heap wh)) - length (heap wh))%nat with 1%nat by lia.
Qed.

End NoiseFrame.

Section NoiseFrameSamples.

Import NumPy Proc Np SciPy Spec.

(** C8 as stated fails in the ASL driver: with [data_vol] a NumPy array,
    the object that held the clean volume [5, 10] holds the noisy volume
    [2.5, 17.5] after [data_vol += noise]; no object holds the clean
    volume any more. *)
Lemma clean_volume_overwritten :
  Hybrid.model_to_data (Sample.hybrid (2, 1, 1)%nat [] Ndarray) Sample.volume [10; 20]%float
    = Ok (Ndarray [5; 10]%float) ∧
  Hybrid.inject_noise (Sample.hybrid (2, 1, 1)%nat [] Ndarray) Sample.volume 0%nat 5%float
    (Sample.world_at 1 [Tensor [10; 20]%float] [])
  = (Ok 1%nat,
     Sample.world_at 13 [Tensor [10; 20]%float; Ndarray [2.5; 17.5]%float]
       ["data_model.model_to_data"; "np.random.normal"]).
Proof. split; reflexivity. Qed.

Lemma noise_injection_frame_sample :
  (∃ clean noisy,
     heap (Biexp.main (Sample.biexp []) (Sample.biexp_opts 5 (Some 7%Z) false)
             (Sample.fresh 0)).2 !! 1%nat = Some (Ndarray clean) ∧
     heap (Biexp.main (Sample.biexp []) (Sample.biexp_opts 5 (Some 7%Z) false)
             (Sample.fresh 0)).2 !! 2%nat = Some (Ndarray noisy) ∧
     length noisy = length clean) ∧
  (∃ w', Hybrid.inject_noise (Sample.hybrid (2, 1, 1)%nat [] Tensor) Sample.volume
           0%nat 5%float (Sample.world_at 1 [Tensor [10; 20]%float] []) = (Ok 2%nat, w') ∧
         heap w' !! 0%nat = Some (Tensor [10; 20]%float) ∧
         heap w' !! 1%nat = Some (Tensor [5; 10]%float) ∧
         heap w' !! 2%nat = Some (Tensor [2.5; 17.5]%float)).
Proof.
  destruct (Biexp.main (Sample.biexp []) (Sample.biexp_opts 5 (Some 7%Z) false)
              (Sample.fresh 0)) as [[v|e] wb'] eqn:Eb; [|by vm_compute in Eb].
  destruct (Hybrid.inject_noise (Sample.hybrid (2, 1, 1)%nat [] Tensor) Sample.volume
              0%nat 5%float (Sample.world_at 1 [Tensor [10; 20]%float] []))
    as [[a|e] wh'] eqn:Eh; [|by vm_compute in Eh].
  destruct (noise_injection_frame _ _ _ _ _ _ _ _ _ _ _ _ Eb Eh)
    as [(clean & noisy & _ & Hc & Hn & Ea & Hl) (cl & vol & noise & H0 & H0' & Em & _ & Hv)].
  vm_compute in Eb. injection Eb as <- <-.
  vm_compute in Eh. injection Eh as <- <-.
  split.
  - exists clean, noisy. simpl in *. repeat split; [done..|].
    injection Hc as <-. injection Hn as <-. done.
  - eexists. split; [reflexivity|]. done.
Defined.

End NoiseFrameSamples.

(** ** Failures of the comparison and of plotting *)

Section Reports.

Import NumPy Proc Np SciPy Spec.

Context `{G : Generator}.

Lemma biexp_fabber_failure (C : Biexp.Collaborators) (opts : Biexp.Opts)
  (w w1 w2 w3 : world G) (v : Biexp.Vars) (rt : float) (st : Biexp.run_state) (e : exn) :
  Biexp.simulate C opts w = (Ok v, w1) →
  Biexp.infer C opts v w1 = (Ok (rt, st), w2) →
  Biexp.fabber_comparison C opts v w2 = (Raise e, w3) →
  Biexp.main C opts w = (Raise e, w3).
Proof.
  intros Hs Hi Hf. unfold Biexp.main.
  rewrite (bind_ok _ _ _ _ _ Hs), (bind_ok _ _ _ _ _ Hi). simpl.
  by apply bind_raise.
Qed.

Lemma biexp_plot_failure (C : Biexp.Collaborators) (opts : Biexp.Opts)
  (w w1 w2 w3 w4 : world G) (v : Biexp.Vars) (rt : float) (st : Biexp.run_state)
  (fit : option (list float)) (e : exn) :
  Biexp.simulate C opts w = (Ok v, w1) →
  Biexp.infer C opts v w1 = (Ok (rt, st), w2) →
  Biexp.fabber_comparison C opts v w2 = (Ok fit, w3) →
  Biexp.show_plots C opts v st fit w3 = (Raise e, w4) →
  Biexp.main C opts w = (Raise e, w4).
Proof.
  intros Hs Hi Hf Hp. unfold Biexp.main.
  rewrite (bind_ok _ _ _ _ _ Hs), (bind_ok _ _ _ _ _ Hi). simpl.
  rewrite (bind_ok _ _ _ _ _ Hf). by apply bind_raise.
Qed.

Lemma hybrid_plot_failure (C : Hybrid.Collaborators) (opts : Hybrid.Opts)
  (w w1 w2 w3 : world G) (v : Hybrid.Vars) (e : exn) :
  Hybrid.simulate C opts w = (Ok v, w1) →
  Hybrid.infer C opts v w1 = (Ok (), w2) →
  Hybrid.show_plots C opts v w2 = (Raise e, w3) →
  Hybrid.main C opts w = (Raise e, w3).
Proof.
  intros Hs Hi Hp. unfold Hybrid.main.
  rewrite (bind_ok _ _ _ _ _ Hs), (bind_ok _ _ _ _ _ Hi). by apply bind_raise.
Qed.

(** C4, as the code has it: neither script has an exception handler.
    Once inference has returned, an exception raised by the reference
    comparison or by plotting becomes the outcome of the whole script,
    and the process ends in the state it was in when the exception was
    raised: nothing is logged and no later statement runs. *)
Theorem report_failures_abort
  (Cb : Biexp.Collaborators) (Ch : Hybrid.Collaborators)
  (ob : Biexp.Opts) (wb wb1 wb2 wb3 : world G) (vb : Biexp.Vars)
  (rt : float) (st : Biexp.run_state) (eb : exn)
  (oh : Hybrid.Opts) (wh wh1 wh2 wh3 : world G) (vh : Hybrid.Vars) (eh : exn) :
  Biexp.simulate Cb ob wb = (Ok vb, wb1) →
  Biexp.infer Cb ob vb wb1 = (Ok (rt, st), wb2) →
  (Biexp.fabber_comparison Cb ob vb wb2 = (Raise eb, wb3) ∨
   ∃ fit w, Biexp.fabber_comparison Cb ob vb wb2 = (Ok fit, w) ∧
            Biexp.show_plots Cb ob vb st fit w = (Raise eb, wb3)) →
  Hybrid.simulate Ch oh wh = (Ok vh, wh1) →
  Hybrid.infer Ch oh vh wh1 = (Ok (), wh2) →
  Hybrid.show_plots Ch oh vh wh2 = (Raise eh, wh3) →
  Biexp.main Cb ob wb = (Raise eb, wb3) ∧
  Hybrid.main Ch oh wh = (Raise eh, wh3).
Proof.
  intros Hs Hi Hr Hhs Hhi Hhp. split.
  - destruct Hr as [Hf|(fit & w & Hf & Hp)].
    + by eapply biexp_fabber_failure.
    + by eapply biexp_plot_failure.
  - by eapply hybrid_plot_failure.
Qed.

End Reports.

Section ReportSamples.

Import NumPy Proc Np SciPy Spec.

Local Open Scope R_scope.

(** C4 as stated fails: inference has returned, the comparison cannot
    load the reference fit, and the script ends with that
    [FileNotFoundError]; loading was the last thing it did. *)
Lemma missing_fabber_output_aborts :
  ∃ w,
    Biexp.main (Sample.biexp []) (Sample.biexp_opts 5 None true) (Sample.fresh 0)
      = (Raise (FileNotFoundError "exp_example_fabber_out/modelfit.nii.gz"), w) ∧
    Called "vaby.run" ∈ trace w ∧
    last (trace w) = Some (Called "nib.load").
Proof.
  eexists. split; [vm_compute; reflexivity|]. split; [|reflexivity].
  simpl. set_solver.
Qed.

Lemma sample_simulate (vertices : list point) (e : Z) :
  Forall (inside (2, 1, 1)%nat) vertices →
  ∃ v w1,
    Hybrid.simulate (Sample.hybrid (2, 1, 1)%nat vertices Ndarray)
      (Sample.hybrid_opts 5 true) (Sample.fresh e) = (Ok v, w1) ∧
    Hybrid.data (Hybrid.truth v) = 0%nat ∧
    heap w1 !! 0%nat = Some (Tensor [10; 20]%float).
Proof.
  intros Hin.
  destruct (sample_ground_truth (2, 1, 1)%nat vertices Ndarray 5%float true e)
    as (g & Eg & Edm & Ev & Ed); [simpl; lia|done|].
  unfold Hybrid.simulate. rewrite (bind_ok _ _ _ _ _ Eg). rewrite Edm, Ed.
  unfold Hybrid.inject_noise, Hybrid.augmented_add, mbind, M_bind, call, emit, lift,
    alloc, load, store, mret, M_ret, np_random_normal, normal_from. simpl.
  unfold mbind, M_bind. simpl.
  destruct (Z.even e), (Z.even (3 * e + 1)); simpl;
    (eexists _, _; split; [reflexivity|]; done).
Qed.

Lemma report_failures_abort_sample :
  ∃ wb wh,
    Biexp.main (Sample.biexp []) (Sample.biexp_opts 5 None true) (Sample.fresh 0)
      = (Raise (FileNotFoundError "exp_example_fabber_out/modelfit.nii.gz"), wb) ∧
    Hybrid.main (Sample.hybrid (2, 1, 1)%nat [(0, 0, 0)] Ndarray)
      (Sample.hybrid_opts 5 true) (Sample.fresh 0)
      = (Raise (FileNotFoundError "hybrid_asl_example_svb_nonspatial_out/mean_ftiss_L.func.gii"), wh).
Proof.
  destruct (Biexp.simulate (Sample.biexp []) (Sample.biexp_opts 5 None true)
              (Sample.fresh 0)) as [[vb|?] wb1] eqn:Es; [|by vm_compute in Es].
  destruct (Biexp.infer (Sample.biexp []) (Sample.biexp_opts 5 None true) vb wb1)
    as [[[rt st]|?] wb2] eqn:Ei;
    [|vm_compute in Es; injection Es as <- <-; by vm_compute in Ei].
  destruct (Biexp.fabber_comparison (Sample.biexp []) (Sample.biexp_opts 5 None true) vb wb2)
    as [r wb3] eqn:Ef.
  assert (r = Raise (FileNotFoundError "exp_example_fabber_out/modelfit.nii.gz")) as ->.
  { vm_compute in Es. injection Es as <- <-. vm_compute in Ei. injection Ei as <- <- <-.
    vm_compute in Ef. by injection Ef as <- _. }
  destruct (sample_simulate [(0, 0, 0)] 0) as (vh & wh1 & Ehs & Ed & Eh0);
    [repeat constructor; simpl; lra|].
  destruct (Hybrid.infer (Sample.hybrid (2, 1, 1)%nat [(0, 0, 0)] Ndarray)
              (Sample.hybrid_opts 5 true) vh wh1) as [[[]|?] wh2] eqn:Ehi.
  2: { unfold Hybrid.infer, mbind, M_bind, call, emit, lift, load in Ehi. simpl in Ehi.
       unfold mbind, M_bind in Ehi. simpl in Ehi. rewrite Ed, Eh0 in Ehi. by simpl in Ehi. }
  destruct (Hybrid.show_plots (Sample.hybrid (2, 1, 1)%nat [(0, 0, 0)] Ndarray)
              (Sample.hybrid_opts 5 true) vh wh2) as [rp wh3] eqn:Ehp.
  assert (rp = Raise (FileNotFoundError
                        "hybrid_asl_example_svb_nonspatial_out/mean_ftiss_L.func.gii")) as ->.
  { unfold Hybrid.show_plots, Hybrid.pv, mbind, M_bind, call, emit, lift in Ehp.
    simpl in Ehp. unfold mbind, M_bind in Ehp. simpl in Ehp. by injection Ehp as <- _. }
  destruct (report_failures_abort _ _ _ _ _ _ _ _ _ _ _ _ _ _ _ _ _ _ Es Ei (or_introl Ef)
              Ehs Ehi Ehp) as [Hb Hh].
  eauto.
Defined.

End ReportSamples.

(** * Further properties of the two scripts *)

(** ** Seeds other than 0 *)

Section Seeds.

Import NumPy Proc Spec.

Context `{G : Generator}.

(** X1.  A seed between 1 and 2^32 - 1 makes both scripts reproducible:
    the whole run, from seeding to the last plot, has the same result,
    leaves the same arrays and makes the same calls whatever the global
    generator held when the process started. *)
Theorem seeded_runs_reproducible (B : Biexp.Collaborators) (H : Hybrid.Collaborators)
  (bo : Biexp.Opts) (ho : Hybrid.Opts) (s : Z) (e1 e2 : rng_state) :
  s ≠ 0%Z → seed_in_range s = true →
  Biexp.rseed bo = Some s → Hybrid.rseed ho = Some s →
  Biexp.main B bo (boot e1) = Biexp.main B bo (boot e2) ∧
  Hybrid.main H ho (boot e1) = Hybrid.main H ho (boot e2).
Proof.
  intros Hs Hr Hb Hh. split.
  - unfold Biexp.main. unfold mbind at 1 5, M_bind at 1 5.
    by rewrite (biexp_seeded_runs_agree B bo s e1 e2).
  - unfold Hybrid.main. unfold mbind at 1 5, M_bind at 1 5.
    by rewrite (hybrid_seeded_runs_agree H ho s e1 e2).
Qed.

(** X2.  A seed below 0 or above 2^32 - 1 stops both scripts at
    [np.random.seed] with a ValueError: TensorFlow is not seeded, nothing
    is printed and no model is built. *)
Theorem seed_out_of_range_aborts (B : Biexp.Collaborators) (H : Hybrid.Collaborators)
  (bo : Biexp.Opts) (ho : Hybrid.Opts) (s : Z) (w : world G) :
  seed_in_range s = false →
  Biexp.rseed bo = Some s → Hybrid.rseed ho = Some s →
  Biexp.main B bo w
    = (Raise (ValueError "Seed must be between 0 and 2**32 - 1"),
       logged w (Called "np.random.seed")) ∧
  Hybrid.main H ho w
    = (Raise (ValueError "Seed must be between 0 and 2**32 - 1"),
       logged w (Called "np.random.seed")).
Proof.
  intros Hr Hb Hh.
  assert (seed_generators (Some s) w
          = (Raise (ValueError "Seed must be between 0 and 2**32 - 1"),
             logged w (Called "np.random.seed"))) as E.
  { unfold seed_generators, truthy_int.
    destruct (Z.eqb_spec s 0) as [->|_]; [done|]. simpl.
    unfold mbind, M_bind, np_random_seed. by rewrite Hr. }
  split.
  - unfold Biexp.main, Biexp.simulate. rewrite Hb.
    apply bind_raise. by apply bind_raise.
  - unfold Hybrid.main, Hybrid.simulate, Hybrid.ground_truth, Hybrid.setup. rewrite Hh.
    do 3 apply bind_raise. by apply bind_raise.
Qed.

End Seeds.

Lemma seeded_runs_reproducible_sample :
  Biexp.main (G := Sample.two_valued) (Sample.biexp [])
      (Sample.biexp_opts 5 (Some 7%Z) false) (Sample.fresh 1)
    = Biexp.main (Sample.biexp []) (Sample.biexp_opts 5 (Some 7%Z) false) (Sample.fresh 2) ∧
  Hybrid.main (G := Sample.two_valued) (Sample.hybrid (2, 1, 1)%nat [] Proc.Ndarray)
      (Sample.seeded_hybrid_opts 7) (Sample.fresh 1)
    = Hybrid.main (Sample.hybrid (2, 1, 1)%nat [] Proc.Ndarray)
        (Sample.seeded_hybrid_opts 7) (Sample.fresh 2).
Proof.
  apply (seeded_runs_reproducible (G := Sample.two_valued) _ _ _ _ 7%Z 1%Z 2%Z); done.
Defined.

Lemma seed_out_of_range_aborts_sample :
  Biexp.main (G := Sample.two_valued) (Sample.biexp [])
      (Sample.biexp_opts 5 (Some (-1)%Z) false) (Sample.fresh 1)
    = (Raise (ValueError "Seed must be between 0 and 2**32 - 1"),
       Spec.logged (Sample.fresh 1) (Proc.Called "np.random.seed")) ∧
  Hybrid.main (G := Sample.two_valued) (Sample.hybrid (2, 1, 1)%nat [] Proc.Ndarray)
      (Sample.seeded_hybrid_opts (-1)) (Sample.fresh 1)
    = (Raise (ValueError "Seed must be between 0 and 2**32 - 1"),
       Spec.logged (Sample.fresh 1) (Proc.Called "np.random.seed")).
Proof.
  apply (seed_out_of_range_aborts (G := Sample.two_valued) _ _ _ _ (-1)%Z); done.
Defined.

(** ** The cell of an in-bounds coordinate *)

Section Cells.

Import Np SciPy Spec.

Local Open Scope R_scope.

Lemma searchsorted_seq (a n : nat) (x : R) :
  let s := searchsorted (map INR (seq a n)) x in
  (s ≤ n)%nat ∧
  (∀ k, (a ≤ k < a + s)%nat → INR k < x) ∧
  ((s < n)%nat → x <= INR (a + s)).
Proof.
  revert a. induction n as [|n IH]; intros a; simpl.
  - split; [lia|]. split; [intros; lia|lia].
  - destruct (decide (INR a < x)) as [Ha|Ha].
    + destruct (IH (S a)) as (H1 & H2 & H3). split; [lia|]. split.
      * intros k Hk. destruct (decide (k = a)) as [->|]; [done|]. apply H2. lia.
      * intros Hs. replace (a + S (searchsorted (map INR (seq (S a) n)) x))%nat
          with (S a + searchsorted (map INR (seq (S a) n)) x)%nat by lia.
        apply H3. lia.
    + split; [lia|]. split; [intros; lia|]. intros _. rewrite Nat.add_0_r. lra.
Qed.

Lemma item_arange (d : nat) (i : Z) :
  (0 ≤ i < Z.of_nat d)%Z → item (arange d) i = Some (IZR i).
Proof.
  intros H. unfold item. destruct (Z.ltb_spec i 0); [lia|].
  rewrite arange_lookup by lia. f_equal.
  rewrite INR_IZR_INZ. f_equal. lia.
Qed.

(** On an axis of at least two voxels an in-bounds coordinate lies in the
    cell that [_find_indices] picks, at a distance between 0 and 1 from
    its lower end. *)
Lemma find_index_cell (d : nat) (x : R) :
  (2 ≤ d)%nat → 0 <= x <= INR d - 1 →
  ∃ i : nat,
    find_index (arange d) x = (Z.of_nat i, x - INR i) ∧
    (i + 1 < d + 1)%nat ∧ (i + 2 ≤ d)%nat ∧ 0 <= x - INR i <= 1.
Proof.
  intros Hd Hx. unfold find_index. rewrite arange_length.
  destruct (searchsorted_seq 0 d x) as (H1 & H2 & H3). fold (arange d) in *.
  set (s := searchsorted (arange d) x) in *. simpl in H2, H3.
  assert (s < d)%nat as Hs.
  { destruct (decide (s = d)) as [E|]; [|lia].
    specialize (H2 (d - 1)%nat ltac:(lia)). rewrite minus_INR in H2 by lia.
    simpl in H2. lra. }
  specialize (H3 Hs).
  destruct (decide (s = 0%nat)) as [E0|E0].
  - exists 0%nat. rewrite E0 in *. simpl in H3. simpl.
    destruct (Z.ltb_spec (Z.of_nat d - 2) 0); [lia|].
    rewrite !item_arange by lia. simpl.
    change (0 + 1)%Z with 1%Z.
    destruct (decide (1 - 0 = 0)); [lra|].
    split; [f_equal; lra|]. split; [lia|]. split; [lia|]. lra.
  - exists (s - 1)%nat.
    specialize (H2 (s - 1)%nat ltac:(lia)).
    destruct (Z.ltb_spec (Z.of_nat s - 1) 0); [lia|].
    destruct (Z.ltb_spec (Z.of_nat d - 2) (Z.of_nat s - 1)); [lia|].
    rewrite !item_arange by lia. simpl.
    replace (IZR (Z.of_nat s - 1 + 1) - IZR (Z.of_nat s - 1)) with 1
      by (rewrite plus_IZR; simpl; lra).
    destruct (decide (1 = 0)); [lra|].
    assert (IZR (Z.of_nat s - 1) = INR (s - 1)) as ->.
    { rewrite INR_IZR_INZ. f_equal. lia. }
    assert (INR s = INR (s - 1) + 1) as Es.
    { rewrite minus_INR by lia. simpl. lra. }
    split; [f_equal; [lia|lra]|]. split; [lia|]. split; [lia|]. lra.
Qed.

(** On an axis of one voxel the only in-bounds coordinate is 0; the cell
    index is -1, which wraps around to the voxel, at distance 0. *)
Lemma find_index_single (x : R) : find_index (arange 1) x = ((-1)%Z, 0).
Proof.
  unfold find_index. simpl.
  destruct (decide (0 < x)); simpl; destruct (decide (0 - 0 = 0)); try lra; done.
Qed.

End Cells.

(** ** Interpolation as a weighted mean *)

Section Mean.

Import Np SciPy Spec.

Local Open Scope R_scope.

(** The weight of the lower or the upper end of a cell at distance [y]. *)
Lemma axis_cell (d : nat) (x : R) :
  (1 ≤ d)%nat → 0 <= x <= INR d - 1 →
  ∃ i y, find_index (arange d) x = (i, y) ∧
    (- Z.of_nat d ≤ i < Z.of_nat d)%Z ∧ (- Z.of_nat d ≤ i + 1 < Z.of_nat d)%Z ∧
    0 <= y <= 1.
Proof.
  intros Hd Hx. destruct (decide (d = 1%nat)) as [->|].
  - exists (-1)%Z, 0. rewrite find_index_single. split; [done|].
    split; [lia|]. split; [lia|]. lra.
  - destruct (find_index_cell d x) as (i & E & H1 & H2 & H3); [lia|done|].
    exists (Z.of_nat i), (x - INR i). split; [done|]. split; [lia|]. split; [lia|done].
Qed.

Lemma item3_elem_of {A} (a : array3 A) (i j k : Z) (v : A) :
  item3 a i j k = Some v → v ∈ Hybrid.flatten3 a.
Proof.
  unfold item3. intros H.
  destruct (item a i) as [plane|] eqn:E1; [|done]. simpl in H.
  destruct (item plane j) as [row|] eqn:E2; [|done]. simpl in H.
  apply item_elem_of, list_elem_of_In in E1, E2, H. unfold Hybrid.flatten3.
  apply list_elem_of_In, in_concat. exists row. split; [|done].
  apply in_concat. by exists plane.
Qed.

(** A list of finite terms [v * W] sums to a finite number. *)
Lemma fold_add_fin {A} (v W : A → R) (l : list A) (a : R) :
  fold_left add (map (λ c, Fin (v c * W c)) l) (Fin a)
    = Fin (a + foldr (λ c s, v c * W c + s) 0 l).
Proof.
  revert a. induction l as [|c l IH]; intros a; simpl.
  - f_equal. lra.
  - rewrite IH. f_equal. lra.
Qed.

Lemma weighted_sum_bounds {A} (v W : A → R) (l : list A) (lo hi : R) :
  (∀ c, c ∈ l → lo <= v c <= hi ∧ 0 <= W c) →
  lo * foldr (λ c s, W c + s) 0 l <= foldr (λ c s, v c * W c + s) 0 l
    <= hi * foldr (λ c s, W c + s) 0 l.
Proof.
  induction l as [|c l IH]; intros H; simpl; [lra|].
  destruct (H c) as [Hv HW]; [left|].
  destruct IH as [I1 I2]; [intros; apply H; by right|]. nra.
Qed.

Lemma sequence_option_map_Some {A B} (f : A → option B) (g : A → B) (l : list A) :
  (∀ c, c ∈ l → f c = Some (g c)) → sequence_option (map f l) = Some (map g l).
Proof.
  induction l as [|c l IH]; intros H; simpl; [done|].
  rewrite (H c) by left. rewrite IH; [done|]. intros; apply H; by right.
Qed.



Lemma vertex_Some (shape : nat * nat * nat) (raw : array3 R) (i0 i1 i2 : Z)
  (c : bool * bool * bool) :
  shaped shape raw →
  let '(d0, d1, d2) := shape in
  (- Z.of_nat d0 ≤ i0 < Z.of_nat d0)%Z → (- Z.of_nat d0 ≤ i0 + 1 < Z.of_nat d0)%Z →
  (- Z.of_nat d1 ≤ i1 < Z.of_nat d1)%Z → (- Z.of_nat d1 ≤ i1 + 1 < Z.of_nat d1)%Z →
  (- Z.of_nat d2 ≤ i2 < Z.of_nat d2)%Z → (- Z.of_nat d2 ≤ i2 + 1 < Z.of_nat d2)%Z →
  let '(b0, b1, b2) := c in
  item3 raw (if b0 then i0 + 1 else i0)%Z (if b1 then i1 + 1 else i1)%Z
            (if b2 then i2 + 1 else i2)%Z = Some (vertex raw i0 i1 i2 c).
Proof.
  intros Hs. destruct shape as [[d0 d1] d2], c as [[b0 b1] b2].
  intros H0 H0' H1 H1' H2 H2'. unfold vertex.
  pose proof (item3_Some (d0, d1, d2) raw (if b0 then i0 + 1 else i0)%Z
                (if b1 then i1 + 1 else i1)%Z (if b2 then i2 + 1 else i2)%Z Hs) as H.
  simpl in H. destruct H as [v ->]; [by destruct b0|by destruct b1|by destruct b2|done].
Qed.

(** In-bounds interpolation of a field of finite numbers is the sum of
    the eight vertex values of the cell, each times its weight. *)
Lemma evaluate_linear_sum (shape : nat * nat * nat) (raw : array3 R) (p : point) :
  nonempty shape → shaped shape raw → inside shape p →
  ∃ i0 i1 i2 y0 y1 y2,
    (let '(d0, d1, d2) := shape in let '(x, y, z) := p in
     find_index (arange d0) x = (i0, y0) ∧ find_index (arange d1) y = (i1, y1) ∧
     find_index (arange d2) z = (i2, y2)) ∧
    0 <= y0 <= 1 ∧ 0 <= y1 <= 1 ∧ 0 <= y2 <= 1 ∧
    (∀ c, vertex raw i0 i1 i2 c ∈ Hybrid.flatten3 raw) ∧
    evaluate_linear (Hybrid.grid_points shape) (Hybrid.map3 Fin raw) p
      = Ok (Fin (0 + foldr (λ c s, vertex raw i0 i1 i2 c * weights y0 y1 y2 c + s)
                       0 hypercube)).
Proof.
  destruct shape as [[d0 d1] d2], p as [[x y] z].
  intros (N0 & N1 & N2) Hs (I0 & I1 & I2).
  destruct (axis_cell d0 x N0 I0) as (i0 & y0 & E0 & R0 & R0' & Y0).
  destruct (axis_cell d1 y N1 I1) as (i1 & y1 & E1 & R1 & R1' & Y1).
  destruct (axis_cell d2 z N2 I2) as (i2 & y2 & E2 & R2 & R2' & Y2).
  exists i0, i1, i2, y0, y1, y2.
  assert (∀ c : bool * bool * bool,
            let '(b0, b1, b2) := c in
            item3 raw (if b0 then i0 + 1 else i0)%Z (if b1 then i1 + 1 else i1)%Z
              (if b2 then i2 + 1 else i2)%Z = Some (vertex raw i0 i1 i2 c)) as Hv.
  { intros c. by apply (vertex_Some (d0, d1, d2) raw i0 i1 i2 c Hs). }
  split; [done|]. split; [done|]. split; [done|]. split; [done|]. split.
  - intros c. specialize (Hv c). destruct c as [[b0 b1] b2].
    by eapply item3_elem_of.
  - unfold evaluate_linear, Hybrid.grid_points. rewrite E0, E1, E2.
    rewrite (sequence_option_map_Some _
               (λ c, Fin (vertex raw i0 i1 i2 c * weights y0 y1 y2 c))).
    + by rewrite fold_add_fin.
    + intros c _. specialize (Hv c). destruct c as [[b0 b1] b2].
      unfold corner, weights, weight.
      destruct b0, b1, b2; rewrite item3_map3, Hv; done.
Qed.

Lemma weights_nonneg (y0 y1 y2 : R) (c : bool * bool * bool) :
  0 <= y0 <= 1 → 0 <= y1 <= 1 → 0 <= y2 <= 1 → 0 <= weights y0 y1 y2 c.
Proof.
  intros H0 H1 H2. destruct c as [[b0 b1] b2]. unfold weights, weight.
  assert (0 <= (if b0 then y0 else 1 - y0)) by (destruct b0; lra).
  assert (0 <= (if b1 then y1 else 1 - y1)) by (destruct b1; lra).
  assert (0 <= (if b2 then y2 else 1 - y2)) by (destruct b2; lra).
  rewrite Rmult_1_l. apply Rmult_le_pos; [apply Rmult_le_pos|]; done.
Qed.

Lemma weights_total (y0 y1 y2 : R) :
  foldr (λ c s, weights y0 y1 y2 c + s) 0 hypercube = 1.
Proof. unfold hypercube, weights, weight. simpl. ring. Qed.

(** Linear interpolation never leaves the range of the field. *)
Lemma evaluate_linear_convex (shape : nat * nat * nat) (raw : array3 R) (p : point)
  (lo hi : R) :
  nonempty shape → shaped shape raw → inside shape p →
  (∀ v, v ∈ Hybrid.flatten3 raw → lo <= v <= hi) →
  ∃ r, evaluate_linear (Hybrid.grid_points shape) (Hybrid.map3 Fin raw) p = Ok (Fin r) ∧
       lo <= r <= hi.
Proof.
  intros Hn Hs Hp Hb.
  destruct (evaluate_linear_sum shape raw p Hn Hs Hp)
    as (i0 & i1 & i2 & y0 & y1 & y2 & _ & Y0 & Y1 & Y2 & Hv & E).
  eexists. split; [exact E|].
  pose proof (weighted_sum_bounds (vertex raw i0 i1 i2) (weights y0 y1 y2) hypercube lo hi)
    as H.
  rewrite weights_total in H. destruct H as [H1 H2]; [|lra].
  intros c _. split; [apply Hb, Hv|by apply weights_nonneg].
Qed.

End Mean.

Section Nodes.

Import Np SciPy Spec.

Local Open Scope R_scope.

(** At the coordinate of voxel [k] the cell found has that voxel at one
    of its two ends, at distance 0 or 1. *)
Lemma find_index_node (d k : nat) :
  (k < d)%nat →
  ∃ (i : Z) (b : bool),
    find_index (arange d) (INR k) = (i, if b then 1 else 0) ∧
    ∀ A (l : list A), length l = d → item l (if b then i + 1 else i)%Z = l !! k.
Proof.
  intros Hk. destruct (decide (d = 1%nat)) as [->|Hd].
  - exists (-1)%Z, false. rewrite find_index_single. split; [done|].
    intros A l Hl. unfold item. rewrite Hl. simpl. f_equal. lia.
  - assert (0 <= INR k <= INR d - 1) as Hx.
    { split; [apply pos_INR|].
      replace (INR d - 1) with (INR (d - 1)) by (rewrite minus_INR by lia; simpl; lra).
      apply le_INR. lia. }
    destruct (find_index_cell d (INR k)) as (i & E & _ & Hi & Hy); [lia|done|].
    assert (k = i ∨ k = S i) as [->| ->].
    { destruct (decide (k < i)%nat) as [H|H].
      - apply lt_INR in H. lra.
      - destruct (decide (S i < k)%nat) as [H'|H']; [|lia].
        apply lt_INR in H'. rewrite S_INR in H'. lra. }
    + exists (Z.of_nat i), false. rewrite E. split; [f_equal; lra|].
      intros A l _. apply item_nat.
    + exists (Z.of_nat i), true. rewrite E. split; [f_equal; rewrite S_INR; lra|].
      intros A l _. replace (Z.of_nat i + 1)%Z with (Z.of_nat (S i)) by lia.
      apply item_nat.
Qed.

Lemma item3_nat {A} (a : array3 A) (i j k : nat) :
  item3 a (Z.of_nat i) (Z.of_nat j) (Z.of_nat k)
    = plane ← a !! i; row ← plane !! j; row !! k.
Proof.
  unfold item3, array3 in *. rewrite item_nat.
  destruct (a !! i) as [plane|]; simpl; [|done].
  rewrite item_nat. destruct (plane !! j) as [row|]; simpl; [|done]. apply item_nat.
Qed.

Lemma item3_shift {A} (shape : nat * nat * nat) (a : array3 A) (i0 i1 i2 : Z)
  (i j k : nat) :
  shaped shape a →
  let '(d0, d1, d2) := shape in
  (∀ B (l : list B), length l = d0 → item l i0 = l !! i) →
  (∀ B (l : list B), length l = d1 → item l i1 = l !! j) →
  (∀ B (l : list B), length l = d2 → item l i2 = l !! k) →
  item3 a i0 i1 i2 = item3 a (Z.of_nat i) (Z.of_nat j) (Z.of_nat k).
Proof.
  destruct shape as [[d0 d1] d2]. intros [L Hs] H0 H1 H2.
  rewrite item3_nat. unfold item3, array3 in *. rewrite (H0 _ a L).
  destruct (a !! i) as [plane|] eqn:Ep; simpl; [|done].
  rewrite Forall_forall in Hs.
  destruct (Hs plane) as [Lp Hr]; [by eapply list_elem_of_lookup_2|].
  rewrite (H1 _ plane Lp). destruct (plane !! j) as [row|] eqn:Er; simpl; [|done].
  rewrite Forall_forall in Hr. apply H2, Hr. by eapply list_elem_of_lookup_2.
Qed.

(** Interpolation at the coordinates of a voxel returns the value of the
    field at that voxel. *)
Lemma evaluate_linear_node (shape : nat * nat * nat) (raw : array3 R) (i j k : nat)
  (v : R) :
  shaped shape raw →
  item3 raw (Z.of_nat i) (Z.of_nat j) (Z.of_nat k) = Some v →
  (let '(d0, d1, d2) := shape in (i < d0)%nat ∧ (j < d1)%nat ∧ (k < d2)%nat) →
  evaluate_linear (Hybrid.grid_points shape) (Hybrid.map3 Fin raw) (voxel (i, j, k))
    = Ok (Fin v).
Proof.
  destruct shape as [[d0 d1] d2]. intros Hs Ev (Hi & Hj & Hk).
  destruct (find_index_node d0 i Hi) as (i0 & b0 & E0 & X0).
  destruct (find_index_node d1 j Hj) as (i1 & b1 & E1 & X1).
  destruct (find_index_node d2 k Hk) as (i2 & b2 & E2 & X2).
  assert (inside (d0, d1, d2) (voxel (i, j, k))) as Hin.
  { assert (∀ d n, (n < d)%nat → 0 <= INR n <= INR d - 1) as Hr.
    { intros d n Hn. split; [apply pos_INR|].
      replace (INR d - 1) with (INR (d - 1)) by (rewrite minus_INR by lia; simpl; lra).
      apply le_INR. lia. }
    unfold voxel, inside. auto. }
  destruct (evaluate_linear_sum (d0, d1, d2) raw (voxel (i, j, k)))
    as (i0' & i1' & i2' & y0 & y1 & y2 & (F0 & F1 & F2) & _ & _ & _ & _ & E);
    [simpl; lia|done|done|].
  rewrite E0 in F0. rewrite E1 in F1. rewrite E2 in F2.
  injection F0 as <- <-. injection F1 as <- <-. injection F2 as <- <-.
  rewrite E. do 2 f_equal.
  pose proof (item3_shift (d0, d1, d2) raw _ _ _ i j k Hs
                (X0) (X1) (X2)) as Hv.
  rewrite Ev in Hv.
  assert (vertex raw i0 i1 i2 (b0, b1, b2) = v) as <-.
  { unfold vertex. by rewrite Hv. }
  generalize (vertex raw i0 i1 i2). intros f.
  unfold hypercube, weights, weight. destruct b0, b1, b2; simpl; ring.
Qed.

End Nodes.

Section CorticalField.

Import Np SciPy Spec.

Local Open Scope R_scope.

Lemma map3_map3 {A B D} (f : A → B) (g : B → D) (a : array3 A) :
  Hybrid.map3 g (Hybrid.map3 f a) = Hybrid.map3 (λ x, g (f x)) a.
Proof.
  unfold Hybrid.map3. rewrite map_map. apply map_ext. intros plane.
  rewrite map_map. apply map_ext. intros row. by rewrite map_map.
Qed.

(** On a non-degenerate volume the field sampled at in-bounds vertices
    is finite and at most 1. *)
Lemma cortical_field (shape : nat * nat * nat) (xi : list point) :
  nondegenerate shape → Forall (inside shape) xi →
  ∃ m ctx_sine,
    Np.max (Hybrid.flatten3 (Hybrid.sine_sum shape)) = Ok m ∧ 0 < m ∧
    Hybrid.normalise (Hybrid.sine_sum shape)
      = Ok (Hybrid.map3 Fin (Hybrid.map3 (λ x, x / m) (Hybrid.sine_sum shape))) ∧
    interpn (Hybrid.grid_points shape)
      (Hybrid.map3 Fin (Hybrid.map3 (λ x, x / m) (Hybrid.sine_sum shape))) xi
      = Ok ctx_sine ∧
    length ctx_sine = length xi ∧
    ∀ s, s ∈ ctx_sine → ∃ f, s = Fin f ∧ f <= 1.
Proof.
  intros Hd Hin. destruct (normalise_nondegenerate shape Hd) as (m & Em & Hm & En).
  assert (nonempty shape) as Hn by (by destruct shape as [[? ?] ?], Hd).
  set (raw := Hybrid.map3 (λ x, x / m) (Hybrid.sine_sum shape)).
  assert (shaped shape raw) as Hs by apply map3_shaped, sine_sum_shaped.
  destruct (interpn_inside shape (Hybrid.map3 Fin raw) xi Hn) as [ctx_sine Ei];
    [by apply map3_shaped|done|].
  exists m, ctx_sine. split; [done|]. split; [done|]. split.
  { rewrite En. unfold raw. by rewrite map3_map3. }
  split; [done|]. destruct (interpn_inv _ _ _ _ Ei) as [L Hl]. split; [done|].
  intros s Hsin. apply list_elem_of_lookup in Hsin as [i Hi].
  destruct (lookup_lt_is_Some_2 xi i) as [p Hp].
  { rewrite <- L. by eapply lookup_lt_Some. }
  destruct (Hl i p Hp) as (s' & Es & Ei'). rewrite Hi in Ei'. injection Ei' as <-.
  destruct (evaluate_linear_convex shape raw p (-1 - 3 / m) 1 Hn Hs) as (f & Ef & _ & Hf).
  { rewrite Forall_forall in Hin. by apply Hin, list_elem_of_lookup_2 with i. }
  { intros v Hv. unfold raw in Hv. rewrite flatten3_map3 in Hv.
    apply list_elem_of_In, in_map_iff in Hv as (x & <- & Hx).
    destruct (max_spec _ _ Em) as [_ Hge]. specialize (Hge _ Hx).
    split; [|by apply div_le_one].
    destruct shape as [[d0 d1] d2].
    apply sine_sum_elements in Hx as (i' & j' & k' & _ & _ & _ & ->). unfold wave.
    pose proof (SIN_bound (INR j' / Hybrid.scale)).
    pose proof (SIN_bound (INR i' / Hybrid.scale)).
    pose proof (SIN_bound (INR k' / Hybrid.scale)).
    assert (0 < / m) by (by apply Rinv_0_lt_compat).
    unfold Rdiv. nra. }
  rewrite Es in Ef. injection Ef as ->. by exists f.
Qed.

End CorticalField.

Section CorticalBounds.

Import Np SciPy Spec.

Local Open Scope R_scope.



(** X4.  With a variation amplitude of 0 every cortical CBF value is the
    cortical mean itself, on every non-degenerate volume and for all
    in-bounds vertices. *)
Theorem zero_variation_gives_mean (shape : nat * nat * nat) (xi : list point)
  (base : R) :
  nondegenerate shape → Forall (inside shape) xi →
  Hybrid.cortical_cbf shape xi base 0 = Ok (replicate (length xi) (Fin base)).
Proof.
  intros Hd Hin.
  destruct (cortical_field shape xi Hd Hin) as (m & ctx_sine & _ & _ & En & Ei & L & Hf).
  unfold Hybrid.cortical_cbf. rewrite En, Ei. f_equal.
  symmetry. apply replicate_as_Forall. unfold Hybrid.modulate.
  rewrite length_map. split; [done|].
  apply Forall_forall. intros v Hv.
  apply list_elem_of_In, in_map_iff in Hv as (s & <- & Hs).
  destruct (Hf s) as (f & -> & _); [by apply list_elem_of_In|].
  simpl. f_equal. ring.
Qed.

Lemma zero_variation_gives_mean_sample :
  Hybrid.cortical_cbf (2, 1, 1)%nat [(1 / 2, 0, 0); (1, 0, 0)] 60 0
    = Ok (replicate 2 (Fin 60)).
Proof.
  apply (zero_variation_gives_mean (2, 1, 1)%nat [(1 / 2, 0, 0); (1, 0, 0)] 60).
  - unfold nondegenerate, nonempty. lia.
  - repeat constructor; simpl; lra.
Defined.

(** X5.  A cortical vertex that sits exactly on voxel [(i, j, k)] gets
    the cortical mean plus the amplitude times the normalised field at
    that voxel, [(sin(j/2) + sin(i/2) + sin(k/2)) / max]: interpolation
    reproduces the field at the grid nodes. *)
Theorem cortical_cbf_on_voxels (shape : nat * nat * nat)
  (nodes : list (nat * nat * nat)) (base amp : R) :
  nondegenerate shape →
  Forall (λ '(i, j, k), let '(d0, d1, d2) := shape in
                        (i < d0)%nat ∧ (j < d1)%nat ∧ (k < d2)%nat) nodes →
  ∃ m, Np.max (Hybrid.flatten3 (Hybrid.sine_sum shape)) = Ok m ∧ 0 < m ∧
       Hybrid.cortical_cbf shape (map voxel nodes) base amp
         = Ok (map (λ '(i, j, k), Fin (base + amp * (wave i j k / m))) nodes).
Proof.
  intros Hd Hn.
  assert (Forall (inside shape) (map voxel nodes)) as Hin.
  { apply Forall_forall. intros p Hp.
    apply list_elem_of_In, in_map_iff in Hp as ([[i j] k] & <- & Hp).
    rewrite Forall_forall in Hn. specialize (Hn _ (proj2 (list_elem_of_In _ _) Hp)).
    destruct shape as [[d0 d1] d2]. simpl in Hn. destruct Hn as (Hi & Hj & Hk).
    assert (∀ d n, (n < d)%nat → 0 <= INR n <= INR d - 1) as Hr.
    { intros d n Hlt. split; [apply pos_INR|].
      replace (INR d - 1) with (INR (d - 1)) by (rewrite minus_INR by lia; simpl; lra).
      apply le_INR. lia. }
    unfold voxel, inside. auto. }
  destruct (cortical_field shape _ Hd Hin) as (m & ctx_sine & Em & Hm & En & Ei & L & _).
  exists m. split; [done|]. split; [done|].
  unfold Hybrid.cortical_cbf. rewrite En, Ei. f_equal.
  destruct (interpn_inv _ _ _ _ Ei) as [_ Hl].
  apply list_eq. intros n. unfold Hybrid.modulate. rewrite !list_lookup_fmap.
  destruct (nodes !! n) as [[[i j] k]|] eqn:En'.
  - destruct (Hl n (voxel (i, j, k))) as (s & Es & ->).
    { by rewrite list_lookup_fmap, En'. }
    simpl. f_equal.
    rewrite Forall_forall in Hn. specialize (Hn _ (list_elem_of_lookup_2 _ _ _ En')).
    destruct shape as [[d0 d1] d2]. simpl in Hn. destruct Hn as (Hi & Hj & Hk).
    rewrite (evaluate_linear_node (d0, d1, d2) _ i j k (wave i j k / m)) in Es.
    + by injection Es as <-.
    + apply map3_shaped, sine_sum_shaped.
    + by rewrite item3_map3, sine_sum_item.
    + done.
  - assert (ctx_sine !! n = None) as ->; [|done].
    apply lookup_ge_None. rewrite L, length_map. by apply lookup_ge_None.
Qed.

Lemma cortical_cbf_on_voxels_sample :
  ∃ m, Np.max (Hybrid.flatten3 (Hybrid.sine_sum (2, 1, 1)%nat)) = Ok m ∧ 0 < m ∧
       Hybrid.cortical_cbf (2, 1, 1)%nat (map voxel [(1, 0, 0)%nat]) 60 60
         = Ok (map (λ '(i, j, k), Fin (60 + 60 * (wave i j k / m))) [(1, 0, 0)%nat]).
Proof.
  apply (cortical_cbf_on_voxels (2, 1, 1)%nat [(1, 0, 0)%nat] 60 60).
  - unfold nondegenerate, nonempty. lia.
  - repeat constructor.
Defined.

End CorticalBounds.

(** ** Runs that succeed *)

Section BiexpForward.

Import NumPy Proc Spec.

Context `{G : Generator} (C : Biexp.Collaborators).

Lemma normal_from_Ok (loc scale : float) (n : Z) (st : rng_state) :
  get_sign scale = false → (0 ≤ n)%Z →
  normal_from loc scale n st
    = (Ok (map (λ z, loc + scale * z)%float (gauss_draws (Z.to_nat n) st).1),
       (gauss_draws (Z.to_nat n) st).2).
Proof.
  intros Hs Hn. unfold normal_from. rewrite Hs.
  destruct (Z.ltb_spec n 0); [lia|]. by destruct (gauss_draws (Z.to_nat n) st).
Qed.

(** X6.  If seeding succeeds, the noise level has a non-zero finite
    square and no sign bit, [nt] is not negative and the forward model
    returns one sample per time point, the biexponential simulation
    succeeds: sample [i] of [DATA_NOISY] is the clean sample plus
    [0 + std * z_i], where [z_i] is the i-th draw of the generator after
    seeding; exactly [nt] draws are consumed, and the calls made are the
    print, the model constructor, [evaluate] and [np.random.normal], in
    this order. *)
Theorem biexp_simulation_succeeds (opts : Biexp.Opts) (w w0 : world G)
  (prec : float) (clean : list float) :
  seed_generators (Biexp.rseed opts) w = (Ok (), w0) →
  noise_precision (Biexp.noise opts) = Ok prec →
  get_sign (Biexp.noise opts) = false →
  (0 ≤ Biexp.nt opts)%Z →
  Biexp.biexp_model C (Biexp.dt opts) = Ok () →
  Biexp.biexp_evaluate C (Biexp.dt opts)
    [Biexp.amp1 opts; Biexp.rate1 opts; Biexp.amp2 opts; Biexp.rate2 opts]
    (Biexp.time_grid (Biexp.dt opts) (Biexp.nt opts)) = Ok clean →
  length clean = Z.to_nat (Biexp.nt opts) →
  ∃ v w1,
    Biexp.simulate C opts w = (Ok v, w1) ∧
    obj_data <$> heap w1 !! Biexp.DATA_NOISY v
      = Some (zip_with PrimFloat.add clean
                (map (λ z, 0 + Biexp.noise opts * z)%float
                   (gauss_draws (Z.to_nat (Biexp.nt opts)) (np_rng w0)).1)) ∧
    np_rng w1 = (gauss_draws (Z.to_nat (Biexp.nt opts)) (np_rng w0)).2 ∧
    trace w1
      = (trace w0 ++
         [Printed [Biexp.amp1 opts; Biexp.amp2 opts] [Biexp.rate1 opts; Biexp.rate2 opts]
            (Biexp.noise opts);
          Called "vaby.get_model_class"; Called "evaluate"; Called "np.random.normal"])%list.
Proof.
  intros Hseed Hprec Hsign Hnt Hmodel Heval Hlen.
  unfold Biexp.simulate. rewrite (bind_ok _ _ _ _ _ Hseed).
  unfold Biexp.inject_noise, np_random_normal,
    mbind, M_bind, call, emit, lift, alloc, load, mret, M_ret.
  rewrite Hprec. simpl. rewrite Hmodel. simpl.
  rewrite list_lookup_middle by done. simpl. rewrite Heval. simpl.
  rewrite list_lookup_middle by done. simpl.
  rewrite (normal_from_Ok _ _ _ _ Hsign Hnt). simpl.
  unfold NumPy.add. rewrite length_map, gauss_draws_length, Hlen, Nat.eqb_refl. simpl.
  eexists _, _. split; [reflexivity|]. simpl.
  split; [|split].
  - rewrite list_lookup_middle; [done|]. by rewrite !length_app.
  - done.
  - by rewrite <- !app_assoc.
Qed.

End BiexpForward.

Lemma biexp_simulation_succeeds_sample :
  ∃ v w1,
    Biexp.simulate (G := Sample.two_valued) (Sample.biexp [])
      (Sample.biexp_opts 5 None false) (Sample.fresh 1) = (Ok v, w1) ∧
    Proc.obj_data <$> Proc.heap w1 !! Biexp.DATA_NOISY v
      = Some (zip_with PrimFloat.add [84; 83.25; 82.5; 81.75]%float
                (map (λ z, 0 + 5 * z)%float
                   (NumPy.gauss_draws (H := Sample.two_valued) 4 1%Z).1)) ∧
    Proc.np_rng w1 = (NumPy.gauss_draws (H := Sample.two_valued) 4 1%Z).2 ∧
    Proc.trace w1
      = [Proc.Printed [42; 42]%float [1; 0.5]%float 5;
         Proc.Called "vaby.get_model_class"; Proc.Called "evaluate";
         Proc.Called "np.random.normal"].
Proof.
  apply (biexp_simulation_succeeds (G := Sample.two_valued) (Sample.biexp [])
           (Sample.biexp_opts 5 None false) (Sample.fresh 1) (Sample.fresh 1)
           (1 / 25)%float [84; 83.25; 82.5; 81.75]%float).
  - reflexivity.
  - vm_compute. reflexivity.
  - reflexivity.
  - simpl. lia.
  - reflexivity.
  - vm_compute. reflexivity.
  - reflexivity.
Defined.

Section HybridForward.

Import NumPy Proc Spec.

Context `{G : Generator} (C : Hybrid.Collaborators).

(** X7.  The noise injector of the ASL script draws its noise with the
    shape of the volume it is added to, so for a noise level with a
    non-zero finite square and no sign bit it cannot fail once
    [model_to_data] has returned: element [i] of the noisy volume is the
    clean element plus [0 + std * z_i], exactly one draw is consumed per
    element, and the only calls made are [model_to_data] and
    [np.random.normal]. *)
Theorem hybrid_noise_injection_succeeds (dm : Hybrid.DataModel) (data : nat)
  (std prec : float) (w : world G) (clean vol : pyobj) :
  noise_precision std = Ok prec →
  get_sign std = false →
  heap w !! data = Some clean →
  Hybrid.model_to_data C dm (obj_data clean) = Ok vol →
  ∃ a w',
    Hybrid.inject_noise C dm data std w = (Ok a, w') ∧
    obj_data <$> heap w' !! a
      = Some (zip_with PrimFloat.add (obj_data vol)
                (map (λ z, 0 + std * z)%float
                   (gauss_draws (length (obj_data vol)) (np_rng w)).1)) ∧
    np_rng w' = (gauss_draws (length (obj_data vol)) (np_rng w)).2 ∧
    trace w'
      = (trace w ++ [Called "data_model.model_to_data"; Called "np.random.normal"])%list.
Proof.
  intros Hprec Hsign Hdata Hvol.
  unfold Hybrid.inject_noise, Hybrid.augmented_add, np_random_normal,
    mbind, M_bind, call, emit, lift, alloc, load, store, mret, M_ret.
  rewrite Hprec. simpl. rewrite Hdata. simpl. rewrite Hvol. simpl.
  rewrite list_lookup_middle by done. simpl.
  rewrite (normal_from_Ok _ _ _ _ Hsign) by lia. rewrite Nat2Z.id. simpl.
  rewrite list_lookup_middle by done.
  destruct vol as [d|d]; simpl.
  - unfold NumPy.iadd. rewrite length_map, gauss_draws_length, Nat.eqb_refl. simpl.
    eexists _, _. split; [reflexivity|]. simpl. split; [|split].
    + rewrite insert_app_r_alt, Nat.sub_diag by done. simpl.
      by rewrite list_lookup_middle.
    + done.
    + by rewrite <- !app_assoc.
  - unfold NumPy.add. rewrite length_map, gauss_draws_length, Nat.eqb_refl. simpl.
    eexists _, _. split; [reflexivity|]. simpl. split; [|split].
    + by rewrite list_lookup_middle.
    + done.
    + by rewrite <- !app_assoc.
Qed.

End HybridForward.

Lemma hybrid_noise_injection_succeeds_sample :
  ∃ a w',
    Hybrid.inject_noise (G := Sample.two_valued)
      (Sample.hybrid (2, 1, 1)%nat [] Proc.Ndarray) Sample.volume 0 5
      (Sample.world_at 1 [Proc.Tensor [10; 20]%float] []) = (Ok a, w') ∧
    Proc.obj_data <$> Proc.heap w' !! a
      = Some (zip_with PrimFloat.add [5; 10]%float
                (map (λ z, 0 + 5 * z)%float
                   (NumPy.gauss_draws (H := Sample.two_valued) 2 1%Z).1)) ∧
    Proc.np_rng w' = (NumPy.gauss_draws (H := Sample.two_valued) 2 1%Z).2 ∧
    Proc.trace w'
      = [Proc.Called "data_model.model_to_data"; Proc.Called "np.random.normal"].
Proof.
  apply (hybrid_noise_injection_succeeds (G := Sample.two_valued)
           (Sample.hybrid (2, 1, 1)%nat [] Proc.Ndarray) Sample.volume 0%nat 5%float
           (1 / 25)%float (Sample.world_at 1 [Proc.Tensor [10; 20]%float] [])
           (Proc.Tensor [10; 20]%float) (Proc.Ndarray [5; 10]%float)).
  - vm_compute. reflexivity.
  - reflexivity.
  - reflexivity.
  - vm_compute. reflexivity.
Defined.

(** ** Which exceptions a script can end with *)

Section Outcomes.

Import NumPy Proc Spec.

Context `{G : Generator}.

Lemma raises_mret {A} (P : exn → Prop) (a : A) : raises_only P (mret a : M G A).
Proof. intros w e w' H. discriminate. Qed.

Lemma raises_raise {A} (P : exn → Prop) (e : exn) : P e → raises_only P (raise e : M G A).
Proof. intros He w e' w' H. by injection H as <- _. Qed.

Lemma raises_lift {A} (P : exn → Prop) (r : result A) :
  (∀ e, r = Raise e → P e) → raises_only P (lift r : M G A).
Proof. intros Hr w e w' H. apply lift_inv in H as [H _]. by apply Hr. Qed.

Lemma raises_call {A} (P : exn → Prop) (callee : string) (r : result A) :
  (∀ e, r = Raise e → P e) → raises_only P (call callee r : M G A).
Proof. intros Hr w e w' H. apply call_inv in H as [H _]. by apply Hr. Qed.

Lemma raises_emit (P : exn → Prop) (ev : event) : raises_only P (emit ev : M G unit).
Proof. intros w e w' H. discriminate. Qed.

Lemma raises_alloc (P : exn → Prop) (o : pyobj) : raises_only P (alloc o : M G nat).
Proof. intros w e w' H. discriminate. Qed.

Lemma raises_load (P : exn → Prop) (a : nat) :
  P (CollaboratorError "dangling reference") → raises_only P (load a : M G pyobj).
Proof.
  intros HP w e w' H. unfold load in H.
  destruct (heap w !! a); [discriminate|]. by injection H as <- _.
Qed.

Lemma raises_bind {A B} (P : exn → Prop) (m : M G A) (k : A → M G B) :
  raises_only P m → (∀ a, raises_only P (k a)) → raises_only P (m ≫= k).
Proof.
  intros Hm Hk w e w' H.
  apply bind_inv in H as [(a & w1 & _ & H)|(e' & H & [= ->])]; [by eapply Hk|by eapply Hm].
Qed.

Lemma raises_bind_returns {A B} (P : exn → Prop) (Q : A → Prop) (m : M G A)
  (k : A → M G B) :
  raises_only P m → returns Q m → (∀ a, Q a → raises_only P (k a)) →
  raises_only P (m ≫= k).
Proof.
  intros Hm Hq Hk w e w' H.
  apply bind_inv in H as [(a & w1 & Ha & H)|(e' & H & [= ->])]; [|by eapply Hm].
  eapply Hk; [|done]. by eapply Hq.
Qed.

Lemma raises_seed_generators (P : exn → Prop) (rseed : option Z) :
  P (ValueError "Seed must be between 0 and 2**32 - 1") →
  raises_only P (seed_generators rseed).
Proof.
  intros HP w e w' H. unfold seed_generators in H.
  destruct (truthy_int rseed); [|discriminate]. destruct rseed as [s|]; [|discriminate].
  unfold mbind, M_bind, np_random_seed, tf_random_set_seed in H.
  destruct (seed_in_range s); [discriminate|]. by injection H as <- _.
Qed.

Lemma raises_np_random_normal (P : exn → Prop) (loc scale : float) (n : Z) :
  P (ValueError "scale < 0") → P (ValueError "negative dimensions are not allowed") →
  raises_only P (np_random_normal loc scale n).
Proof.
  intros H1 H2 w e w' H. unfold np_random_normal, normal_from in H.
  destruct (get_sign scale); [by injection H as <- _|].
  destruct (n <? 0)%Z; [by injection H as <- _|].
  destruct (gauss_draws _ _). discriminate.
Qed.

Lemma noise_precision_raises (std : float) (e : exn) :
  noise_precision std = Raise e → e = ZeroDivisionError ∨ e = OverflowError.
Proof.
  unfold noise_precision, float_pow2, truediv_1.
  destruct (_ && _); [intros [= <-]; by right|].
  destruct (_ =? _)%float; [intros [= <-]; by left|discriminate].
Qed.

Lemma add_raises (a b : list float) (e : exn) :
  NumPy.add a b = Raise e → e = ValueError "operands could not be broadcast together".
Proof.
  unfold NumPy.add. destruct (_ =? _)%nat; [discriminate|].
  destruct a as [|x [|??]], b as [|y [|??]]; by intros [= <-] || discriminate.
Qed.

Lemma modelfit0_raises (state : Biexp.run_state) (e : exn) :
  Biexp.modelfit0 state = Raise e → e = KeyError "modelfit" ∨ e = IndexError.
Proof.
  unfold Biexp.modelfit0. destruct (state !! "modelfit") as [[|row rows]|];
    [intros [= <-]; by right|discriminate|intros [= <-]; by left].
Qed.

End Outcomes.

Section NameErrors.

Import NumPy Proc Spec.

Context `{G : Generator} (C : Biexp.Collaborators).

Hypothesis foreign : ∀ x, ¬ collaborator_raises C (NameError x).

Local Ltac side :=
  match goal with
  | |- ∀ e, _ = Raise e → no_name_error e =>
      let e := fresh in let H := fresh in let x := fresh in
      intros e H x ->;
      first [ apply noise_precision_raises in H as [?|?]; discriminate
            | apply add_raises in H; discriminate
            | apply modelfit0_raises in H as [?|?]; discriminate
            | discriminate
            | eapply foreign; eauto using collaborator_raises ]
  | |- no_name_error _ => by intros ?
  end.

Local Ltac raises :=
  repeat first
    [ apply raises_mret | apply raises_emit | apply raises_alloc
    | apply raises_call; side | apply raises_lift; side
    | apply raises_load; side | apply raises_raise; side
    | apply raises_seed_generators; side
    | apply raises_np_random_normal; side
    | apply raises_bind; [|intros ?]
    | match goal with
      | |- raises_only _ (if ?b then _ else _) => destruct b
      | |- raises_only _ (let '(_, _) := ?p in _) => destruct p
      end ].

Lemma simulate_raises (opts : Biexp.Opts) : raises_only no_name_error (Biexp.simulate C opts).
Proof. unfold Biexp.simulate, Biexp.inject_noise. raises. Qed.

Lemma infer_raises (opts : Biexp.Opts) (v : Biexp.Vars) :
  raises_only no_name_error (Biexp.infer C opts v).
Proof. unfold Biexp.infer. raises. Qed.

Lemma fabber_comparison_raises (opts : Biexp.Opts) (v : Biexp.Vars) :
  raises_only no_name_error (Biexp.fabber_comparison C opts v).
Proof. unfold Biexp.fabber_comparison. raises. Qed.

(** The comparison block binds [fabber_modelfit] whenever [--fabber] is
    given. *)
Lemma fabber_comparison_returns (opts : Biexp.Opts) (v : Biexp.Vars) :
  returns (λ fit, Biexp.fabber opts = true → is_Some fit)
    (Biexp.fabber_comparison C opts v).
Proof.
  intros w fit w' H. unfold Biexp.fabber_comparison in H.
  destruct (Biexp.fabber opts); [|done]. intros _.
  repeat inv_bind H. inv_prim H. simplify_eq/=. by eexists.
Qed.

Lemma show_plots_raises (opts : Biexp.Opts) (v : Biexp.Vars) (state : Biexp.run_state)
  (fit : option (list float)) :
  (Biexp.fabber opts = true → is_Some fit) →
  raises_only no_name_error (Biexp.show_plots C opts v state fit).
Proof.
  intros Hfit. unfold Biexp.show_plots, Biexp.plt.
  destruct (Biexp.fabber opts).
  - destruct Hfit as [f ->]; [done|]. raises.
  - raises.
Qed.

(** X8.  The biexponential script never stops with a NameError of its own
    making: [fabber_modelfit] is bound only under [--fabber] and read
    only under [--fabber], so unless a collaborator raises a NameError
    itself, no run ends with one, whatever the options are. *)
Theorem fabber_modelfit_bound_when_plotted (opts : Biexp.Opts) (w : world G) :
  name_error (Biexp.main C opts w).1 = false.
Proof.
  assert (raises_only no_name_error (Biexp.main C opts)) as H.
  { unfold Biexp.main.
    apply raises_bind; [apply simulate_raises|]. intros v.
    apply raises_bind; [apply infer_raises|]. intros [runtime state].
    eapply raises_bind_returns;
      [apply fabber_comparison_raises|apply fabber_comparison_returns|].
    intros fit Hfit.
    apply raises_bind; [by apply show_plots_raises|]. intros _. apply raises_mret. }
  destruct (Biexp.main C opts w) as [[v|e] w'] eqn:E; [done|].
  specialize (H _ _ _ E). destruct e; try done. by destruct (H name).
Qed.

End NameErrors.

Lemma fabber_modelfit_bound_when_plotted_sample :
  Spec.name_error
    (Biexp.main (G := Sample.two_valued) (Sample.biexp_with_state (Some [[1%float]]))
       (Sample.plotting_biexp_opts 5) (Sample.fresh 1)).1 = false.
Proof.
  apply (fabber_modelfit_bound_when_plotted (G := Sample.two_valued)
           (Sample.biexp_with_state (Some [[1%float]]))).
  intros x H. destruct H as [? H|? params ? H|? ? ? H|? H|? ? ? H|? ? H|? H];
    simpl in H; try discriminate.
  unfold Sample.linear_model in H.
  destruct params as [|? [|? [|? [|? [|? ?]]]]]; discriminate.
Defined.

(** ** The ground-truth vectors of the ASL script *)

Section GroundTruthVectors.

Import NumPy Proc Np SciPy Spec.

Local Open Scope R_scope.

Context `{G : Generator} (C : Hybrid.Collaborators).

Lemma times_ones_replicate (c : R) (n : nat) : Hybrid.times_ones c n = replicate n (Fin c).
Proof. unfold Hybrid.times_ones. simpl. by rewrite Rmult_1_r. Qed.

Lemma ground_truth_att (opts : Hybrid.Opts) (w w1 : world G) (g : Hybrid.Truth) :
  Hybrid.ground_truth C opts w = (Ok g, w1) →
  ∃ wm_size,
    Hybrid.part_size (Hybrid.data_model (Hybrid.given g)) 1 = Ok wm_size ∧
    Hybrid.cbf g = Hybrid.composite (Hybrid.astype_float32 C) (Hybrid.ctx_cbf g)
                     (Hybrid.times_ones (Hybrid.wm_cbf opts) wm_size) ∧
    Hybrid.att g = Hybrid.composite (Hybrid.astype_float32 C)
                     (Hybrid.times_ones (Hybrid.gm_att opts) (length (Hybrid.ctx_cbf g)))
                     (Hybrid.times_ones (Hybrid.wm_att opts) wm_size).
Proof.
  unfold Hybrid.ground_truth. intros H.
  repeat inv_bind H. inv_prim H. simplify_eq/=. eauto.
Qed.

(** X9.  In every run of the ASL script that gets as far as evaluating
    the model, the CBF and the ATT vector handed to [evaluate] have the
    same length, the number of cortical vertices plus the size of the
    white-matter part; every cortical ATT entry is the cast of
    [--gm-att], and behind the cortical entries every ATT entry is the
    cast of [--wm-att] and every CBF entry the cast of [--wm-cbf]. *)
Theorem ground_truth_vectors (opts : Hybrid.Opts) (w w1 : world G) (g : Hybrid.Truth) :
  Hybrid.ground_truth C opts w = (Ok g, w1) →
  let n := length (Hybrid.points (Hybrid.inflated (Hybrid.given g))) in
  let cast := Hybrid.astype_float32 C in
  ∃ wm_size tpts clean,
    Hybrid.part_size (Hybrid.data_model (Hybrid.given g)) 1 = Ok wm_size ∧
    Hybrid.asl_evaluate C (Hybrid.cbf g) (Hybrid.att g) tpts = Ok clean ∧
    length (Hybrid.cbf g) = (n + wm_size)%nat ∧
    length (Hybrid.att g) = (n + wm_size)%nat ∧
    (∀ i, (i < n)%nat → Hybrid.att g !! i = Some [cast (Fin (Hybrid.gm_att opts))]) ∧
    (∀ i, (i < wm_size)%nat →
       Hybrid.att g !! (n + i)%nat = Some [cast (Fin (Hybrid.wm_att opts))] ∧
       Hybrid.cbf g !! (n + i)%nat = Some [cast (Fin (Hybrid.wm_cbf opts))]).
Proof.
  intros Hg. simpl.
  destruct (ground_truth_att _ _ _ _ Hg) as (wm_size & Ep & Ec & Ea).
  apply ground_truth_inv in Hg
    as (w0 & ctx_sine & wm_size' & tpts & clean & _ & Ei & Ex & Ep' & _ & Ee & _).
  rewrite Ep in Ep'. injection Ep' as <-.
  destruct (interpn_inv _ _ _ _ Ei) as [L _].
  assert (length (Hybrid.ctx_cbf g)
          = length (Hybrid.points (Hybrid.inflated (Hybrid.given g)))) as Lc.
  { rewrite Ex. unfold Hybrid.modulate. by rewrite length_map. }
  exists wm_size, tpts, clean. split; [done|]. split; [done|].
  rewrite Ec, Ea. unfold Hybrid.composite. rewrite !times_ones_replicate, Lc.
  rewrite !length_map, !length_app, !length_replicate, Lc.
  split; [done|]. split; [done|]. split.
  - intros i Hi. rewrite list_lookup_fmap, lookup_app_l by (by rewrite length_replicate).
    by rewrite lookup_replicate_2.
  - intros i Hi. rewrite !list_lookup_fmap.
    assert (∀ A (l1 l2 : list A) m j, length l1 = m → (l1 ++ l2)%list !! (m + j)%nat = l2 !! j)
      as Happ.
    { intros A l1 l2 m j <-. rewrite lookup_app_r by lia. f_equal. lia. }
    rewrite !Happ by (done || by rewrite length_replicate).
    by rewrite !lookup_replicate_2.
Qed.

End GroundTruthVectors.

Lemma ground_truth_vectors_sample :
  ∃ g w1,
    Hybrid.ground_truth (G := Sample.two_valued)
      (Sample.hybrid (2, 1, 1)%nat [(1 / 2, 0, 0)%R] Proc.Ndarray)
      (Sample.hybrid_opts 5 false) (Sample.fresh 1) = (Ok g, w1) ∧
    ∃ wm_size tpts clean,
      Hybrid.part_size (Hybrid.data_model (Hybrid.given g)) 1 = Ok wm_size ∧
      Hybrid.asl_evaluate (Sample.hybrid (2, 1, 1)%nat [(1 / 2, 0, 0)%R] Proc.Ndarray)
        (Hybrid.cbf g) (Hybrid.att g) tpts = Ok clean ∧
      length (Hybrid.cbf g)
        = (length (Hybrid.points (Hybrid.inflated (Hybrid.given g))) + wm_size)%nat ∧
      length (Hybrid.att g)
        = (length (Hybrid.points (Hybrid.inflated (Hybrid.given g))) + wm_size)%nat ∧
      (∀ i, (i < length (Hybrid.points (Hybrid.inflated (Hybrid.given g))))%nat →
         Hybrid.att g !! i = Some [Np.Fin 1.3]) ∧
      (∀ i, (i < wm_size)%nat →
         Hybrid.att g !! (length (Hybrid.points (Hybrid.inflated (Hybrid.given g))) + i)%nat
           = Some [Np.Fin 1.6] ∧
         Hybrid.cbf g !! (length (Hybrid.points (Hybrid.inflated (Hybrid.given g))) + i)%nat
           = Some [Np.Fin 20]).
Proof.
  destruct (sample_ground_truth (2, 1, 1)%nat [(1 / 2, 0, 0)%R] Proc.Ndarray 5 false 1)
    as (g & E & _).
  - unfold Spec.nonempty. lia.
  - repeat constructor; simpl; lra.
  - eexists g, _. split; [exact E|].
    exact (ground_truth_vectors _ _ _ _ _ E).
Defined.

(** ** A volume without voxels *)

Section EmptyVolume.

Import NumPy Proc Np SciPy Spec.

Context `{G : Generator} (C : Hybrid.Collaborators).

Lemma concat_nil_all {A} (l : list (list A)) : Forall (λ x, x = []) l → concat l = [].
Proof. induction 1 as [|x l -> _ IH]; simpl; [done|by rewrite IH]. Qed.

Lemma sine_sum_empty (d0 d1 d2 : nat) :
  d0 = 0%nat ∨ d1 = 0%nat ∨ d2 = 0%nat →
  Hybrid.flatten3 (Hybrid.sine_sum (d0, d1, d2)) = [].
Proof.
  intros H. unfold Hybrid.flatten3, Hybrid.sine_sum. apply concat_nil_all.
  apply Forall_forall. intros row Hrow.
  apply list_elem_of_In, in_concat in Hrow as (plane & Hplane & Hrow).
  apply in_map_iff in Hplane as (i & <- & Hi).
  apply in_map_iff in Hrow as (j & <- & Hj).
  destruct H as [->| [->| ->]]; [by destruct Hi|by destruct Hj|done].
Qed.

(** X10.  When the acquisition volume has an extent of 0 the sinusoid
    field is empty and [sine.max()] raises a ValueError: the ASL script
    stops right after [vaby.DataModel] returned, before a surface is
    loaded, whatever the other options are. *)
Theorem empty_volume_aborts (opts : Hybrid.Opts) (w w0 : world G) (plds : list float)
  (dm : Hybrid.DataModel) (d0 d1 d2 : nat) :
  seed_generators (Hybrid.rseed opts) w = (Ok (), w0) →
  map_result (Hybrid.py_float C) (Hybrid.split_comma "" (Hybrid.plds opts)) = Ok plds →
  Hybrid.data_model_new C (Hybrid.wm_pvs opts) (Hybrid.base_options opts plds) = Ok dm →
  Hybrid.data_space_shape dm = (d0, d1, d2) →
  d0 = 0%nat ∨ d1 = 0%nat ∨ d2 = 0%nat →
  Hybrid.main C opts w
    = (Raise (ValueError
                "zero-size array to reduction operation maximum which has no identity"),
       logged w0 (Called "vaby.DataModel")).
Proof.
  intros Hseed Hplds Hdm Hshape Hzero.
  unfold Hybrid.main, Hybrid.simulate, Hybrid.ground_truth.
  do 3 apply bind_raise. unfold Hybrid.setup.
  rewrite (bind_ok _ _ _ _ _ Hseed).
  unfold mbind, M_bind, call, emit, lift. rewrite Hplds, Hdm. simpl.
  unfold Hybrid.normalise. rewrite Hshape, (sine_sum_empty _ _ _ Hzero). done.
Qed.

End EmptyVolume.

Lemma empty_volume_aborts_sample :
  Hybrid.main (G := Sample.two_valued) (Sample.hybrid (3, 0, 2)%nat [] Proc.Ndarray)
    (Sample.hybrid_opts 5 false) (Sample.fresh 1)
  = (Raise (ValueError
              "zero-size array to reduction operation maximum which has no identity"),
     Spec.logged (Sample.fresh 1) (Proc.Called "vaby.DataModel")).
Proof.
  apply (empty_volume_aborts (G := Sample.two_valued)
           (Sample.hybrid (3, 0, 2)%nat [] Proc.Ndarray) (Sample.hybrid_opts 5 false)
           (Sample.fresh 1) (Sample.fresh 1) [1; 1]%float
           {| Hybrid.data_space_shape := (3, 0, 2)%nat;
              Hybrid.parts_size := [0; 2]%nat |} 3 0 2).
  - reflexivity.
  - reflexivity.
  - reflexivity.
  - reflexivity.
  - right. left. reflexivity.
Defined.

(** ** A negative noise level *)

Section NegativeNoise.

Import NumPy Proc Spec.

Context `{G : Generator}.

Lemma normal_from_negative (loc scale : float) (n : Z) (st : rng_state) :
  get_sign scale = true →
  normal_from loc scale n st = (Raise (ValueError "scale < 0"), st).
Proof. intros H. unfold normal_from. by rewrite H. Qed.

(** X11.  A noise level with the sign bit set passes the unguarded
    division (its square is positive) and is refused only by
    [np.random.normal]: the biexponential script has printed the ground
    truth, built the model and evaluated the clean signal by then, and it
    stops with ValueError before any noisy data exist and before
    inference; no draw has been taken from the generator. *)
Theorem biexp_negative_noise_rejected (C : Biexp.Collaborators) (opts : Biexp.Opts)
  (w w0 : world G) (prec : float) (clean : list float) :
  seed_generators (Biexp.rseed opts) w = (Ok (), w0) →
  noise_precision (Biexp.noise opts) = Ok prec →
  get_sign (Biexp.noise opts) = true →
  Biexp.biexp_model C (Biexp.dt opts) = Ok () →
  Biexp.biexp_evaluate C (Biexp.dt opts)
    [Biexp.amp1 opts; Biexp.rate1 opts; Biexp.amp2 opts; Biexp.rate2 opts]
    (Biexp.time_grid (Biexp.dt opts) (Biexp.nt opts)) = Ok clean →
  Biexp.main C opts w
    = (Raise (ValueError "scale < 0"),
       World (np_rng w0) (tf_seed w0)
         (heap w0 ++ [Ndarray (Biexp.time_grid (Biexp.dt opts) (Biexp.nt opts));
                      Ndarray clean])
         (trace w0 ++
          [Printed [Biexp.amp1 opts; Biexp.amp2 opts] [Biexp.rate1 opts; Biexp.rate2 opts]
             (Biexp.noise opts);
           Called "vaby.get_model_class"; Called "evaluate"; Called "np.random.normal"])).
Proof.
  intros Hseed Hprec Hsign Hmodel Heval.
  unfold Biexp.main. apply bind_raise.
  unfold Biexp.simulate. rewrite (bind_ok _ _ _ _ _ Hseed).
  unfold Biexp.inject_noise, np_random_normal,
    mbind, M_bind, call, emit, lift, alloc, load, mret, M_ret.
  rewrite Hprec. simpl. rewrite Hmodel. simpl.
  rewrite list_lookup_middle by done. simpl. rewrite Heval. simpl.
  rewrite list_lookup_middle by done. simpl.
  rewrite (normal_from_negative _ _ _ _ Hsign). simpl.
  by rewrite <- !app_assoc.
Qed.

(** X12.  In the ASL script a noise level with the sign bit set is
    refused by [np.random.normal] after the clean signal has been
    evaluated and the acquisition-space volume built: the run stops with
    ValueError, the volume is left without noise, nothing is saved and
    inference does not start. *)
Theorem hybrid_negative_noise_rejected (C : Hybrid.Collaborators) (opts : Hybrid.Opts)
  (w w1 : world G) (g : Hybrid.Truth) (prec : float) (clean vol : pyobj) :
  Hybrid.ground_truth C opts w = (Ok g, w1) →
  noise_precision (Hybrid.noise opts) = Ok prec →
  get_sign (Hybrid.noise opts) = true →
  heap w1 !! Hybrid.data g = Some clean →
  Hybrid.model_to_data C (Hybrid.data_model (Hybrid.given g)) (obj_data clean) = Ok vol →
  Hybrid.main C opts w
    = (Raise (ValueError "scale < 0"),
       World (np_rng w1) (tf_seed w1) (heap w1 ++ [vol])
         (trace w1 ++ [Called "data_model.model_to_data"; Called "np.random.normal"])).
Proof.
  intros Hg Hprec Hsign Hdata Hvol.
  unfold Hybrid.main, Hybrid.simulate. apply bind_raise.
  rewrite (bind_ok _ _ _ _ _ Hg). apply bind_raise.
  unfold Hybrid.inject_noise, np_random_normal,
    mbind, M_bind, call, emit, lift, alloc, load, mret, M_ret.
  rewrite Hprec. simpl. rewrite Hdata. simpl. rewrite Hvol. simpl.
  rewrite list_lookup_middle by done. simpl.
  rewrite (normal_from_negative _ _ _ _ Hsign). simpl.
  by rewrite <- !app_assoc.
Qed.

End NegativeNoise.

Lemma biexp_negative_noise_rejected_sample :
  Biexp.main (G := Sample.two_valued) (Sample.biexp [])
    (Sample.biexp_opts (-5) None false) (Sample.fresh 1)
  = (Raise (ValueError "scale < 0"),
     @Proc.World Sample.two_valued 1%Z None
       [Proc.Ndarray [0; 0.5; 1; 1.5]%float; Proc.Ndarray [84; 83.25; 82.5; 81.75]%float]
       [Proc.Printed [42; 42]%float [1; 0.5]%float (-5);
        Proc.Called "vaby.get_model_class"; Proc.Called "evaluate";
        Proc.Called "np.random.normal"]).
Proof.
  apply (biexp_negative_noise_rejected (G := Sample.two_valued) (Sample.biexp [])
           (Sample.biexp_opts (-5) None false) (Sample.fresh 1) (Sample.fresh 1)
           (1 / 25)%float [84; 83.25; 82.5; 81.75]%float).
  - reflexivity.
  - vm_compute. reflexivity.
  - reflexivity.
  - reflexivity.
  - vm_compute. reflexivity.
Defined.

Lemma hybrid_negative_noise_rejected_sample :
  Hybrid.main (G := Sample.two_valued)
    (Sample.hybrid (2, 1, 1)%nat [(1 / 2, 0, 0)%R] Proc.Ndarray)
    (Sample.hybrid_opts (-5) false) (Sample.fresh 1)
  = (Raise (ValueError "scale < 0"),
     Sample.world_at 1 [Proc.Tensor [10; 20]%float; Proc.Ndarray [5; 10]%float]
       ["vaby.DataModel"; "import toblerone"; "Surface"; "Surface.transform";
        "scipy.interpolate.interpn"; "AslRestModel"; "asl_model.tpts";
        "asl_model.evaluate"; "data_model.model_to_data"; "np.random.normal"]).
Proof.
  destruct (sample_ground_truth (2, 1, 1)%nat [(1 / 2, 0, 0)%R] Proc.Ndarray (-5) false 1)
    as (g & E & Hdm & _ & Hdata).
  - unfold Spec.nonempty. lia.
  - repeat constructor; simpl; lra.
  - rewrite (hybrid_negative_noise_rejected (G := Sample.two_valued) _ _ _ _ g
               (1 / 25)%float (Proc.Tensor [10; 20]%float) (Proc.Ndarray [5; 10]%float) E).
    + reflexivity.
    + vm_compute. reflexivity.
    + reflexivity.
    + by rewrite Hdata.
    + rewrite Hdm. vm_compute. reflexivity.
Defined.

(** ** Plotting a state without a model fit *)

Section PlotWithoutFit.

Import NumPy Proc Spec.

Context `{G : Generator} (C : Biexp.Collaborators).

(** X13.  With [--plot], when the state returned by [vaby.run] has no
    ["modelfit"] entry the script stops with KeyError, and when the entry
    is an empty list with IndexError, at [state["modelfit"][0]]: the
    ground truth and the noisy samples have been drawn by then, but the
    legend is not added and the figure is never shown. *)
Theorem plot_without_model_fit (opts : Biexp.Opts) (w w1 w2 w3 : world G)
  (v : Biexp.Vars) (runtime : float) (state : Biexp.run_state)
  (fit : option (list float)) (e : exn) :
  Biexp.simulate C opts w = (Ok v, w1) →
  Biexp.infer C opts v w1 = (Ok (runtime, state), w2) →
  Biexp.fabber_comparison C opts v w2 = (Ok fit, w3) →
  Biexp.plot opts = true →
  Biexp.import_module C "matplotlib" = Ok () →
  (∀ cmd, Biexp.pyplot C cmd = Ok ()) →
  Biexp.modelfit0 state = Raise e →
  (e = KeyError "modelfit" ∧ state !! "modelfit" = None ∨
   e = IndexError ∧ state !! "modelfit" = Some []) ∧
  Biexp.main C opts w
    = (Raise e,
       World (np_rng w3) (tf_seed w3) (heap w3)
         (trace w3 ++ map Called ["import matplotlib"; "pyplot"; "pyplot"; "pyplot";
                                   "pyplot"])).
Proof.
  intros Hsim Hinf Hfab Hplot Himport Hpyplot Hfit. split.
  { unfold Biexp.modelfit0 in Hfit.
    destruct (state !! "modelfit") as [[|row rows]|]; simplify_eq; auto. }
  apply (biexp_plot_failure C opts w w1 w2 w3 _ v runtime state fit e Hsim Hinf Hfab).
  pose proof (biexp_infer_keeps C opts v _ _ _ Hinf) as K2.
  pose proof (biexp_fabber_keeps C opts v _ _ _ Hfab) as K3.
  apply biexp_simulate_inv in Hsim
    as (clean & noise & noisy & _ & _ & _ & Et & Ec & En & Eh).
  assert (heap w3 = (heap w ++ [Ndarray (Biexp.time_grid (Biexp.dt opts) (Biexp.nt opts));
                                Ndarray clean; Ndarray noisy])%list) as E3
    by (by rewrite K3, K2).
  unfold Biexp.show_plots, Biexp.plt. rewrite Hplot.
  unfold mbind, M_bind, call, emit, lift, load, mret, M_ret.
  rewrite Himport, ?Hpyplot. simpl. rewrite E3, Et, Ec, En.
  rewrite (list_lookup_middle (heap w) _ _ (length (heap w))) by done. simpl.
  rewrite ?Hpyplot. simpl.
  rewrite (lookup_app_r (heap w)) by lia.
  replace (S (length (heap w)) - length (heap w))%nat with 1%nat by lia. simpl.
  rewrite ?Hpyplot. simpl.
  rewrite (lookup_app_r (heap w)) by lia.
  replace (S (S (length (heap w))) - length (heap w))%nat with 2%nat by lia. simpl.
  rewrite ?Hpyplot. simpl. rewrite Hfit.
  by rewrite <- !app_assoc.
Qed.

End PlotWithoutFit.

Lemma plot_without_model_fit_sample :
  ∃ w3,
    (KeyError "modelfit" = KeyError "modelfit" ∧ (∅ : Biexp.run_state) !! "modelfit" = None ∨
     KeyError "modelfit" = IndexError ∧ (∅ : Biexp.run_state) !! "modelfit" = Some []) ∧
    Biexp.main (G := Sample.two_valued) (Sample.biexp_with_state None)
      (Sample.plotting_biexp_opts 5) (Sample.fresh 1)
    = (Raise (KeyError "modelfit"),
       Proc.World (Proc.np_rng w3) (Proc.tf_seed w3) (Proc.heap w3)
         (Proc.trace w3 ++ map Proc.Called ["import matplotlib"; "pyplot"; "pyplot";
                                            "pyplot"; "pyplot"])).
Proof.
  destruct (Biexp.simulate (G := Sample.two_valued) (Sample.biexp_with_state None)
              (Sample.plotting_biexp_opts 5) (Sample.fresh 1)) as [[v|?] w1] eqn:E1;
    [|vm_compute in E1; discriminate].
  destruct (Biexp.infer (G := Sample.two_valued) (Sample.biexp_with_state None)
              (Sample.plotting_biexp_opts 5) v w1) as [[[rt st]|?] w2] eqn:E2.
  2:{ vm_compute in E1. injection E1 as <- <-. vm_compute in E2. discriminate. }
  exists w2.
  apply (plot_without_model_fit (G := Sample.two_valued) (Sample.biexp_with_state None)
           (Sample.plotting_biexp_opts 5) (Sample.fresh 1) w1 w2 w2 v rt ∅ None).
  - exact E1.
  - vm_compute in E1. injection E1 as <- <-. vm_compute in E2. injection E2 as <- <- <-.
    vm_compute. reflexivity.
  - reflexivity.
  - reflexivity.
  - reflexivity.
  - reflexivity.
  - reflexivity.
Defined.

(** ** Calls a run can make *)

Section Calls.

Import NumPy Proc Spec.

Context `{G : Generator}.

Lemma calls_silent {A} (allowed : list string) (m : M G A) :
  (∀ w r w', m w = (r, w') → trace w' = trace w) → calls_within allowed m.
Proof.
  intros Hm w r w' H. exists []. rewrite app_nil_r. split; [by eapply Hm|].
  intros c Hc. by apply elem_of_nil in Hc.
Qed.

Lemma calls_mret {A} (allowed : list string) (a : A) :
  calls_within allowed (mret a : M G A).
Proof. apply calls_silent. intros w r w'. unfold mret, M_ret. by inversion 1. Qed.

Lemma calls_raise {A} (allowed : list string) (e : exn) :
  calls_within allowed (raise e : M G A).
Proof. apply calls_silent. intros w r w'. unfold raise. by inversion 1. Qed.

Lemma calls_lift {A} (allowed : list string) (r : result A) :
  calls_within allowed (lift r : M G A).
Proof. apply calls_silent. intros w r' w' H. by apply lift_inv in H as [_ ->]. Qed.

Lemma calls_load (allowed : list string) (a : nat) :
  calls_within allowed (load a : M G pyobj).
Proof.
  apply calls_silent. intros w r w'. unfold load. destruct (heap w !! a); by inversion 1.
Qed.

Lemma calls_alloc (allowed : list string) (o : pyobj) :
  calls_within allowed (alloc o : M G nat).
Proof. apply calls_silent. intros w r w'. unfold alloc. by inversion 1. Qed.

Lemma calls_store (allowed : list string) (a : nat) (o : pyobj) :
  calls_within allowed (store a o : M G unit).
Proof. apply calls_silent. intros w r w'. unfold store. by inversion 1. Qed.

Lemma calls_print (allowed : list string) (a r : list float) (noise : float) :
  calls_within allowed (emit (Printed a r noise) : M G unit).
Proof.
  intros w r' w'. unfold emit. inversion 1; subst. simpl. eexists. split; [done|].
  intros c Hc. apply list_elem_of_singleton in Hc. discriminate.
Qed.

Lemma calls_call {A} (allowed : list string) (callee : string) (r : result A) :
  callee ∈ allowed → calls_within allowed (call callee r : M G A).
Proof.
  intros Hin w r' w' H. apply call_inv in H as [_ ->]. simpl. eexists. split; [done|].
  intros c Hc. apply list_elem_of_singleton in Hc. by injection Hc as ->.
Qed.

Lemma calls_bind {A B} (allowed : list string) (m : M G A) (k : A → M G B) :
  calls_within allowed m → (∀ a, calls_within allowed (k a)) →
  calls_within allowed (m ≫= k).
Proof.
  intros Hm Hk w r w' H.
  apply bind_inv in H as [(a & w1 & Ha & H)|(e & H & _)]; [|by eapply Hm].
  destruct (Hm _ _ _ Ha) as (evs1 & E1 & H1), (Hk a _ _ _ H) as (evs2 & E2 & H2).
  exists (evs1 ++ evs2)%list. split; [by rewrite E2, E1, app_assoc|].
  intros c Hc. apply elem_of_app in Hc as [?|?]; auto.
Qed.

Lemma calls_seed_generators (allowed : list string) (rseed : option Z) :
  "np.random.seed" ∈ allowed → "tf.random.set_seed" ∈ allowed →
  calls_within allowed (seed_generators rseed).
Proof.
  intros H1 H2 w r w' H.
  exists (drop (length (trace w)) (trace w')).
  assert (∃ evs, trace w' = (trace w ++ evs)%list ∧
                 ∀ c, Called c ∈ evs → c ∈ allowed) as (evs & E & Hevs).
  { unfold seed_generators in H. destruct (truthy_int rseed).
    - destruct rseed as [s|]; [|exists []; rewrite app_nil_r; split;
                                 [by injection H as _ <-|by intros c ?%elem_of_nil]].
      unfold mbind, M_bind, np_random_seed, tf_random_set_seed in H.
      destruct (seed_in_range s); injection H as _ <-; simpl.
      + exists [Called "np.random.seed"; Called "tf.random.set_seed"].
        split; [by rewrite <- app_assoc|].
        intros c Hc. apply elem_of_cons in Hc as [[= ->]|Hc]; [done|].
        apply list_elem_of_singleton in Hc. by injection Hc as ->.
      + exists [Called "np.random.seed"]. split; [done|].
        intros c Hc. apply list_elem_of_singleton in Hc. by injection Hc as ->.
    - exists []. rewrite app_nil_r. split; [by injection H as _ <-|].
      by intros c ?%elem_of_nil. }
  rewrite E, drop_app_length. done.
Qed.

Lemma calls_np_random_normal (allowed : list string) (loc scale : float) (n : Z) :
  "np.random.normal" ∈ allowed → calls_within allowed (np_random_normal loc scale n).
Proof.
  intros Hin w r w' H. unfold np_random_normal in H.
  destruct (normal_from _ _ _ _). injection H as _ <-. simpl. eexists. split; [done|].
  intros c Hc. apply list_elem_of_singleton in Hc. by injection Hc as ->.
Qed.

End Calls.

Ltac calls_within :=
  repeat first
    [ apply calls_mret | apply calls_raise | apply calls_lift | apply calls_load
    | apply calls_alloc | apply calls_store | apply calls_print
    | apply calls_call; set_solver
    | apply calls_seed_generators; set_solver
    | apply calls_np_random_normal; set_solver
    | apply calls_bind; [|intros ?]
    | match goal with
      | |- Spec.calls_within _ (if ?b then _ else _) => destruct b
      | |- Spec.calls_within _ (let '(_, _) := ?p in _) => destruct p
      | |- Spec.calls_within _ (match ?x with _ => _ end) => destruct x
      end ].

Section QuietRuns.

Import NumPy Proc Spec.

Context `{G : Generator}.

(** X14.  Without [--fabber] and [--plot] the biexponential script, in
    every run and however the run ends, calls nothing but the two
    seeding functions, the model constructor, [evaluate],
    [np.random.normal] and [vaby.run]: it imports no further module,
    writes no file, starts no subprocess and opens no figure. *)
Theorem biexp_quiet_without_flags (C : Biexp.Collaborators) (opts : Biexp.Opts) :
  Biexp.fabber opts = false → Biexp.plot opts = false →
  calls_within
    ["np.random.seed"; "tf.random.set_seed"; "vaby.get_model_class"; "evaluate";
     "np.random.normal"; "vaby.run"]
    (Biexp.main C opts).
Proof.
  intros Hf Hp.
  unfold Biexp.main, Biexp.simulate, Biexp.inject_noise, Biexp.infer,
    Biexp.fabber_comparison, Biexp.show_plots.
  rewrite Hf, Hp. calls_within.
Qed.

(** X15.  Without [--plot] the ASL script, in every run and however the
    run ends, makes no call into pyvista and loads no result file: its
    calls are the seeding functions, the data model and surface
    constructors, [interpn], the ASL model, [model_to_data],
    [np.random.normal], the three saves and [vaby.run]. *)
Theorem hybrid_quiet_without_plot (C : Hybrid.Collaborators) (opts : Hybrid.Opts) :
  Hybrid.plot opts = false →
  calls_within
    ["np.random.seed"; "tf.random.set_seed"; "vaby.DataModel"; "import toblerone";
     "Surface"; "Surface.transform"; "scipy.interpolate.interpn"; "AslRestModel";
     "asl_model.tpts"; "asl_model.evaluate"; "data_model.model_to_data";
     "np.random.normal"; "data_space.save_data"; "vaby.run";
     "data_model.save_model_data"; "parts[0].save_data"]
    (Hybrid.main C opts).
Proof.
  intros Hp.
  unfold Hybrid.main, Hybrid.simulate, Hybrid.ground_truth, Hybrid.setup,
    Hybrid.inject_noise, Hybrid.augmented_add, Hybrid.infer, Hybrid.show_plots.
  rewrite Hp. calls_within.
Qed.

End QuietRuns.

Lemma biexp_quiet_without_flags_sample :
  ∃ evs,
    Proc.trace (Biexp.main (G := Sample.two_valued) (Sample.biexp [])
                  (Sample.biexp_opts 5 None false) (Sample.fresh 1)).2
      = (Proc.trace (Sample.fresh 1) ++ evs)%list ∧
    ∀ c, Proc.Called c ∈ evs →
         c ∈ ["np.random.seed"; "tf.random.set_seed"; "vaby.get_model_class"; "evaluate";
              "np.random.normal"; "vaby.run"].
Proof.
  exact (biexp_quiet_without_flags (G := Sample.two_valued) (Sample.biexp [])
           (Sample.biexp_opts 5 None false) eq_refl eq_refl (Sample.fresh 1) _ _
           (surjective_pairing _)).
Defined.

Lemma hybrid_quiet_without_plot_sample :
  ∃ evs,
    Proc.trace (Hybrid.main (G := Sample.two_valued)
                  (Sample.hybrid (2, 1, 1)%nat [] Proc.Ndarray)
                  (Sample.hybrid_opts 5 false) (Sample.fresh 1)).2
      = (Proc.trace (Sample.fresh 1) ++ evs)%list ∧
    ∀ c, Proc.Called c ∈ evs →
         c ∈ ["np.random.seed"; "tf.random.set_seed"; "vaby.DataModel"; "import toblerone";
              "Surface"; "Surface.transform"; "scipy.interpolate.interpn"; "AslRestModel";
              "asl_model.tpts"; "asl_model.evaluate"; "data_model.model_to_data";
              "np.random.normal"; "data_space.save_data"; "vaby.run";
              "data_model.save_model_data"; "parts[0].save_data"].
Proof.
  exact (hybrid_quiet_without_plot (G := Sample.two_valued)
           (Sample.hybrid (2, 1, 1)%nat [] Proc.Ndarray)
           (Sample.hybrid_opts 5 false) eq_refl (Sample.fresh 1) _ _
           (surjective_pairing _)).
Defined.

(** ** The options handed to [vaby.run] *)

Section RunOptions.

Import NumPy Proc SciPy Spec.













End RunOptions.

(** ** What has no influence on a run *)

Section Ignored.

Import NumPy Proc Spec.

Context `{G : Generator}.

(** X18.  Two inputs have no influence on a run of the biexponential
    script.  The exit status of the reference tool is thrown away:
    [os.system] is called for its effect only, so whatever status the
    shell returns, zero or not, the script goes on to load the model
    fit.  And [--size] is parsed and never read.  Changing either
    leaves the outcome, the arrays, the generator and the calls of the
    whole run as they were. *)
Theorem exit_status_and_size_are_ignored (C : Biexp.Collaborators)
  (status : string → float → Z) (size : Z) (opts : Biexp.Opts) (w : world G) :
  Biexp.main (with_exit_status C status) (with_size opts size) w = Biexp.main C opts w.
Proof.
  change (Biexp.main (with_exit_status C status) (with_size opts size) w)
    with (Biexp.main (with_exit_status C status) opts w).
  unfold Biexp.main.
  assert (∀ v w', Biexp.fabber_comparison (with_exit_status C status) opts v w'
                  = Biexp.fabber_comparison C opts v w') as Hf.
  { intros v w'. unfold Biexp.fabber_comparison. destruct (Biexp.fabber opts); [|done].
    unfold mbind, M_bind, call, emit, lift, load, mret, M_ret. simpl.
    destruct (Biexp.import_module C "os"); [|done].
    destruct (Biexp.import_module C "nibabel"); [|done]. simpl.
    destruct (heap w' !! Biexp.DATA_NOISY v); [|done]. simpl.
    destruct (Biexp.nifti_save C _ _ _); done. }
  unfold mbind at 1 5, M_bind at 1 5.
  change (Biexp.simulate (with_exit_status C status) opts w)
    with (Biexp.simulate C opts w).
  destruct (Biexp.simulate C opts w) as [[v|e] w1]; [|done].
  unfold mbind at 1 4, M_bind at 1 4.
  change (Biexp.infer (with_exit_status C status) opts v w1)
    with (Biexp.infer C opts v w1).
  destruct (Biexp.infer C opts v w1) as [[[runtime state]|e] w2]; [|done].
  unfold mbind at 1 3, M_bind at 1 3. rewrite Hf.
  destruct (Biexp.fabber_comparison C opts v w2) as [[fit|e] w3]; [|done].
  reflexivity.
Qed.

(** X19.  A negative [--nt] gives an empty time grid, on which the model
    is still evaluated, and is refused only by [np.random.normal]: the
    biexponential script stops with ValueError before noisy data exist
    and before inference. *)
Theorem biexp_negative_nt_rejected (C : Biexp.Collaborators) (opts : Biexp.Opts)
  (w w0 : world G) (prec : float) (clean : list float) :
  seed_generators (Biexp.rseed opts) w = (Ok (), w0) →
  noise_precision (Biexp.noise opts) = Ok prec →
  get_sign (Biexp.noise opts) = false →
  (Biexp.nt opts < 0)%Z →
  Biexp.biexp_model C (Biexp.dt opts) = Ok () →
  Biexp.biexp_evaluate C (Biexp.dt opts)
    [Biexp.amp1 opts; Biexp.rate1 opts; Biexp.amp2 opts; Biexp.rate2 opts] [] = Ok clean →
  Biexp.time_grid (Biexp.dt opts) (Biexp.nt opts) = [] ∧
  Biexp.main C opts w
    = (Raise (ValueError "negative dimensions are not allowed"),
       World (np_rng w0) (tf_seed w0) (heap w0 ++ [Ndarray []; Ndarray clean])
         (trace w0 ++
          [Printed [Biexp.amp1 opts; Biexp.amp2 opts] [Biexp.rate1 opts; Biexp.rate2 opts]
             (Biexp.noise opts);
           Called "vaby.get_model_class"; Called "evaluate"; Called "np.random.normal"])).
Proof.
  intros Hseed Hprec Hsign Hnt Hmodel Heval.
  assert (Biexp.time_grid (Biexp.dt opts) (Biexp.nt opts) = []) as Et.
  { unfold Biexp.time_grid. by rewrite Z2Nat.nonpos by lia. }
  split; [done|].
  unfold Biexp.main. apply bind_raise.
  unfold Biexp.simulate. rewrite (bind_ok _ _ _ _ _ Hseed).
  unfold Biexp.inject_noise, np_random_normal,
    mbind, M_bind, call, emit, lift, alloc, load, mret, M_ret.
  rewrite Hprec. simpl. rewrite Hmodel. simpl.
  rewrite list_lookup_middle by done. simpl. rewrite Et, Heval. simpl.
  rewrite list_lookup_middle by done. simpl.
  unfold normal_from. rewrite Hsign.
  destruct (Z.ltb_spec (Biexp.nt opts) 0); [|lia]. simpl.
  by rewrite <- !app_assoc.
Qed.

End Ignored.

Lemma biexp_negative_nt_rejected_sample :
  Biexp.time_grid 0.5 (-3) = [] ∧
  Biexp.main (G := Sample.two_valued) (Sample.biexp []) (Sample.biexp_opts_nt (-3))
    (Sample.fresh 1)
  = (Raise (ValueError "negative dimensions are not allowed"),
     @Proc.World Sample.two_valued 1%Z None [Proc.Ndarray []; Proc.Ndarray []]
       [Proc.Printed [42; 42]%float [1; 0.5]%float 5;
        Proc.Called "vaby.get_model_class"; Proc.Called "evaluate";
        Proc.Called "np.random.normal"]).
Proof.
  apply (biexp_negative_nt_rejected (G := Sample.two_valued) (Sample.biexp [])
           (Sample.biexp_opts_nt (-3)) (Sample.fresh 1) (Sample.fresh 1)
           (1 / 25)%float []).
  - reflexivity.
  - vm_compute. reflexivity.
  - reflexivity.
  - simpl. lia.
  - reflexivity.
  - reflexivity.
Defined.
